(** * Risk-managed order execution engine: a shallow embedding

    The Python sources embedded here are
    - [capital_allocator.py]            (module [CapitalAllocator]),
    - [atr_risk_manager.py]             (modules [ATRRiskManager] and
                                         [RiskOrders]),
    - [enhanced_smart_order_executor.py] (module [EnhancedSmartOrderExecutor]),
    - [improved_order_manager.py]       (module [ImprovedOrderManager]).

    Conventions of the embedding.
    - A Python [float] is a rational number ([Q]) and its operations are
      exact; comparisons are the boolean tests [Qle_bool] and [Qltb].
      Where rounding decides a property, the function is embedded a
      second time on binary64 numbers (module [CapitalAllocator64]), and
      a library routine whose rounding the sources do not fix is a
      parameter ([calculate_atr_with]).
    - Python's two-argument [max a b] and [min a b] return their first
      argument unless the second is strictly larger (smaller); [Qmax] and
      [Qmin] of the Standard Library do exactly that.
    - A Python [dict] with string keys is a [gmap string PyVal]; a dict
      keyed by arbitrary values is an insertion-ordered association list.
    - An exception is a value [Exn msg]; [try ... except Exception] is a
      pattern match on it.
    - The exchange, the clock and the logger are explicit state. *)

From Stdlib Require Import QArith Qminmax Qabs Qround Lqa Lia Ascii Floats.
From stdpp Require Import gmap strings list fin_maps.

Open Scope Q_scope.

(** ** Python values and helpers shared by the four modules *)

(** [a < b] on floats, as a boolean. *)
Definition Qltb (a b : Q) : bool := negb (Qle_bool b a).

(** The built-in [sum]: starts at 0 and adds from left to right. *)
Definition py_sum (l : list Q) : Q := fold_left Qplus l 0.

(** [len(l)] used as a number. *)
Definition py_len {A} (l : list A) : Q := inject_Z (Z.of_nat (length l)).

(** The outcome of a Python computation that may raise. *)
Inductive Res (A : Type) : Type :=
| Ok (a : A)
| Exn (e : string).
Arguments Ok {A} a.
Arguments Exn {A} e.

(** A value stored in a dictionary of the exchange API.  [PNum q] is a
    number or a numeric string, which [float()] accepts; [PStr s] is any
    other string. *)
Inductive PyVal : Type :=
| PStr (s : string)
| PNum (q : Q).

(** [a == b] *)
Definition pyval_eqb (a b : PyVal) : bool :=
  match a, b with
  | PStr s, PStr t => String.eqb s t
  | PNum x, PNum y => Qeq_bool x y
  | _, _ => false
  end.

(** [float(v)] *)
Definition py_float (v : PyVal) : Res Q :=
  match v with
  | PNum q => Ok q
  | PStr s => Exn ("could not convert string to float: '" ++ s ++ "'")
  end.

(** The rational number a finite binary64 value is. *)
Definition Q_of_float (f : float) : option Q :=
  match Prim2SF f with
  | S754_zero _ => Some 0
  | S754_finite s m e =>
      let q := inject_Z (Z.pos m)
               * (if (0 <=? e)%Z then inject_Z (2 ^ e)
                  else / inject_Z (2 ^ (- e))) in
      Some (if s then - q else q)
  | S754_infinity _ => None
  | S754_nan => None
  end.

(** A dictionary keyed by arbitrary values, in insertion order:
    [d[k] = v], [k in d] and [del d[k]]. *)
Fixpoint dict_set {V} (k : PyVal) (v : V) (d : list (PyVal * V)) : list (PyVal * V) :=
  match d with
  | [] => [(k, v)]
  | (k', v') :: rest =>
      if pyval_eqb k' k then (k', v) :: rest else (k', v') :: dict_set k v rest
  end.

Definition dict_mem {V} (k : PyVal) (d : list (PyVal * V)) : bool :=
  existsb (fun kv => pyval_eqb kv.1 k) d.

Definition dict_del {V} (k : PyVal) (d : list (PyVal * V)) : list (PyVal * V) :=
  List.filter (fun kv => negb (pyval_eqb kv.1 k)) d.

(** [d.get(k)]: the value stored under the first key equal to [k]. *)
Fixpoint dict_get {V} (k : PyVal) (d : list (PyVal * V)) : option V :=
  match d with
  | [] => None
  | (k', v) :: rest => if pyval_eqb k' k then Some v else dict_get k rest
  end.

(** ** capital_allocator.py *)

Module CapitalAllocator.

(** A buy signal, as the allocator reads it.  [ticker] and [coin] are
    [None] when the key is absent; [is_momentum] is the truth value of
    [s.get('is_momentum', False)]; [momentum_score] is [None] when the
    key is absent. *)
Record Signal : Type := mkSignal {
  ticker : option string;
  coin : option string;
  is_momentum : bool;
  momentum_score : option Q
}.

(** The attributes set by [__init__]. *)
Record Allocator : Type := mkAllocator {
  min_order_size : Q;
  reserve_ratio : Q;
  momentum_capital_ratio : Q
}.

Definition init : Allocator :=
  {| min_order_size := 5000;
     reserve_ratio := 0.02;
     momentum_capital_ratio := 0.6 |}.

(** [signal.get('ticker', signal.get('coin'))] *)
Definition signal_key (s : Signal) : option string :=
  match ticker s with
  | Some t => Some t
  | None => coin s
  end.

(** [s.get('momentum_score', 1)] *)
Definition score (s : Signal) : Q := default 1 (momentum_score s).

Definition tradeable_capital (self : Allocator) (available_krw : Q) : Q :=
  available_krw * (1 - reserve_ratio self).

Definition momentum_signals (buy_signals : list Signal) : list Signal :=
  List.filter is_momentum buy_signals.

Definition regular_signals (buy_signals : list Signal) : list Signal :=
  List.filter (fun s => negb (is_momentum s)) buy_signals.

(** Lines 27-35: [(momentum_capital, regular_capital)]. *)
Definition capital_split (self : Allocator) (tradeable : Q)
    (momentum regular : list Signal) : Q * Q :=
  match momentum, regular with
  | _ :: _, _ :: _ =>
      (tradeable * momentum_capital_ratio self,
       tradeable * (1 - momentum_capital_ratio self))
  | _ :: _, [] => (tradeable, 0)
  | [], _ => (0, tradeable)
  end.

(** Line 41. *)
Definition total_score (momentum : list Signal) : Q :=
  py_sum (score <$> momentum).

(** Line 46. *)
Definition momentum_weight (momentum : list Signal) (s : Signal) : Q :=
  if Qltb 0 (total_score momentum)
  then score s / total_score momentum
  else 1 / py_len momentum.

(** Line 47, as an exact product; [CapitalAllocator64] has the rounded
    one. *)
Definition momentum_allocation (momentum_capital : Q)
    (momentum : list Signal) (s : Signal) : Q :=
  momentum_capital * momentum_weight momentum s.

(** Line 54, as an exact quotient; [CapitalAllocator64] has the rounded
    one. *)
Definition equal_allocation (regular_capital : Q) (regular : list Signal) : Q :=
  regular_capital / py_len regular.

(** One pass of a [for signal in ...] loop that stores [amount signal]
    under the signal's key when it reaches the minimum order size. *)
Definition allocate_loop (self : Allocator) (amount : Signal -> Q)
    (signals : list Signal) (allocations : gmap (option string) Q)
    : gmap (option string) Q :=
  fold_left
    (fun allocations signal =>
       if Qle_bool (min_order_size self) (amount signal)
       then <[signal_key signal := amount signal]> allocations
       else allocations)
    signals allocations.

(** [if signals and capital > 0: <loop>] *)
Definition allocate_group (self : Allocator) (capital : Q)
    (amount : Signal -> Q) (signals : list Signal)
    (allocations : gmap (option string) Q) : gmap (option string) Q :=
  match signals with
  | _ :: _ =>
      if Qltb 0 capital
      then allocate_loop self amount signals allocations
      else allocations
  | [] => allocations
  end.

(** [allocate_capital_dynamically].  The fields of a signal are typed, so
    nothing in the body raises and the [except] clause, which returns the
    empty dictionary, is not reached. *)
Definition allocate_capital_dynamically (self : Allocator)
    (available_krw : Q) (buy_signals : list Signal)
    : gmap (option string) Q :=
  match buy_signals with
  | [] => ∅
  | _ :: _ =>
      let tradeable := tradeable_capital self available_krw in
      let momentum := momentum_signals buy_signals in
      let regular := regular_signals buy_signals in
      let '(momentum_capital, regular_capital) :=
        capital_split self tradeable momentum regular in
      let allocations : gmap (option string) Q := ∅ in
      let allocations :=
        allocate_group self momentum_capital
          (momentum_allocation momentum_capital momentum)
          momentum allocations in
      let allocations :=
        allocate_group self regular_capital
          (fun _ => equal_allocation regular_capital regular)
          regular allocations in
      allocations
  end.

(** The per-ticker amounts the two loops compare with the minimum order
    size, in the order the loops visit them. *)
Definition candidate_slices (self : Allocator)
    (available_krw : Q) (buy_signals : list Signal) : list Q :=
  let tradeable := tradeable_capital self available_krw in
  let momentum := momentum_signals buy_signals in
  let regular := regular_signals buy_signals in
  let '(momentum_capital, regular_capital) :=
    capital_split self tradeable momentum regular in
  (momentum_allocation momentum_capital momentum <$> momentum)
  ++ ((fun _ => equal_allocation regular_capital regular) <$> regular).

(** [sum(allocations.values())] *)
Definition total_allocated (allocations : gmap (option string) Q) : Q :=
  py_sum ((map_to_list allocations).*2).

(** The candidate slices in the words of the specification: 2% of the
    budget is reserved; when both groups are present the momentum group
    receives 60% of the rest and the regular group 40%, a single group
    receives all of it; a momentum slice is its pool times the signal's
    score over the sum of the scores, or an equal share of the pool when
    that sum is 0; a regular slice is an equal share of its pool. *)
Definition spec_pools (budget : Q) (buy_signals : list Signal) : Q * Q :=
  let tradeable := budget * 0.98 in
  match List.filter is_momentum buy_signals,
        List.filter (fun s => negb (is_momentum s)) buy_signals with
  | _ :: _, _ :: _ => (tradeable * 0.6, tradeable * 0.4)
  | _ :: _, [] => (tradeable, 0)
  | [], _ => (0, tradeable)
  end.

Definition spec_candidate_slices (budget : Q) (buy_signals : list Signal)
    : list Q :=
  let momentum := List.filter is_momentum buy_signals in
  let regular := List.filter (fun s => negb (is_momentum s)) buy_signals in
  let pools := spec_pools budget buy_signals in
  let sum_of_scores := py_sum (score <$> momentum) in
  ((fun s => if Qeq_bool sum_of_scores 0
             then pools.1 / py_len momentum
             else pools.1 * (score s / sum_of_scores)) <$> momentum)
  ++ ((fun _ => pools.2 / py_len regular) <$> regular).

(** The scenario of the specification: budget 1,000,000 with two
    momentum signals of score 20 and one regular signal. *)
Definition scenario : list Signal :=
  [ mkSignal (Some "A"%string) None true (Some 20);
    mkSignal (Some "B"%string) None true (Some 20);
    mkSignal (Some "C"%string) None false None ].

(** Two momentum signals of scores 30 and 10. *)
Definition scores_30_10 : list Signal :=
  [ mkSignal (Some "A"%string) None true (Some 30);
    mkSignal (Some "B"%string) None true (Some 10) ].

End CapitalAllocator.

(** ** capital_allocator.py in binary64

    The same function with Python's floats as they are, IEEE 754
    binary64 numbers whose operations round to nearest. *)

Module CapitalAllocator64.
#[local] Set Warnings "-inexact-float".
#[local] Open Scope float_scope.

Record Signal : Type := mkSignal {
  ticker : option string;
  coin : option string;
  is_momentum : bool;
  momentum_score : option float
}.

Record Allocator : Type := mkAllocator {
  min_order_size : float;
  reserve_ratio : float;
  momentum_capital_ratio : float
}.

Definition init : Allocator :=
  {| min_order_size := 5000;
     reserve_ratio := 0.02;
     momentum_capital_ratio := 0.6 |}.

Definition signal_key (s : Signal) : option string :=
  match ticker s with
  | Some t => Some t
  | None => coin s
  end.

Definition score (s : Signal) : float := default 1 (momentum_score s).

(** The built-in [sum] and [len] on floats. *)
Definition py_sum (l : list float) : float := fold_left PrimFloat.add l 0.

Definition py_len {A} (l : list A) : float :=
  PrimFloat.of_uint63 (Uint63.of_Z (Z.of_nat (length l))).

Definition tradeable_capital (self : Allocator) (available_krw : float) : float :=
  available_krw * (1 - reserve_ratio self).

Definition momentum_signals (buy_signals : list Signal) : list Signal :=
  List.filter is_momentum buy_signals.

Definition regular_signals (buy_signals : list Signal) : list Signal :=
  List.filter (fun s => negb (is_momentum s)) buy_signals.

Definition capital_split (self : Allocator) (tradeable : float)
    (momentum regular : list Signal) : float * float :=
  match momentum, regular with
  | _ :: _, _ :: _ =>
      (tradeable * momentum_capital_ratio self,
       tradeable * (1 - momentum_capital_ratio self))
  | _ :: _, [] => (tradeable, 0)
  | [], _ => (0, tradeable)
  end.

Definition total_score (momentum : list Signal) : float :=
  py_sum (score <$> momentum).

Definition momentum_weight (momentum : list Signal) (s : Signal) : float :=
  if PrimFloat.ltb 0 (total_score momentum)
  then score s / total_score momentum
  else 1 / py_len momentum.

Definition momentum_allocation (momentum_capital : float)
    (momentum : list Signal) (s : Signal) : float :=
  momentum_capital * momentum_weight momentum s.

Definition equal_allocation (regular_capital : float)
    (regular : list Signal) : float :=
  regular_capital / py_len regular.

Definition allocate_loop (self : Allocator) (amount : Signal -> float)
    (signals : list Signal) (allocations : gmap (option string) float)
    : gmap (option string) float :=
  fold_left
    (fun allocations signal =>
       if PrimFloat.leb (min_order_size self) (amount signal)
       then <[signal_key signal := amount signal]> allocations
       else allocations)
    signals allocations.

Definition allocate_group (self : Allocator) (capital : float)
    (amount : Signal -> float) (signals : list Signal)
    (allocations : gmap (option string) float) : gmap (option string) float :=
  match signals with
  | _ :: _ =>
      if PrimFloat.ltb 0 capital
      then allocate_loop self amount signals allocations
      else allocations
  | [] => allocations
  end.

(** [allocate_capital_dynamically] on binary64 numbers. *)
Definition allocate_capital_dynamically (self : Allocator)
    (available_krw : float) (buy_signals : list Signal)
    : gmap (option string) float :=
  match buy_signals with
  | [] => ∅
  | _ :: _ =>
      let tradeable := tradeable_capital self available_krw in
      let momentum := momentum_signals buy_signals in
      let regular := regular_signals buy_signals in
      let '(momentum_capital, regular_capital) :=
        capital_split self tradeable momentum regular in
      let allocations : gmap (option string) float := ∅ in
      let allocations :=
        allocate_group self momentum_capital
          (momentum_allocation momentum_capital momentum)
          momentum allocations in
      let allocations :=
        allocate_group self regular_capital
          (fun _ => equal_allocation regular_capital regular)
          regular allocations in
      allocations
  end.

(** Three regular signals. *)
Definition three_regular : list Signal :=
  [ mkSignal (Some "A"%string) None false None;
    mkSignal (Some "B"%string) None false None;
    mkSignal (Some "C"%string) None false None ].

End CapitalAllocator64.

(** ** atr_risk_manager.py *)

Module ATRRiskManager.

(** One daily candle of [pyupbit.get_ohlcv]; only the columns the code
    reads.  The exchange's numbers are finite, so a cell is a [Q]. *)
Record Bar : Type := mkBar {
  high : Q;
  low : Q;
  close : Q
}.

(** What a call of [pyupbit.get_ohlcv] does: raise, return [None], or
    return a frame whose rows are ordered oldest first. *)
Inductive Fetch : Type :=
| FetchRaise (e : string)
| FetchNone
| FetchFrame (df : list Bar).

(** A pandas column of floats is a [list (option Q)]; [None] is NaN. *)

Definition column (f : Bar -> Q) (df : list Bar) : list (option Q) :=
  (fun b => Some (f b)) <$> df.

(** [s.shift(1)]: same length, NaN first. *)
Definition shift1 (s : list (option Q)) : list (option Q) :=
  match s with
  | [] => []
  | _ :: _ => None :: removelast s
  end.

Definition nan_lift2 (op : Q -> Q -> Q) (a b : option Q) : option Q :=
  match a, b with
  | Some x, Some y => Some (op x y)
  | _, _ => None
  end.

(** [a - b] on columns. *)
Definition series_sub (a b : list (option Q)) : list (option Q) :=
  zip_with (nan_lift2 Qminus) a b.

(** [abs(a)] on a column. *)
Definition series_abs (a : list (option Q)) : list (option Q) :=
  (fun cell : option Q => Qabs <$> cell) <$> a.

(** The maximum of two cells that skips NaN ([skipna=True]). *)
Definition nan_max (a b : option Q) : option Q :=
  match a, b with
  | Some x, Some y => Some (Qmax x y)
  | Some x, None => Some x
  | None, _ => b
  end.

(** [df[['tr1', 'tr2', 'tr3']].max(axis=1)] *)
Definition row_max3 (a b c : list (option Q)) : list (option Q) :=
  zip_with nan_max (zip_with nan_max a b) c.

(** The last [n] rows, [s.tail(n)]. *)
Definition tail {A} (n : nat) (l : list A) : list A :=
  drop (length l - n) l.

(** The cells of a window when none is NaN. *)
Definition all_numbers (w : list (option Q)) : option (list Q) := mapM id w.

(** [s.rolling(window).mean().iloc[-1]] when the library's mean of a
    window is exact: NaN unless the last [window] rows exist and hold
    numbers; a window of 0 rows has no mean.  pandas itself keeps a
    running sum in binary64, see [calculate_atr_with]. *)
Definition rolling_mean_last (window : nat) (s : list (option Q)) : option Q :=
  if (window =? 0)%nat then None
  else if (length s <? window)%nat then None
  else match all_numbers (tail window s) with
       | Some w => Some (py_sum w / inject_Z (Z.of_nat window))
       | None => None
       end.

(** The attributes set by [__init__] that the risk levels read. *)
Record Manager : Type := mkManager {
  test_mode : bool;
  ATR_PERIOD : nat;
  STOP_LOSS_MULTIPLIER : Q;
  TAKE_PROFIT_MULTIPLIER : Q;
  TRAILING_STOP_THRESHOLD : Q
}.

Definition init (test_mode : bool) : Manager :=
  {| test_mode := test_mode;
     ATR_PERIOD := 14;
     STOP_LOSS_MULTIPLIER := 2.0;
     TAKE_PROFIT_MULTIPLIER := 3.0;
     TRAILING_STOP_THRESHOLD := 1.5 |}.

(** The [true_range] column built by lines 62-68. *)
Definition true_range_column (df : list Bar) : list (option Q) :=
  let prev_close := shift1 (column close df) in
  let tr1 := series_sub (column high df) (column low df) in
  let tr2 := series_abs (series_sub (column high df) prev_close) in
  let tr3 := series_abs (series_sub (column low df) prev_close) in
  row_max3 tr1 tr2 tr3.

(** [calculate_atr]; [fetch] is what
    [pyupbit.get_ohlcv(ticker, interval="day", count=period + 5)] does.
    A period is a natural number. *)
Definition calculate_atr (self : Manager) (period : option nat)
    (fetch : Fetch) : Q :=
  let period := default (ATR_PERIOD self) period in
  match fetch with
  | FetchRaise _ => 0
  | FetchNone => 0
  | FetchFrame df =>
      if (length df <? period)%nat then 0
      else match rolling_mean_last period (true_range_column df) with
           | Some atr => atr
           | None => 0
           end
  end.

(** [calculate_atr] with the library call left open: [rolling window s]
    stands for [s.rolling(window).mean().iloc[-1]], whatever pandas
    returns for it.  pandas keeps a running sum over the whole column, to
    which it adds the row entering the window and from which it takes the
    row leaving it, all in binary64, so its value need not be the exact
    mean of the last [window] cells, which is what [rolling_mean_last]
    computes. *)
Definition calculate_atr_with (rolling : nat -> list (option Q) -> option Q)
    (self : Manager) (period : option nat) (fetch : Fetch) : Q :=
  let period := default (ATR_PERIOD self) period in
  match fetch with
  | FetchRaise _ => 0
  | FetchNone => 0
  | FetchFrame df =>
      if (length df <? period)%nat then 0
      else match rolling period (true_range_column df) with
           | Some atr => atr
           | None => 0
           end
  end.

(** The specification's words for the same quantity: the True Range of a
    bar is the largest of high-low, |high-prevClose| and |low-prevClose|,
    and the ATR is the mean of the most recent [period] True Ranges. *)
Definition spec_true_range (prev_close : Q) (b : Bar) : Q :=
  Qmax (Qmax (high b - low b) (Qabs (high b - prev_close)))
       (Qabs (low b - prev_close)).

(** The True Range of every bar that has a predecessor. *)
Definition spec_true_ranges (df : list Bar) : list Q :=
  zip_with (fun prev b => spec_true_range (close prev) b) df (drop 1 df).

Definition spec_atr (period : nat) (df : list Bar) : Q :=
  py_sum (tail period (spec_true_ranges df)) / inject_Z (Z.of_nat period).

(** A position of [get_current_positions]. *)
Record PositionData : Type := mkPosition {
  currency : string;
  balance : Q;
  locked : Q;
  total_amount : Q;
  current_price : Q;
  market_value : Q
}.

(** The dictionary [risk_data].  [current_profit_loss] divides by a numpy
    float, which does not raise on a zero divisor: [None] stands for the
    resulting non-finite value. *)
Record RiskData : Type := mkRisk {
  atr : Q;
  atr_percent : Q;
  estimated_entry : Q;
  stop_loss : Q;
  take_profit : Q;
  trailing_threshold : Q;
  current_profit_loss : option Q;
  stop_loss_distance : Q;
  take_profit_distance : Q;
  position_risk : Q
}.

(** [s.min()] and [s.max()] of a column of numbers (0 stands for the NaN
    of an empty column, which [tail(3)] of a non-empty frame never is). *)
Definition series_min (l : list Q) : Q :=
  match l with
  | [] => 0
  | x :: r => fold_left Qmin r x
  end.

Definition series_max (l : list Q) : Q :=
  match l with
  | [] => 0
  | x :: r => fold_left Qmax r x
  end.

(** Lines 129-136. *)
Definition estimate_entry (df : option (list Bar)) (current_price : Q) : Q :=
  match df with
  | Some ((_ :: _) as df) =>
      let recent_low := series_min (tail 3 (low <$> df)) in
      let recent_high := series_max (tail 3 (high <$> df)) in
      (recent_low + recent_high) / 2
  | _ => current_price
  end.

(** Lines 122-126: the computed ATR, or 2% of the current price when the
    computed ATR is 0. *)
Definition atr_or_fallback (self : Manager) (current_price : Q)
    (atr_fetch : Fetch) : Q :=
  let atr := calculate_atr self None atr_fetch in
  if Qeq_bool atr 0 then current_price * 0.02 else atr.

(** [calculate_position_risk_levels].  [atr_fetch] and [entry_fetch] are
    what the two [get_ohlcv] calls do, [total_portfolio_value] is what
    [get_total_portfolio_value()] returns.  The empty dictionary returned
    by the [except] clause is [None]: it is reached when the second fetch
    raises and when a Python float is divided by zero (the current price
    in [atr_percent], the portfolio value in [position_risk]). *)
Definition calculate_position_risk_levels (self : Manager)
    (position_data : PositionData) (atr_fetch entry_fetch : Fetch)
    (total_portfolio_value : Q) : option RiskData :=
  let current_price := current_price position_data in
  let atr := atr_or_fallback self current_price atr_fetch in
  match
    match entry_fetch with
    | FetchRaise e => Exn e
    | FetchNone => Ok None
    | FetchFrame df => Ok (Some df)
    end
  with
  | Exn _ => None
  | Ok df =>
      let estimated_entry := estimate_entry df current_price in
      let stop_loss := estimated_entry - atr * STOP_LOSS_MULTIPLIER self in
      let take_profit := estimated_entry + atr * TAKE_PROFIT_MULTIPLIER self in
      let trailing_threshold :=
        estimated_entry + atr * TRAILING_STOP_THRESHOLD self in
      let stop_loss :=
        if Qltb trailing_threshold current_price
        then
          let trailing_stop := current_price - atr * STOP_LOSS_MULTIPLIER self in
          Qmax stop_loss trailing_stop
        else stop_loss in
      if Qeq_bool current_price 0 then None
      else if Qeq_bool total_portfolio_value 0 then None
      else Some
        {| atr := atr;
           atr_percent := atr / current_price * 100;
           estimated_entry := estimated_entry;
           stop_loss := Qmax stop_loss 0;
           take_profit := take_profit;
           trailing_threshold := trailing_threshold;
           current_profit_loss :=
             if Qeq_bool estimated_entry 0 then None
             else Some ((current_price - estimated_entry) / estimated_entry * 100);
           stop_loss_distance := (current_price - stop_loss) / current_price * 100;
           take_profit_distance := (take_profit - current_price) / current_price * 100;
           position_risk := market_value position_data / total_portfolio_value * 100 |}
  end.

Definition should_execute_stop_loss (position_data : PositionData)
    (risk_data : RiskData) : bool :=
  Qle_bool (current_price position_data) (stop_loss risk_data).

Definition should_execute_take_profit (position_data : PositionData)
    (risk_data : RiskData) : bool :=
  Qle_bool (take_profit risk_data) (current_price position_data).

(** The [order_type] argument of [execute_risk_order]. *)
Inductive OrderType : Type := STOP_LOSS | TAKE_PROFIT.

(** An entry of [executed_orders]. *)
Record ExecutedOrder : Type := mkExecuted {
  eo_ticker : string;
  eo_type : OrderType;
  eo_price : Q;
  eo_amount : Q
}.

(** An entry of [risk_alerts]. *)
Inductive Alert : Type :=
| HighVolatility (ticker : string) (atr_percent : Q)
| LargePosition (ticker : string) (position_risk : Q).

(** What the loop of [monitor_positions] has built so far.
    [risk_order_calls] lists the calls of [execute_risk_order], oldest
    first; [tracked] is [self.position_data]. *)
Record Cycle : Type := mkCycle {
  executed_orders : list ExecutedOrder;
  risk_alerts : list Alert;
  risk_order_calls : list (string * OrderType);
  tracked : gmap string (PositionData * RiskData)
}.

Definition start : Cycle :=
  {| executed_orders := []; risk_alerts := [];
     risk_order_calls := []; tracked := ∅ |}.

(** What the collaborators of one monitoring cycle answer: the two
    candle fetches and the portfolio value for a ticker, and whether
    [execute_risk_order] reports success. *)
Record Market : Type := mkMarket {
  ohlcv_atr : string -> Fetch;
  ohlcv_entry : string -> Fetch;
  total_portfolio_value : string -> Q;
  execute_risk_order : string -> PositionData -> OrderType -> bool
}.

(** Lines 297-333: the loop body once [risk_data] is known. *)
Definition check_triggers (mkt : Market) (ticker : string)
    (position_data : PositionData) (risk_data : RiskData) (c : Cycle) : Cycle :=
  let c := {| executed_orders := executed_orders c;
              risk_alerts := risk_alerts c;
              risk_order_calls := risk_order_calls c;
              tracked := <[ticker := (position_data, risk_data)]> (tracked c) |} in
  let attempt (order_type : OrderType) : bool * Cycle :=
    let ok := execute_risk_order mkt ticker position_data order_type in
    (ok,
     {| executed_orders :=
          if ok
          then executed_orders c ++
               [mkExecuted ticker order_type (current_price position_data)
                  (balance position_data)]
          else executed_orders c;
        risk_alerts := risk_alerts c;
        risk_order_calls := risk_order_calls c ++ [(ticker, order_type)];
        tracked := tracked c |}) in
  let '(executed, c) :=
    if should_execute_stop_loss position_data risk_data
    then attempt STOP_LOSS
    else if should_execute_take_profit position_data risk_data
    then attempt TAKE_PROFIT
    else (false, c) in
  if executed then c
  else
    let alerts := risk_alerts c in
    let alerts :=
      if Qltb 8 (atr_percent risk_data)
      then alerts ++ [HighVolatility ticker (atr_percent risk_data)]
      else alerts in
    let alerts :=
      if Qltb 10 (position_risk risk_data)
      then alerts ++ [LargePosition ticker (position_risk risk_data)]
      else alerts in
    {| executed_orders := executed_orders c;
       risk_alerts := alerts;
       risk_order_calls := risk_order_calls c;
       tracked := tracked c |}.

(** The [for ticker, position_data in positions.items()] loop. *)
Definition monitor_loop (self : Manager) (mkt : Market)
    (positions : list (string * PositionData)) (c : Cycle) : Cycle :=
  fold_left
    (fun c '(ticker, position_data) =>
       match calculate_position_risk_levels self position_data
               (ohlcv_atr mkt ticker) (ohlcv_entry mkt ticker)
               (total_portfolio_value mkt ticker) with
       | None => c
       | Some risk_data => check_triggers mkt ticker position_data risk_data c
       end)
    positions c.

(** A row of [self.upbit.get_balances()]: the currency and the two
    amounts, which the exchange sends as text for [float()] to convert. *)
Record BalanceRow : Type := mkBalanceRow {
  row_currency : string;
  row_balance : PyVal;
  row_locked : PyVal
}.

(** [if current_price:], a price that is neither [None] nor zero. *)
Definition truthy (price : option Q) : option Q :=
  match price with
  | Some p => if Qeq_bool p 0 then None else Some p
  | None => None
  end.

(** [positions[ticker] = position] on a dictionary with string keys,
    whose order of insertion is the order [monitor_positions] visits. *)
Fixpoint set_position (ticker : string) (position : PositionData)
    (positions : list (string * PositionData))
    : list (string * PositionData) :=
  match positions with
  | [] => [(ticker, position)]
  | (t, p) :: rest =>
      if String.eqb t ticker then (t, position) :: rest
      else (t, p) :: set_position ticker position rest
  end.

(** Lines 86-109: the [for balance in balances] loop of
    [get_current_positions]; [get_current_price] is what
    [pyupbit.get_current_price] answers. *)
Fixpoint positions_loop (get_current_price : string -> Res (option Q))
    (balances : list BalanceRow) (positions : list (string * PositionData))
    : Res (list (string * PositionData)) :=
  match balances with
  | [] => Ok positions
  | balance :: balances =>
      let currency := row_currency balance in
      if String.eqb currency "KRW"
      then positions_loop get_current_price balances positions
      else
        match py_float (row_balance balance) with
        | Exn e => Exn e
        | Ok balance_amount =>
            match py_float (row_locked balance) with
            | Exn e => Exn e
            | Ok locked_amount =>
                let total_amount := balance_amount + locked_amount in
                if Qltb 0 total_amount then
                  let ticker := ("KRW-" ++ currency)%string in
                  match get_current_price ticker with
                  | Exn e => Exn e
                  | Ok current_price =>
                      match truthy current_price with
                      | Some current_price =>
                          let market_value := total_amount * current_price in
                          positions_loop get_current_price balances
                            (set_position ticker
                               {| currency := currency;
                                  balance := balance_amount;
                                  locked := locked_amount;
                                  total_amount := total_amount;
                                  current_price := current_price;
                                  market_value := market_value |}
                               positions)
                      | None =>
                          positions_loop get_current_price balances positions
                      end
                  end
                else positions_loop get_current_price balances positions
            end
        end
  end.

(** [get_current_positions]; [get_balances] is what
    [self.upbit.get_balances()] does.  The [except] clause returns the
    empty dictionary. *)
Definition get_current_positions (get_balances : Res (list BalanceRow))
    (get_current_price : string -> Res (option Q))
    : list (string * PositionData) :=
  match get_balances with
  | Exn _ => []
  | Ok balances =>
      match positions_loop get_current_price balances [] with
      | Ok positions => positions
      | Exn _ => []
      end
  end.

(** Lines 174-185: the loop of [get_total_portfolio_value]. *)
Fixpoint portfolio_loop (get_current_price : string -> Res (option Q))
    (balances : list BalanceRow) (total_value : Q) : Res Q :=
  match balances with
  | [] => Ok total_value
  | balance :: balances =>
      let currency := row_currency balance in
      match py_float (row_balance balance) with
      | Exn e => Exn e
      | Ok balance_amount =>
          match py_float (row_locked balance) with
          | Exn e => Exn e
          | Ok locked_amount =>
              let total_amount := balance_amount + locked_amount in
              if String.eqb currency "KRW" then
                portfolio_loop get_current_price balances
                  (total_value + total_amount)
              else if Qltb 0 total_amount then
                let ticker := ("KRW-" ++ currency)%string in
                match get_current_price ticker with
                | Exn e => Exn e
                | Ok current_price =>
                    match truthy current_price with
                    | Some current_price =>
                        portfolio_loop get_current_price balances
                          (total_value + total_amount * current_price)
                    | None =>
                        portfolio_loop get_current_price balances total_value
                    end
                end
              else portfolio_loop get_current_price balances total_value
          end
      end
  end.

(** [get_total_portfolio_value]; the [except] clause returns 0. *)
Definition get_total_portfolio_value (get_balances : Res (list BalanceRow))
    (get_current_price : string -> Res (option Q)) : Q :=
  match get_balances with
  | Exn _ => 0
  | Ok balances =>
      match portfolio_loop get_current_price balances 0 with
      | Ok total_value => total_value
      | Exn _ => 0
      end
  end.

(** An entry of the list [get_current_portfolio_for_notion] builds. *)
Record NotionRow : Type := mkNotionRow {
  nr_ticker : string;
  nr_amount : Q;
  nr_avg_price : Q;
  nr_current_price : Q;
  nr_total_value : Q
}.

(** Lines 483-510: the loop of [get_current_portfolio_for_notion]. *)
Fixpoint notion_loop (get_current_price : string -> Res (option Q))
    (balances : list BalanceRow) (portfolio_data : list NotionRow)
    : Res (list NotionRow) :=
  match balances with
  | [] => Ok portfolio_data
  | balance :: balances =>
      let currency := row_currency balance in
      match py_float (row_balance balance) with
      | Exn e => Exn e
      | Ok balance_amount =>
          match py_float (row_locked balance) with
          | Exn e => Exn e
          | Ok locked_amount =>
              let total_amount := balance_amount + locked_amount in
              if Qle_bool total_amount 0 then
                notion_loop get_current_price balances portfolio_data
              else if String.eqb currency "KRW" then
                notion_loop get_current_price balances
                  (portfolio_data ++
                   [{| nr_ticker := "KRW"; nr_amount := total_amount;
                       nr_avg_price := 1.0; nr_current_price := 1.0;
                       nr_total_value := total_amount |}])
              else
                let ticker := ("KRW-" ++ currency)%string in
                match get_current_price ticker with
                | Exn e => Exn e
                | Ok current_price =>
                    match truthy current_price with
                    | Some current_price =>
                        notion_loop get_current_price balances
                          (portfolio_data ++
                           [{| nr_ticker := ticker;
                               nr_amount := total_amount;
                               nr_avg_price := current_price;
                               nr_current_price := current_price;
                               nr_total_value := total_amount * current_price |}])
                    | None =>
                        notion_loop get_current_price balances portfolio_data
                    end
                end
          end
      end
  end.

(** [get_current_portfolio_for_notion]; the [except] clause returns the
    empty list. *)
Definition get_current_portfolio_for_notion
    (get_balances : Res (list BalanceRow))
    (get_current_price : string -> Res (option Q)) : list NotionRow :=
  match get_balances with
  | Exn _ => []
  | Ok balances =>
      match notion_loop get_current_price balances [] with
      | Ok portfolio_data => portfolio_data
      | Exn _ => []
      end
  end.

(** A candle whose low is not above its high. *)
Definition well_formed (b : Bar) : Prop := low b <= high b.

(** The frame a fetch returns holds well-formed candles. *)
Definition well_formed_fetch (fetch : Fetch) : Prop :=
  match fetch with
  | FetchFrame df => Forall well_formed df
  | _ => True
  end.

(** Three balances: cash, a coin that is held and one that is not. *)
Definition sample_balances : list BalanceRow :=
  [ mkBalanceRow "KRW" (PNum 100000) (PNum 0);
    mkBalanceRow "BTC" (PNum 0.5) (PNum 0.5);
    mkBalanceRow "ETH" (PNum 0) (PNum 0) ].

(** A price lookup that answers 200,000 for every ticker. *)
Definition sample_price (ticker : string) : Res (option Q) := Ok (Some 200000).

(** What [get_current_positions] stores under a ticker: a coin other
    than KRW that is held, at the price the lookup gave for it. *)
Definition held_at (get_current_price : string -> Res (option Q))
    (ticker : string) (p : PositionData) : Prop :=
  ticker = ("KRW-" ++ currency p)%string
  /\ currency p <> "KRW"%string
  /\ 0 < total_amount p
  /\ total_amount p = balance p + locked p
  /\ ~ current_price p == 0
  /\ market_value p = total_amount p * current_price p
  /\ get_current_price ticker = Ok (Some (current_price p)).

(** A row on which the loop of [get_current_positions] raises: an amount
    that [float()] rejects, or a held coin whose price lookup raises. *)
Definition unreadable (get_current_price : string -> Res (option Q))
    (row : BalanceRow) : Prop :=
  row_currency row <> "KRW"%string
  /\ ((exists e, py_float (row_balance row) = Exn e)
      \/ (exists e, py_float (row_locked row) = Exn e)
      \/ (exists b l e,
            py_float (row_balance row) = Ok b
            /\ py_float (row_locked row) = Ok l
            /\ 0 < b + l
            /\ get_current_price ("KRW-" ++ row_currency row)%string = Exn e)).

(** A cash row does not hold a negative amount. *)
Definition cash_not_negative (row : BalanceRow) : Prop :=
  row_currency row = "KRW"%string ->
  forall b l, py_float (row_balance row) = Ok b ->
              py_float (row_locked row) = Ok l -> 0 <= b + l.

(** [n] copies of one candle, for the examples. *)
Definition flat (h l c : Q) (n : nat) : list Bar := replicate n (mkBar h l c).

End ATRRiskManager.

(** ** enhanced_smart_order_executor.py *)

Module EnhancedSmartOrderExecutor.

(** [str.lower()] on ASCII text. *)
Definition lower_ascii (c : ascii) : ascii :=
  let n := nat_of_ascii c in
  if (65 <=? n)%nat && (n <=? 90)%nat then ascii_of_nat (n + 32) else c.

Fixpoint py_lower (s : string) : string :=
  match s with
  | EmptyString => EmptyString
  | String c rest => String (lower_ascii c) (py_lower rest)
  end.

(** What the collaborators answer: the environment variable [TEST_MODE],
    [self.upbit.get_balance], [pyupbit.get_current_price] (a price or
    [None]), the two order calls (a response dictionary or [None]), and
    the text [f"{response}"] puts in an error message. *)
Record Exchange : Type := mkExchange {
  TEST_MODE : option string;
  get_balance : string -> Res (option Q);
  get_current_price : string -> Res (option Q);
  sell_market_order : string -> Q -> Res (option (gmap string PyVal));
  buy_market_order : string -> Q -> Res (option (gmap string PyVal));
  render : option (gmap string PyVal) -> string
}.

(** [os.getenv('TEST_MODE', 'False').lower() in ('true', '1', 't')] *)
Definition is_test_mode (ex : Exchange) : bool :=
  let v := py_lower (default "False"%string (TEST_MODE ex)) in
  String.eqb v "true" || String.eqb v "1" || String.eqb v "t".

(** An order call made on the exchange. *)
Inductive OrderCall : Type :=
| SellMarket (ticker : string) (amount : Q)
| BuyMarket (ticker : string) (krw_amount : Q).

(** The returned dictionary: [{'success': True, 'order': ...,
    'executed_price': ..., 'executed_amount': ...}] or
    [{'success': False, 'error': ...}].  [executed_price] is [None] when
    the price lookup returned [None]. *)
Inductive ExecResult : Type :=
| Success (order : gmap string PyVal) (executed_price : option Q)
    (executed_amount : Q)
| Failure (error : string).

Definition success (r : ExecResult) : bool :=
  match r with
  | Success _ _ _ => true
  | Failure _ => false
  end.

(** [response and 'uuid' in response] *)
Definition has_uuid (response : option (gmap string PyVal))
    : option (gmap string PyVal) :=
  match response with
  | Some r => if r !! "uuid"%string is Some _ then Some r else None
  | None => None
  end.

(** Lines 128-137 of [execute_market_sell]: the amount to sell. *)
Definition sell_amount (ex : Exchange) (ticker : string) (amount : Q) : Res Q :=
  if is_test_mode ex then
    match get_balance ex ticker with
    | Exn e => Exn e
    | Ok None =>
        Exn "'>' not supported between instances of 'NoneType' and 'int'"
    | Ok (Some current_balance) =>
        if Qltb 0 current_balance then
          let test_amount := Qmin (current_balance * 0.05) amount in
          Ok (Qmax test_amount 0.0001)
        else Ok amount
    end
  else Ok amount.

(** [execute_market_sell]: the result and the order calls made. *)
Definition execute_market_sell (ex : Exchange) (ticker : string) (amount : Q)
    : ExecResult * list OrderCall :=
  match sell_amount ex ticker amount with
  | Exn e => (Failure e, [])
  | Ok amount =>
      match get_current_price ex ticker with
      | Exn e => (Failure e, [])
      | Ok current_price =>
          match sell_market_order ex ticker amount with
          | Exn e => (Failure e, [SellMarket ticker amount])
          | Ok response =>
              match has_uuid response with
              | Some order =>
                  (Success order current_price amount,
                   [SellMarket ticker amount])
              | None =>
                  (Failure ("Failed market sell: " ++ render ex response),
                   [SellMarket ticker amount])
              end
          end
      end
  end.

(** [execute_market_buy]: the result and the order calls made. *)
Definition execute_market_buy (ex : Exchange) (ticker : string) (krw_amount : Q)
    : ExecResult * list OrderCall :=
  let krw_amount := if is_test_mode ex then Qmin krw_amount 5500 else krw_amount in
  match get_current_price ex ticker with
  | Exn e => (Failure e, [])
  | Ok current_price =>
      match
        match current_price with
        | Some p => if Qeq_bool p 0 then None else Some p
        | None => None
        end
      with
      | None => (Failure ("Couldn't get current price for " ++ ticker), [])
      | Some current_price =>
          let coin_amount := krw_amount * 0.995 / current_price in
          match buy_market_order ex ticker krw_amount with
          | Exn e => (Failure e, [BuyMarket ticker krw_amount])
          | Ok response =>
              match has_uuid response with
              | Some order =>
                  (Success order (Some current_price) coin_amount,
                   [BuyMarket ticker krw_amount])
              | None =>
                  (Failure ("Failed market buy: " ++ render ex response),
                   [BuyMarket ticker krw_amount])
              end
          end
      end
  end.

(** An exchange in production mode whose price lookup returns [None] and
    which accepts every order. *)
Definition no_price_exchange : Exchange :=
  {| TEST_MODE := None;
     get_balance := fun _ => Ok (Some 1);
     get_current_price := fun _ => Ok None;
     sell_market_order := fun _ _ => Ok (Some {[ "uuid"%string := PStr "abc" ]});
     buy_market_order := fun _ _ => Ok (Some {[ "uuid"%string := PStr "abc" ]});
     render := fun _ => "None"%string |}.

End EnhancedSmartOrderExecutor.

(** ** atr_risk_manager.py: the sale of a position *)

Module RiskOrders.
Import ATRRiskManager EnhancedSmartOrderExecutor.

(** What a call of [execute_risk_order] does: the boolean it returns,
    the order calls made through [self.order_executor], and the P&L of
    the Slack message when one is composed. *)
Record Outcome : Type := mkOutcome {
  returned : bool;
  order_calls : list OrderCall;
  profit_loss : option Q
}.

(** [execute_risk_order(ticker, position_data, order_type, reason)] for
    a position of [get_current_positions], which has no
    ['estimated_entry'] key, so that
    [position_data.get('estimated_entry', current_price)] is the current
    price.  [order_type] goes into messages only.  The notifications and
    the Notion update catch what they raise; a division by zero in the
    P&L is caught by the [except] clause, which returns [False]. *)
Definition execute_risk_order (self : Manager) (ex : Exchange)
    (ticker : string) (position_data : PositionData) (order_type : OrderType)
    : Outcome :=
  let amount := balance position_data in
  let current_price := current_price position_data in
  if Qle_bool amount 0 then mkOutcome false [] None
  else
    let amount := if test_mode self then Qmin amount 0.001 else amount in
    let '(order_result, calls) := execute_market_sell ex ticker amount in
    if success order_result then
      let estimated_entry := current_price in
      if Qeq_bool estimated_entry 0 then mkOutcome false calls None
      else
        let profit_loss :=
          (current_price - estimated_entry) / estimated_entry * 100 in
        mkOutcome true calls (Some profit_loss)
    else mkOutcome false calls None.

(** An exchange in production mode that accepts every order. *)
Definition accepting_exchange : Exchange :=
  {| TEST_MODE := None;
     get_balance := fun _ => Ok (Some 1);
     get_current_price := fun _ => Ok (Some 100);
     sell_market_order := fun _ _ => Ok (Some {[ "uuid"%string := PStr "abc" ]});
     buy_market_order := fun _ _ => Ok (Some {[ "uuid"%string := PStr "abc" ]});
     render := fun _ => "None"%string |}.

End RiskOrders.

(** ** improved_order_manager.py *)

Module ImprovedOrderManager.

(** What a call of [self.upbit.get_order(order_id)] does: raise, or
    return a dictionary or [None]. *)
Inductive Reply : Type :=
| Raise (e : string)
| Return (order : option (gmap string PyVal)).

(** The exchange as the monitor sees it: the answer to the [k]-th call
    of [get_order] (counted from 0) and the time that call takes. *)
Record Exchange : Type := mkExchange {
  get_order : nat -> PyVal -> Reply;
  latency : nat -> Q
}.

(** The messages of [self.logger], one constructor per call site. *)
Inductive LogMsg : Type :=
| MonitoringOrder (order_id : PyVal) (timeout : Q)
| OrderState (order_id : PyVal) (state : PyVal)
| OrderCompleted (order_id : PyVal)
| OrderCancelled (order_id : PyVal)
| PartiallyFilled (order_id : PyVal) (completed_pct : Q)
| ErrorMonitoring (order_id : PyVal) (attempt : nat) (e : string)
| TooManyFailures (failures : nat) (order_id : PyVal)
| TimedOut (order_id : PyVal) (elapsed : Q)
| FinalCheckCompleted (order_id : PyVal)
| FinalState (order_id : PyVal) (state : PyVal)
| FinalCheckFailed (order_id : PyVal) (e : string)
| WaitingForOrders (order_count : nat) (timeout : Q)
| MonitoringBatchOrder (i order_count : nat) (order_id : PyVal)
    (remaining_timeout : Q)
| BatchCompletion (elapsed : Q) (completed order_count cancelled
    timeout_count : nat).

(** A log record carries the time of its creation. *)
Record LogRecord : Type := mkRecord {
  created : Q;
  message : LogMsg
}.

(** The state the manager runs in: the clock read by [time.time()], the
    number of [get_order] calls made, the log (oldest first) and the two
    dictionaries of the instance. *)
Record World : Type := mkWorld {
  now : Q;
  polls : nat;
  log : list LogRecord;
  pending_orders : list (PyVal * gmap string PyVal);
  completed_orders : list (PyVal * gmap string PyVal)
}.

(** [self.order_timeout] *)
Definition order_timeout : Q := 60.

(** [self.logger.info / warning / error] *)
Definition logger (m : LogMsg) (w : World) : World :=
  {| now := now w; polls := polls w;
     log := log w ++ [mkRecord (now w) m];
     pending_orders := pending_orders w;
     completed_orders := completed_orders w |}.

Definition advance (d : Q) (w : World) : World :=
  {| now := now w + d; polls := polls w; log := log w;
     pending_orders := pending_orders w;
     completed_orders := completed_orders w |}.

(** [time.sleep(d)], which raises on a negative length. *)
Definition time_sleep (d : Q) (w : World) : Res World :=
  if Qltb d 0 then Exn "sleep length must be non-negative"
  else Ok (advance d w).

(** [self.upbit.get_order(order_id)] *)
Definition upbit_get_order (ex : Exchange) (order_id : PyVal) (w : World)
    : Reply * World :=
  (get_order ex (polls w) order_id,
   {| now := now w + latency ex (polls w); polls := S (polls w);
      log := log w;
      pending_orders := pending_orders w;
      completed_orders := completed_orders w |}).

(** Lines 49-51. *)
Definition record_completed (order_id : PyVal) (order : gmap string PyVal)
    (w : World) : World :=
  {| now := now w; polls := polls w; log := log w;
     pending_orders :=
       if dict_mem order_id (pending_orders w)
       then dict_del order_id (pending_orders w)
       else pending_orders w;
     completed_orders := dict_set order_id order (completed_orders w) |}.

(** The local variables of [monitor_order] that the loop updates. *)
Record Locals : Type := mkLocals {
  consecutive_failures : nat;
  last_order_state : option PyVal;
  retry_delay : Q
}.

Definition max_failures : nat := 5.

(** How one pass of the loop body ends: it falls through to the next
    test of the loop condition, or it leaves [monitor_order] with a
    returned dictionary or an exception that nothing catches. *)
Inductive Step : Type :=
| Continue (st : Locals) (w : World)
| Exit (result : Res (gmap string PyVal)) (w : World).

Definition error_result (order_id : PyVal) (e : string) : gmap string PyVal :=
  <["state"%string := PStr "error"]>
    (<["uuid"%string := order_id]> (<["error"%string := PStr e]> ∅)).

Definition timeout_result (order_id : PyVal) (elapsed : Q) : gmap string PyVal :=
  <["state"%string := PStr "timeout"]>
    (<["uuid"%string := order_id]>
       (<["elapsed_seconds"%string := PNum elapsed]> ∅)).

(** [min(check_interval * (2 ** consecutive_failures), 5)] *)
Definition backoff (check_interval : Q) (consecutive_failures : nat) : Q :=
  Qmin (check_interval * inject_Z (2 ^ Z.of_nat consecutive_failures)) 5.

(** Lines 73-85: the [except Exception as e] clause. *)
Definition on_exception (order_id : PyVal) (check_interval : Q) (e : string)
    (st : Locals) (w : World) : Step :=
  let consecutive_failures := S (consecutive_failures st) in
  let retry_delay := backoff check_interval consecutive_failures in
  let st := {| consecutive_failures := consecutive_failures;
               last_order_state := last_order_state st;
               retry_delay := retry_delay |} in
  let w := logger (ErrorMonitoring order_id consecutive_failures e) w in
  if (max_failures <=? consecutive_failures)%nat then
    let w := logger (TooManyFailures consecutive_failures order_id) w in
    Exit (Ok (error_result order_id e)) w
  else
    match time_sleep retry_delay w with
    | Exn e' => Exit (Exn e') w
    | Ok w => Continue st w
    end.

(** Lines 42-45: remember and log a state that differs from the last. *)
Definition cache_state (order_id : PyVal) (order : option (gmap string PyVal))
    (st : Locals) (w : World) : Locals * World :=
  match order with
  | Some d =>
      match d !! "state"%string with
      | Some s =>
          let same :=
            match last_order_state st with
            | Some l => pyval_eqb s l
            | None => false
            end in
          if same then (st, w)
          else ({| consecutive_failures := consecutive_failures st;
                   last_order_state := Some s;
                   retry_delay := retry_delay st |},
                logger (OrderState order_id s) w)
      | None => (st, w)
      end
  | None => (st, w)
  end.

(** [order['state']] *)
Definition subscript_state (order : option (gmap string PyVal))
    : Res (gmap string PyVal * PyVal) :=
  match order with
  | None => Exn "'NoneType' object is not subscriptable"
  | Some d =>
      match d !! "state"%string with
      | Some s => Ok (d, s)
      | None => Exn "'state'"
      end
  end.

(** Lines 59-65: the progress report of a waiting order. *)
Definition report_progress (order_id : PyVal) (d : gmap string PyVal)
    (w : World) : Res World :=
  match d !! "volume"%string, d !! "remaining_volume"%string with
  | Some v, Some r =>
      match py_float v with
      | Exn e => Exn e
      | Ok volume =>
          match py_float r with
          | Exn e => Exn e
          | Ok remaining =>
              if Qltb 0 volume && Qltb remaining volume
              then Ok (logger (PartiallyFilled order_id
                                 ((volume - remaining) / volume * 100)) w)
              else Ok w
          end
      end
  | _, _ => Ok w
  end.

(** Lines 37-85: one pass of the loop body. *)
Definition poll_once (ex : Exchange) (order_id : PyVal) (check_interval : Q)
    (st : Locals) (w : World) : Step :=
  let '(reply, w) := upbit_get_order ex order_id w in
  match reply with
  | Raise e => on_exception order_id check_interval e st w
  | Return order =>
      let st := {| consecutive_failures := 0;
                   last_order_state := last_order_state st;
                   retry_delay := retry_delay st |} in
      let '(st, w) := cache_state order_id order st w in
      match subscript_state order with
      | Exn e => on_exception order_id check_interval e st w
      | Ok (d, s) =>
          if pyval_eqb s (PStr "done") then
            let w := logger (OrderCompleted order_id) w in
            Exit (Ok d) (record_completed order_id d w)
          else if pyval_eqb s (PStr "cancel") then
            Exit (Ok d) (logger (OrderCancelled order_id) w)
          else
            match
              if pyval_eqb s (PStr "wait")
              then report_progress order_id d w
              else Ok w
            with
            | Exn e => on_exception order_id check_interval e st w
            | Ok w =>
                let st := {| consecutive_failures := consecutive_failures st;
                             last_order_state := last_order_state st;
                             retry_delay := check_interval |} in
                match time_sleep (retry_delay st) w with
                | Exn e => on_exception order_id check_interval e st w
                | Ok w => Continue st w
                end
            end
      end
  end.

(** How the [while] loop ends: [monitor_order] has returned or raised
    inside it, or the loop condition has become false. *)
Inductive LoopEnd : Type :=
| Returned (result : Res (gmap string PyVal)) (w : World)
| Deadline (st : Locals) (w : World).

(** [while time.time() - start_time < timeout: ...]; [None] when [fuel]
    passes of the body were not enough. *)
Fixpoint poll_loop (fuel : nat) (ex : Exchange) (order_id : PyVal)
    (timeout check_interval start_time : Q) (st : Locals) (w : World)
    : option LoopEnd :=
  if Qltb (now w - start_time) timeout then
    match fuel with
    | O => None
    | S fuel =>
        match poll_once ex order_id check_interval st w with
        | Exit result w => Some (Returned result w)
        | Continue st w =>
            poll_loop fuel ex order_id timeout check_interval start_time st w
        end
    end
  else Some (Deadline st w).

(** Lines 87-103: what follows the loop. *)
Definition final_status_check (ex : Exchange) (order_id : PyVal)
    (start_time : Q) (w : World) : gmap string PyVal * World :=
  let elapsed := now w - start_time in
  let w := logger (TimedOut order_id elapsed) w in
  let '(reply, w) := upbit_get_order ex order_id w in
  match reply with
  | Raise e =>
      (timeout_result order_id elapsed, logger (FinalCheckFailed order_id e) w)
  | Return None => (timeout_result order_id elapsed, w)
  | Return (Some final_check) =>
      if (size final_check =? 0)%nat then (timeout_result order_id elapsed, w)
      else
        match final_check !! "state"%string with
        | None =>
            (timeout_result order_id elapsed,
             logger (FinalCheckFailed order_id "'state'") w)
        | Some s =>
            if pyval_eqb s (PStr "done")
            then (final_check, logger (FinalCheckCompleted order_id) w)
            else (final_check, logger (FinalState order_id s) w)
        end
  end.

(** [timeout or self.order_timeout] *)
Definition effective_timeout (timeout : option Q) : Q :=
  match timeout with
  | Some t => if Qeq_bool t 0 then order_timeout else t
  | None => order_timeout
  end.

Definition initial_locals (check_interval : Q) : Locals :=
  {| consecutive_failures := 0;
     last_order_state := None;
     retry_delay := check_interval |}.

(** [monitor_order(order_id, timeout, check_interval)]; the defaults of
    the two optional arguments are [None] and [0.5]. *)
Definition monitor_order (fuel : nat) (ex : Exchange) (order_id : PyVal)
    (timeout : option Q) (check_interval : Q) (w : World)
    : option (Res (gmap string PyVal) * World) :=
  let timeout := effective_timeout timeout in
  let start_time := now w in
  let w := logger (MonitoringOrder order_id timeout) w in
  match poll_loop fuel ex order_id timeout check_interval start_time
          (initial_locals check_interval) w with
  | None => None
  | Some (Returned result w) => Some (result, w)
  | Some (Deadline _ w) =>
      let '(result, w) := final_status_check ex order_id start_time w in
      Some (Ok result, w)
  end.

(** [len([r for r in results.values() if r.get('state') == state])] *)
Definition count_state (state : string)
    (results : list (PyVal * gmap string PyVal)) : nat :=
  length (List.filter
            (fun kv : PyVal * gmap string PyVal =>
               match kv.2 !! "state"%string with
               | Some s => pyval_eqb s (PStr state)
               | None => false
               end) results).

(** Lines 113-122: the [for i, order in enumerate(orders, 1)] loop. *)
Fixpoint wait_loop (fuel : nat) (ex : Exchange) (timeout start_time : Q)
    (order_count i : nat) (orders : list (gmap string PyVal))
    (results : list (PyVal * gmap string PyVal)) (w : World)
    : option (Res (list (PyVal * gmap string PyVal)) * World) :=
  match orders with
  | [] => Some (Ok results, w)
  | order :: orders =>
      match order !! "uuid"%string with
      | None =>
          wait_loop fuel ex timeout start_time order_count (S i) orders results w
      | Some order_id =>
          let elapsed := now w - start_time in
          let remaining_timeout := Qmax 1 (timeout - elapsed) in
          let w := logger (MonitoringBatchOrder i order_count order_id
                             remaining_timeout) w in
          match monitor_order fuel ex order_id (Some remaining_timeout) 0.5 w with
          | None => None
          | Some (Exn e, w) => Some (Exn e, w)
          | Some (Ok result, w) =>
              wait_loop fuel ex timeout start_time order_count (S i) orders
                (dict_set order_id result results) w
          end
      end
  end.

(** [wait_for_orders_completion(orders, timeout)]; the default of
    [timeout] is 60.  [fuel] bounds the passes of each monitoring loop. *)
Definition wait_for_orders_completion (fuel : nat) (ex : Exchange)
    (orders : list (gmap string PyVal)) (timeout : Q) (w : World)
    : option (Res (list (PyVal * gmap string PyVal)) * World) :=
  let order_count := length orders in
  let w := logger (WaitingForOrders order_count timeout) w in
  let start_time := now w in
  match wait_loop fuel ex timeout start_time order_count 1 orders [] w with
  | None => None
  | Some (Exn e, w) => Some (Exn e, w)
  | Some (Ok results, w) =>
      let completed := count_state "done" results in
      let cancelled := count_state "cancel" results in
      let timeout_count := count_state "timeout" results in
      let elapsed := now w - start_time in
      let w := logger (BatchCompletion elapsed completed order_count
                         cancelled timeout_count) w in
      Some (Ok results, w)
  end.

(** The "Monitoring order i/n" records of a log: when each was created,
    for which order, and the timeout it announces. *)
Definition batch_records (l : list LogRecord) : list (Q * PyVal * Q) :=
  omap (fun r => match message r with
                 | MonitoringBatchOrder _ _ order_id remaining =>
                     Some (created r, order_id, remaining)
                 | _ => None
                 end) l.

(** The "Monitoring order ... (timeout: ...)" records of a log: the
    calls of [monitor_order] and the timeout each one runs with. *)
Definition monitor_records (l : list LogRecord) : list (PyVal * Q) :=
  omap (fun r => match message r with
                 | MonitoringOrder order_id timeout => Some (order_id, timeout)
                 | _ => None
                 end) l.

(** Between [w] and [w'] no batch announcement and no call of
    [monitor_order] was logged. *)
Definition same_starts (w w' : World) : Prop :=
  batch_records (log w') = batch_records (log w)
  /\ monitor_records (log w') = monitor_records (log w).

(** The order ids of a batch, in order: [order['uuid']] of every order
    that has one. *)
Definition uuids (orders : list (gmap string PyVal)) : list PyVal :=
  omap (fun order : gmap string PyVal => order !! "uuid"%string) orders.

(** A fresh manager at time 0. *)
Definition boot : World :=
  {| now := 0; polls := 0; log := [];
     pending_orders := []; completed_orders := [] |}.

(** An order that stays open. *)
Definition open_order (order_id : PyVal) : gmap string PyVal :=
  <["state"%string := PStr "wait"]> (<["uuid"%string := order_id]> ∅).

(** Clients of the specification's test scenarios: one that always
    answers [wait], one that always raises; calls take no time. *)
Definition always_wait : Exchange :=
  {| get_order := fun _ order_id => Return (Some (open_order order_id));
     latency := fun _ => 0 |}.

(** A batch of three open orders. *)
Definition three_orders : list (gmap string PyVal) :=
  [open_order (PStr "o1"); open_order (PStr "o2"); open_order (PStr "o3")].

Definition always_error : Exchange :=
  {| get_order := fun _ _ => Raise "connection reset";
     latency := fun _ => 0 |}.

(** An order the loop keeps polling: it has a state that is neither
    [done] nor [cancel], and its volume fields, when present, are
    numbers. *)
Definition still_open (d : gmap string PyVal) : Prop :=
  (exists s, d !! "state"%string = Some s
             /\ pyval_eqb s (PStr "done") = false
             /\ pyval_eqb s (PStr "cancel") = false)
  /\ (forall v, d !! "volume"%string = Some v -> exists q, v = PNum q)
  /\ (forall v, d !! "remaining_volume"%string = Some v -> exists q, v = PNum q).

(** What [self.upbit.cancel_order(order_id)] does at the [k]-th attempt
    of one [cancel_order] run, and the time that attempt takes. *)
Record CancelApi : Type := mkCancelApi {
  cancel_call : nat -> PyVal -> Res unit;
  cancel_latency : nat -> Q
}.

(** The messages logged by [cancel_order] and [get_order_status]; the
    two functions hand them back beside their result. *)
Inductive RetryMsg : Type :=
| Cancelled (order_id : PyVal)
| ErrorCancelling (order_id : PyVal) (attempt max_retries : nat) (e : string)
| FailedToCancel (order_id : PyVal) (max_retries : nat)
| ErrorGettingStatus (order_id : PyVal) (attempt max_retries : nat) (e : string)
| FailedToGetStatus (order_id : PyVal).

(** The [for attempt in range(max_retries)] loop of [cancel_order], from
    [attempt] on with [remaining] attempts left. *)
Fixpoint cancel_attempts (api : CancelApi) (order_id : PyVal)
    (max_retries remaining attempt : nat) (w : World) (msgs : list RetryMsg)
    : bool * World * list RetryMsg :=
  match remaining with
  | O => (false, w, msgs ++ [FailedToCancel order_id max_retries])
  | S remaining =>
      let w := advance (cancel_latency api attempt) w in
      match cancel_call api attempt order_id with
      | Ok _ => (true, w, msgs ++ [Cancelled order_id])
      | Exn e =>
          let msgs :=
            msgs ++ [ErrorCancelling order_id (attempt + 1) max_retries e] in
          let w := if (attempt <? max_retries - 1)%nat then advance 1 w else w in
          cancel_attempts api order_id max_retries remaining (S attempt) w msgs
      end
  end.

(** [cancel_order(order_id)] *)
Definition cancel_order (api : CancelApi) (order_id : PyVal) (w : World)
    : bool * World * list RetryMsg :=
  let max_retries := 3%nat in
  cancel_attempts api order_id max_retries max_retries 0 w [].

Definition unknown_result (order_id : PyVal) : gmap string PyVal :=
  <["state"%string := PStr "unknown"]> (<["uuid"%string := order_id]> ∅).

(** The [for attempt in range(max_retries)] loop of [get_order_status]. *)
Fixpoint status_attempts (ex : Exchange) (order_id : PyVal)
    (max_retries remaining attempt : nat) (w : World) (msgs : list RetryMsg)
    : option (gmap string PyVal) * World * list RetryMsg :=
  match remaining with
  | O => (Some (unknown_result order_id), w,
          msgs ++ [FailedToGetStatus order_id])
  | S remaining =>
      let '(reply, w) := upbit_get_order ex order_id w in
      match reply with
      | Return order => (order, w, msgs)
      | Raise e =>
          let msgs :=
            msgs ++ [ErrorGettingStatus order_id (attempt + 1) max_retries e] in
          let w := if (attempt <? max_retries - 1)%nat then advance 1 w else w in
          status_attempts ex order_id max_retries remaining (S attempt) w msgs
      end
  end.

(** [get_order_status(order_id)]; [None] is Python's [None], handed back
    when the exchange returns it. *)
Definition get_order_status (ex : Exchange) (order_id : PyVal) (w : World)
    : option (gmap string PyVal) * World * list RetryMsg :=
  let max_retries := 3%nat in
  status_attempts ex order_id max_retries max_retries 0 w [].

(** A filled order. *)
Definition filled_order (order_id : PyVal) : gmap string PyVal :=
  <["state"%string := PStr "done"]> (<["uuid"%string := order_id]> ∅).

(** The client of the specification's first test scenario: [wait] twice,
    then [done]; a call takes a tenth of a second. *)
Definition wait_twice_then_done : Exchange :=
  {| get_order := fun k order_id =>
       Return (Some (if (k <? 2)%nat then open_order order_id
                     else filled_order order_id));
     latency := fun _ => 0.1 |}.

(** A client that reports every order filled; a call takes a tenth of a
    second. *)
Definition filled_at_once : Exchange :=
  {| get_order := fun _ order_id => Return (Some (filled_order order_id));
     latency := fun _ => 0.1 |}.

(** The time the first [n] calls of an API take. *)
Definition total_latency (latency : nat -> Q) (n : nat) : Q :=
  py_sum (latency <$> seq 0 n).

End ImprovedOrderManager.

(* ================================================================== *)
(** * Theorems *)

(** ** Arithmetic on floats as rationals *)

Section Rationals.

Lemma Qltb_lt (a b : Q) : Qltb a b = true <-> a < b.
Proof.
  unfold Qltb. rewrite negb_true_iff, <- not_true_iff_false, Qle_bool_iff.
  split; [apply Qnot_le_lt | apply Qlt_not_le].
Qed.

Lemma Qltb_ge (a b : Q) : Qltb a b = false <-> b <= a.
Proof.
  unfold Qltb. rewrite negb_false_iff. apply Qle_bool_iff.
Qed.

Lemma fold_left_Qplus (l : list Q) (a : Q) :
  fold_left Qplus l a == a + py_sum l.
Proof.
  unfold py_sum. revert a. induction l as [|x l IH]; intros a; simpl.
  - lra.
  - rewrite (IH (a + x)), (IH (0 + x)). lra.
Qed.

Lemma py_sum_cons (x : Q) (l : list Q) : py_sum (x :: l) == x + py_sum l.
Proof. unfold py_sum at 1. simpl. rewrite fold_left_Qplus. lra. Qed.

Lemma py_sum_app (l1 l2 : list Q) : py_sum (l1 ++ l2) == py_sum l1 + py_sum l2.
Proof.
  induction l1 as [|x l1 IH]; simpl.
  - unfold py_sum at 2. simpl. lra.
  - rewrite !py_sum_cons, IH. lra.
Qed.

Lemma py_sum_perm (l1 l2 : list Q) : l1 ≡ₚ l2 -> py_sum l1 == py_sum l2.
Proof.
  induction 1 as [|x l1 l2 _ IH|x y l|l1 l2 l3 _ IH1 _ IH2].
  - reflexivity.
  - rewrite !py_sum_cons, IH. reflexivity.
  - rewrite !py_sum_cons. lra.
  - rewrite IH1. exact IH2.
Qed.

Lemma py_sum_scale {A} (c : Q) (g : A -> Q) (l : list A) :
  py_sum ((fun x => c * g x) <$> l) == c * py_sum (g <$> l).
Proof.
  induction l as [|x l IH].
  - change (0 == c * 0). ring.
  - rewrite !fmap_cons, !py_sum_cons, IH. ring.
Qed.

Lemma py_sum_const {A} (c : Q) (l : list A) :
  py_sum ((fun _ => c) <$> l) == py_len l * c.
Proof.
  unfold py_len. induction l as [|x l IH].
  - change (0 == 0 * c). ring.
  - rewrite fmap_cons, py_sum_cons, IH. cbn [length].
    rewrite Nat2Z.inj_succ, <- Z.add_1_r, inject_Z_plus. ring.
Qed.

Lemma py_sum_nonneg (l : list Q) : Forall (fun x => 0 <= x) l -> 0 <= py_sum l.
Proof.
  induction 1 as [|x l Hx _ IH].
  - unfold py_sum. simpl. lra.
  - rewrite py_sum_cons. lra.
Qed.

Lemma py_len_pos {A} (l : list A) : l <> [] -> 0 < py_len l.
Proof.
  intros Hl. unfold py_len. destruct l as [|x l]; [done|].
  change 0 with (inject_Z 0). rewrite <- Zlt_Qlt. simpl length. lia.
Qed.

Lemma Qdiv_nonneg (a b : Q) : 0 <= a -> 0 < b -> 0 <= a / b.
Proof.
  intros Ha Hb. apply Qle_shift_div_l; [exact Hb|]. lra.
Qed.

End Rationals.

(** ** The capital allocator *)

Section Allocation.
Import CapitalAllocator.
Implicit Types (m : gmap (option string) Q) (s : Signal) (self : Allocator).

Lemma py_sum_scale_r {A} (c : Q) (g : A -> Q) (l : list A) :
  py_sum ((fun x => g x / c) <$> l) == py_sum (g <$> l) / c.
Proof.
  induction l as [|x l IH].
  - change (0 == 0 / c). unfold Qdiv. ring.
  - rewrite !fmap_cons, !py_sum_cons, IH. unfold Qdiv. ring.
Qed.

Lemma total_allocated_empty : total_allocated ∅ = 0.
Proof. unfold total_allocated. rewrite map_to_list_empty. reflexivity. Qed.

Lemma total_allocated_insert_fresh m k v :
  m !! k = None -> total_allocated (<[k:=v]> m) == v + total_allocated m.
Proof.
  intros Hk. unfold total_allocated.
  rewrite (py_sum_perm _ (((k, v) :: map_to_list m).*2)).
  - rewrite fmap_cons. apply py_sum_cons.
  - apply fmap_Permutation. by apply map_to_list_insert.
Qed.

Lemma total_allocated_insert_le m k v :
  map_Forall (fun _ x => 0 <= x) m ->
  total_allocated (<[k:=v]> m) <= v + total_allocated m.
Proof.
  intros Hm. destruct (m !! k) as [old|] eqn:Hk.
  - pose proof (Hm k old Hk) as Hold. cbn beta in Hold.
    rewrite <- (insert_delete_eq m k v).
    rewrite (total_allocated_insert_fresh (delete k m) k v)
      by apply lookup_delete_eq.
    rewrite <- (insert_delete_id m k old Hk) at 2.
    rewrite (total_allocated_insert_fresh (delete k m) k old)
      by apply lookup_delete_eq.
    lra.
  - rewrite total_allocated_insert_fresh by done. lra.
Qed.

Lemma allocate_loop_cons self amount s signals m :
  allocate_loop self amount (s :: signals) m =
  allocate_loop self amount signals
    (if Qle_bool (min_order_size self) (amount s)
     then <[signal_key s := amount s]> m else m).
Proof. reflexivity. Qed.

(** Every amount stored by a loop reaches the minimum order size. *)
Lemma allocate_loop_min self amount signals m :
  map_Forall (fun _ x => min_order_size self <= x) m ->
  map_Forall (fun _ x => min_order_size self <= x)
    (allocate_loop self amount signals m).
Proof.
  revert m. induction signals as [|s signals IH]; intros m Hm; [done|].
  rewrite allocate_loop_cons. apply IH.
  destruct (Qle_bool _ _) eqn:Hle; [|done].
  apply map_Forall_insert_2; [|done]. by apply Qle_bool_iff.
Qed.

(** A loop never spends more than the amounts it visits. *)
Lemma allocate_loop_total self amount signals m :
  0 <= min_order_size self ->
  map_Forall (fun _ x => min_order_size self <= x) m ->
  Forall (fun s => 0 <= amount s) signals ->
  total_allocated (allocate_loop self amount signals m)
  <= total_allocated m + py_sum (amount <$> signals).
Proof.
  intros Hmin. revert m.
  induction signals as [|s signals IH]; intros m Hm Hpos.
  - change (total_allocated m <= total_allocated m + 0). lra.
  - apply Forall_cons in Hpos as [Hs Hpos].
    rewrite allocate_loop_cons, fmap_cons, py_sum_cons.
    destruct (Qle_bool _ _) eqn:Hle.
    + eapply Qle_trans.
      * apply IH; [|done].
        apply map_Forall_insert_2; [|done]. by apply Qle_bool_iff.
      * assert (total_allocated (<[signal_key s := amount s]> m)
                <= amount s + total_allocated m) as Hins.
        { apply total_allocated_insert_le.
          intros k x Hk. pose proof (Hm k x Hk) as Hx. cbn beta in Hx. lra. }
        lra.
    + eapply Qle_trans; [apply IH; done|]. lra.
Qed.

Lemma allocate_loop_nonempty self amount signals m :
  m <> ∅ -> allocate_loop self amount signals m <> ∅.
Proof.
  revert m. induction signals as [|s signals IH]; intros m Hm; [done|].
  rewrite allocate_loop_cons. apply IH.
  destruct (Qle_bool _ _); [apply insert_non_empty | done].
Qed.

(** A loop that leaves the mapping empty dropped every amount. *)
Lemma allocate_loop_empty self amount signals m :
  allocate_loop self amount signals m = ∅ ->
  m = ∅ /\ Forall (fun s => amount s < min_order_size self) signals.
Proof.
  revert m. induction signals as [|s signals IH]; intros m Hm.
  - split; [exact Hm | constructor].
  - rewrite allocate_loop_cons in Hm.
    destruct (Qle_bool _ _) eqn:Hle.
    + exfalso. revert Hm. apply allocate_loop_nonempty, insert_non_empty.
    + destruct (IH _ Hm) as [-> Hall]. split; [done|].
      constructor; [|done].
      apply Qltb_lt. unfold Qltb. by rewrite Hle.
Qed.

Lemma momentum_weight_nonneg momentum s :
  momentum <> [] -> 0 <= score s -> 0 <= momentum_weight momentum s.
Proof.
  intros Hne Hs. unfold momentum_weight.
  destruct (Qltb 0 (total_score momentum)) eqn:Ht.
  - apply Qdiv_nonneg; [done | by apply Qltb_lt].
  - apply Qdiv_nonneg; [lra | by apply py_len_pos].
Qed.

(** The weights of a non-empty momentum group add up to one, so its
    candidate amounts add up to the group's capital. *)
Lemma momentum_allocation_sum momentum_capital momentum :
  momentum <> [] ->
  py_sum (momentum_allocation momentum_capital momentum <$> momentum)
  == momentum_capital.
Proof.
  intros Hne. unfold momentum_allocation, momentum_weight.
  destruct (Qltb 0 (total_score momentum)) eqn:Ht.
  - apply Qltb_lt in Ht.
    rewrite (py_sum_scale momentum_capital
               (fun s => score s / total_score momentum)).
    rewrite (py_sum_scale_r (total_score momentum) score).
    fold (total_score momentum). field. lra.
  - rewrite (py_sum_const (momentum_capital * (1 / py_len momentum))).
    pose proof (py_len_pos momentum Hne). field. lra.
Qed.

Lemma equal_allocation_sum regular_capital regular :
  regular <> [] ->
  py_sum ((fun _ => equal_allocation regular_capital regular) <$> regular)
  == regular_capital.
Proof.
  intros Hne. rewrite py_sum_const. unfold equal_allocation.
  pose proof (py_len_pos regular Hne). field. lra.
Qed.

Lemma allocate_group_min self capital amount signals m :
  map_Forall (fun _ x => min_order_size self <= x) m ->
  map_Forall (fun _ x => min_order_size self <= x)
    (allocate_group self capital amount signals m).
Proof.
  intros Hm. unfold allocate_group.
  destruct signals; [done|]. destruct (Qltb 0 capital); [|done].
  by apply allocate_loop_min.
Qed.

Lemma allocate_group_total self capital amount signals m :
  0 <= min_order_size self ->
  0 <= capital ->
  map_Forall (fun _ x => min_order_size self <= x) m ->
  Forall (fun s => 0 <= amount s) signals ->
  (signals <> [] -> py_sum (amount <$> signals) == capital) ->
  total_allocated (allocate_group self capital amount signals m)
  <= total_allocated m + capital.
Proof.
  intros Hmin Hcap Hm Hpos Hsum. unfold allocate_group.
  destruct signals as [|s signals]; [lra|].
  destruct (Qltb 0 capital); [|lra].
  rewrite <- Hsum by done. by apply allocate_loop_total.
Qed.

Lemma allocate_group_empty self capital amount signals m :
  0 < min_order_size self ->
  (capital <= 0 -> Forall (fun s => amount s <= 0) signals) ->
  allocate_group self capital amount signals m = ∅ ->
  m = ∅ /\ Forall (fun s => amount s < min_order_size self) signals.
Proof.
  intros Hmin Hnone. unfold allocate_group.
  destruct signals as [|s signals]; [intros ->; by split|].
  destruct (Qltb 0 capital) eqn:Hcap.
  - apply allocate_loop_empty.
  - intros ->. split; [done|]. apply Qltb_ge in Hcap.
    eapply Forall_impl; [exact (Hnone Hcap)|]. cbn beta. intros x Hx. lra.
Qed.

Lemma capital_split_bounds self tradeable momentum regular :
  0 <= tradeable ->
  0 <= momentum_capital_ratio self <= 1 ->
  let split := capital_split self tradeable momentum regular in
  0 <= split.1 /\ 0 <= split.2 /\ split.1 + split.2 <= tradeable.
Proof.
  intros Ht [Hr0 Hr1]. unfold capital_split.
  destruct momentum, regular; cbn [fst snd]; repeat split; try lra;
    try (apply Qmult_le_0_compat; lra).
Qed.

Lemma Forall_list_filter {A} (P : A -> Prop) (f : A -> bool) (l : list A) :
  Forall P l -> Forall P (List.filter f l).
Proof.
  rewrite !List.Forall_forall. intros H x Hx.
  apply H. by apply List.filter_In in Hx as [Hx _].
Qed.

Lemma momentum_amounts_nonneg momentum_capital momentum :
  0 <= momentum_capital ->
  Forall (fun s => 0 <= score s) momentum ->
  Forall (fun s => 0 <= momentum_allocation momentum_capital momentum s)
    momentum.
Proof.
  intros Hc Hs. destruct momentum as [|s0 rest]; [constructor|].
  eapply Forall_impl; [exact Hs|]. cbn beta. intros s Hscore.
  apply Qmult_le_0_compat; [done|]. by apply momentum_weight_nonneg.
Qed.

Lemma equal_amounts_nonneg regular_capital regular :
  0 <= regular_capital ->
  Forall (fun _ : Signal => 0 <= equal_allocation regular_capital regular)
    regular.
Proof.
  intros Hc. destruct regular as [|s0 rest]; [constructor|].
  apply Forall_forall. intros _ _.
  apply Qdiv_nonneg; [done | by apply py_len_pos].
Qed.

(** In exact arithmetic, for a non-negative budget and non-negative
    momentum scores, the amounts returned add up to at most
    [budget * 0.98], each returned amount is at least 5,000, the returned
    mapping is empty only when every slice the loops compare with the
    minimum is below 5,000, and an empty signal list gives the empty
    mapping. *)
Lemma allocation_bounds_exact (available_krw : Q) (buy_signals : list Signal) :
  0 <= available_krw ->
  Forall (fun s => 0 <= score s) buy_signals ->
  total_allocated (allocate_capital_dynamically init available_krw buy_signals)
    <= available_krw * 0.98
  /\ map_Forall (fun _ amount => 5000 <= amount)
       (allocate_capital_dynamically init available_krw buy_signals)
  /\ (allocate_capital_dynamically init available_krw buy_signals = ∅ ->
      Forall (fun slice => slice < 5000)
        (candidate_slices init available_krw buy_signals))
  /\ allocate_capital_dynamically init available_krw [] = ∅.
Proof.
  intros Hbudget Hscores.
  assert (0 <= tradeable_capital init available_krw) as Htrade.
  { unfold tradeable_capital. cbn [reserve_ratio init]. lra. }
  assert (tradeable_capital init available_krw == available_krw * 0.98)
    as Htrade_eq.
  { unfold tradeable_capital. cbn [reserve_ratio init]. lra. }
  destruct buy_signals as [|s0 rest].
  { repeat split.
    - cbn [allocate_capital_dynamically]. rewrite total_allocated_empty. lra.
    - apply map_Forall_empty.
    - intros _. constructor. }
  set (l := s0 :: rest) in *.
  pose proof (Forall_list_filter _ is_momentum l Hscores) as Hmom.
  fold (momentum_signals l) in Hmom.
  unfold allocate_capital_dynamically, candidate_slices.
  change (match l with [] => ?a | _ :: _ => ?b end) with b.
  pose proof (capital_split_bounds init (tradeable_capital init available_krw)
                (momentum_signals l) (regular_signals l) Htrade) as Hsplit.
  destruct (capital_split init (tradeable_capital init available_krw)
              (momentum_signals l) (regular_signals l))
    as [momentum_capital regular_capital].
  destruct Hsplit as (Hmc & Hrc & Hsum);
    [cbn [momentum_capital_ratio init]; lra|].
  cbn [fst snd] in Hmc, Hrc, Hsum.
  set (first := allocate_group init momentum_capital
                  (momentum_allocation momentum_capital (momentum_signals l))
                  (momentum_signals l) ∅).
  assert (map_Forall (fun _ x => min_order_size init <= x) first) as Hfirst.
  { apply allocate_group_min, map_Forall_empty. }
  assert (0 <= min_order_size init) as Hmin0 by (cbn; lra).
  assert (0 < min_order_size init) as Hmin by (cbn; lra).
  repeat split.
  - eapply Qle_trans.
    { apply allocate_group_total; [done | done | done | |].
      - by apply equal_amounts_nonneg.
      - apply equal_allocation_sum. }
    assert (total_allocated first <= total_allocated ∅ + momentum_capital)
      as H1.
    { apply allocate_group_total; [done | done | apply map_Forall_empty | |].
      - by apply momentum_amounts_nonneg.
      - apply momentum_allocation_sum. }
    rewrite total_allocated_empty in H1. lra.
  - by apply allocate_group_min.
  - intros Hempty.
    apply allocate_group_empty in Hempty as [Hfirst_empty Hreg]; [|done|].
    + apply allocate_group_empty in Hfirst_empty as [_ Hmomentum]; [|done|].
      * apply Forall_app. split; by apply Forall_fmap.
      * intros Hle. assert (momentum_capital == 0) as Hzero by lra.
        eapply Forall_impl;
          [exact (momentum_amounts_nonneg 0 (momentum_signals l)
                    (Qle_refl 0) Hmom)|].
        cbn beta. intros s _. unfold momentum_allocation.
        rewrite Hzero. lra.
    + intros Hle. assert (regular_capital == 0) as Hzero by lra.
      apply Forall_forall. intros _ _. unfold equal_allocation.
      rewrite Hzero. unfold Qdiv. lra.
Qed.

Lemma allocate_loop_lookup_other self amount signals m k :
  k ∉ signal_key <$> signals ->
  allocate_loop self amount signals m !! k = m !! k.
Proof.
  revert m. induction signals as [|s signals IH]; intros m Hk; [done|].
  rewrite fmap_cons, not_elem_of_cons in Hk. destruct Hk as [Hne Hk].
  rewrite allocate_loop_cons, IH by done.
  destruct (Qle_bool _ _); [|done]. by rewrite lookup_insert_ne.
Qed.

Lemma allocate_loop_lookup self amount signals m s :
  NoDup (signal_key <$> signals) ->
  s ∈ signals ->
  min_order_size self <= amount s ->
  allocate_loop self amount signals m !! signal_key s = Some (amount s).
Proof.
  revert m. induction signals as [|s0 signals IH]; intros m Hnd Hin Hle.
  - by apply elem_of_nil in Hin.
  - rewrite fmap_cons in Hnd. apply NoDup_cons in Hnd as [Hfresh Hnd].
    rewrite allocate_loop_cons.
    apply elem_of_cons in Hin as [->|Hin]; [|by apply IH].
    rewrite allocate_loop_lookup_other by done.
    apply Qle_bool_iff in Hle. rewrite Hle. apply lookup_insert_eq.
Qed.

Lemma filter_split_perm {A} (f : A -> bool) (l : list A) :
  List.filter f l ++ List.filter (fun x => negb (f x)) l ≡ₚ l.
Proof.
  induction l as [|x l IH]; [done|]. cbn [List.filter].
  destruct (f x); cbn [negb].
  - cbn [app]. by constructor.
  - rewrite <- Permutation_middle. by constructor.
Qed.

Lemma elem_of_list_filter {A} (f : A -> bool) (l : list A) (x : A) :
  x ∈ List.filter f l <-> x ∈ l /\ f x = true.
Proof. rewrite !list_elem_of_In. apply List.filter_In. Qed.

(** What a momentum signal and a regular signal find in the returned
    mapping when no two signals share a key. *)
Lemma allocations_lookup (available_krw : Q) (buy_signals : list Signal) :
  NoDup (signal_key <$> buy_signals) ->
  Forall (fun s => 0 <= score s) buy_signals ->
  let momentum := momentum_signals buy_signals in
  let regular := regular_signals buy_signals in
  let split := capital_split init (tradeable_capital init available_krw)
                 momentum regular in
  let allocations :=
    allocate_capital_dynamically init available_krw buy_signals in
  (forall s, s ∈ momentum ->
     5000 <= momentum_allocation split.1 momentum s ->
     allocations !! signal_key s
     = Some (momentum_allocation split.1 momentum s))
  /\ (forall s, s ∈ regular ->
        5000 <= equal_allocation split.2 regular ->
        allocations !! signal_key s
        = Some (equal_allocation split.2 regular)).
Proof.
  intros Hnd Hscores momentum regular split allocations.
  assert (NoDup (signal_key <$> (momentum ++ regular))) as Hnd'.
  { unfold momentum, regular, momentum_signals, regular_signals.
    by rewrite filter_split_perm. }
  rewrite fmap_app in Hnd'. apply NoDup_app in Hnd' as (Hnd1 & Hdisj & Hnd2).
  pose proof (Forall_list_filter _ is_momentum buy_signals Hscores) as Hmom.
  fold momentum in Hmom.
  destruct buy_signals as [|s0 rest].
  { split; intros s Hs; by apply elem_of_nil in Hs. }
  subst allocations. unfold allocate_capital_dynamically.
  fold momentum regular split. destruct split as [mc rc] eqn:Hsplit.
  cbn [fst snd]. split.
  - intros s Hs Hle.
    assert (0 < mc) as Hmc.
    { apply Qnot_le_lt. intros Hneg.
      assert (0 <= momentum_weight momentum s) as Hw.
      { apply momentum_weight_nonneg; [by intros E; rewrite E in Hs;
                                        apply elem_of_nil in Hs|].
        by eapply (proj1 (Forall_forall _ _) Hmom). }
      unfold momentum_allocation in Hle.
      assert (mc * momentum_weight momentum s <= 0) by nra. lra. }
    assert (allocate_group init mc (momentum_allocation mc momentum)
              momentum ∅ !! signal_key s
            = Some (momentum_allocation mc momentum s)) as Hfirst.
    { unfold allocate_group. destruct momentum as [|m0 ms] eqn:Em.
      - by apply elem_of_nil in Hs.
      - rewrite (proj2 (Qltb_lt 0 mc) Hmc). rewrite <- Em in *.
        by apply allocate_loop_lookup. }
    unfold allocate_group at 1. destruct regular as [|r0 rs] eqn:Er; [done|].
    destruct (Qltb 0 rc); [|done]. rewrite <- Er in *.
    rewrite allocate_loop_lookup_other; [done|].
    apply Hdisj. by apply list_elem_of_fmap_2.
  - intros s Hs Hle.
    assert (0 < rc) as Hrc.
    { apply Qnot_le_lt. intros Hneg.
      assert (0 < py_len regular) as Hlen.
      { apply py_len_pos. intros E. rewrite E in Hs.
        by apply elem_of_nil in Hs. }
      unfold equal_allocation in Hle.
      assert (rc / py_len regular <= 0).
      { apply Qle_shift_div_r; [done|]. lra. }
      lra. }
    unfold allocate_group at 1. destruct regular as [|r0 rs] eqn:Er.
    + by apply elem_of_nil in Hs.
    + rewrite (proj2 (Qltb_lt 0 rc) Hrc). rewrite <- Er in *.
      by apply (allocate_loop_lookup init
                  (fun _ => equal_allocation rc regular)).
Qed.

(** C4.  With both groups present the momentum group receives 60% of the
    tradeable capital and the regular group 40%; a single non-empty group
    receives all of it.  A momentum signal's weight is its score over the
    group's total score, or one over the group's size when the total is
    0, and a regular signal's share is the regular capital over the
    group's size.  When no two signals share a key and scores are
    non-negative, each share that reaches 5,000 is the amount the returned
    mapping holds for that signal.  Scores 30 and 10 split the momentum
    pool 3:1. *)
Theorem C4_allocation_weighting (available_krw : Q) (buy_signals : list Signal) :
  NoDup (signal_key <$> buy_signals) ->
  Forall (fun s => 0 <= score s) buy_signals ->
  let tradeable := tradeable_capital init available_krw in
  let momentum := momentum_signals buy_signals in
  let regular := regular_signals buy_signals in
  let split := capital_split init tradeable momentum regular in
  let allocations :=
    allocate_capital_dynamically init available_krw buy_signals in
  (momentum <> [] -> regular <> [] ->
     split.1 == tradeable * 0.6 /\ split.2 == tradeable * 0.4)
  /\ (momentum <> [] -> regular = [] -> split = (tradeable, 0))
  /\ (momentum = [] -> regular <> [] -> split = (0, tradeable))
  /\ (0 < total_score momentum -> forall s,
        momentum_weight momentum s = score s / total_score momentum)
  /\ (total_score momentum == 0 -> forall s,
        momentum_weight momentum s = 1 / py_len momentum)
  /\ (forall s, s ∈ momentum ->
        5000 <= split.1 * momentum_weight momentum s ->
        allocations !! signal_key s
        = Some (split.1 * momentum_weight momentum s))
  /\ (forall s, s ∈ regular ->
        5000 <= split.2 / py_len regular ->
        allocations !! signal_key s = Some (split.2 / py_len regular))
  /\ (forall pool a b,
        scores_30_10 = [a; b] ->
        momentum_allocation pool scores_30_10 a
        == 3 * momentum_allocation pool scores_30_10 b).
Proof.
  intros Hnd Hscores tradeable momentum regular split allocations.
  pose proof (allocations_lookup available_krw buy_signals Hnd Hscores)
    as [Hmom Hreg].
  fold momentum regular tradeable split allocations in Hmom, Hreg.
  repeat split.
  - subst split. unfold capital_split.
    destruct momentum; [done|]. destruct regular; [done|].
    cbn [fst momentum_capital_ratio init]. reflexivity.
  - subst split. unfold capital_split.
    destruct momentum; [done|]. destruct regular; [done|].
    cbn [snd momentum_capital_ratio init]. lra.
  - intros Hm Hr. subst split. unfold capital_split.
    destruct momentum; [done|]. by rewrite Hr.
  - intros Hm Hr. subst split. unfold capital_split. by rewrite Hm.
  - intros Htotal s. unfold momentum_weight.
    by rewrite (proj2 (Qltb_lt _ _) Htotal).
  - intros Htotal s. unfold momentum_weight.
    assert (Qltb 0 (total_score momentum) = false) as ->; [|done].
    apply Qltb_ge. lra.
  - exact Hmom.
  - exact Hreg.
  - intros pool a b [= <- <-]. unfold momentum_allocation.
    assert (momentum_weight scores_30_10
              (mkSignal (Some "A"%string) None true (Some 30)) == 3 # 4)
      as -> by (vm_compute; reflexivity).
    assert (momentum_weight scores_30_10
              (mkSignal (Some "B"%string) None true (Some 10)) == 1 # 4)
      as -> by (vm_compute; reflexivity).
    lra.
Qed.

(** C4 at the scenario of the specification: signal A (momentum, score
    20 of 40) receives its weighted share of the momentum pool. *)
Lemma C4_allocation_weighting_witness :
  let A := mkSignal (Some "A"%string) None true (Some 20) in
  let pool := (capital_split init (tradeable_capital init 1000000)
                 (momentum_signals scenario) (regular_signals scenario)).1 in
  pool == 1000000 * 0.98 * 0.6
  /\ allocate_capital_dynamically init 1000000 scenario !! Some "A"%string
     = Some (pool * momentum_weight (momentum_signals scenario) A).
Proof.
  intros A pool.
  assert (NoDup (signal_key <$> scenario)) as Hnd.
  { apply (bool_decide_unpack _). vm_compute. exact I. }
  assert (Forall (fun s => 0 <= score s) scenario) as Hscores.
  { repeat constructor; vm_compute; discriminate. }
  destruct (C4_allocation_weighting 1000000 scenario Hnd Hscores)
    as (Hboth & _ & _ & _ & _ & Hmom & _).
  split.
  - apply Hboth; discriminate.
  - apply (Hmom A).
    + vm_compute. constructor.
    + vm_compute. discriminate.
Defined.

End Allocation.

(** ** The Average True Range *)

Section AverageTrueRange.
Import ATRRiskManager.
Implicit Types (df : list Bar) (b : Bar).

(** A cell of the [true_range] column, from the cell of [prev_close]. *)
Lemma true_range_cell (pc : option Q) b :
  nan_max (nan_max (nan_lift2 Qminus (Some (high b)) (Some (low b)))
             (Qabs <$> nan_lift2 Qminus (Some (high b)) pc))
          (Qabs <$> nan_lift2 Qminus (Some (low b)) pc)
  = Some (match pc with
          | None => high b - low b
          | Some c => spec_true_range c b
          end).
Proof. by destruct pc. Qed.

Lemma true_range_rows (pcs : list (option Q)) df :
  row_max3 (series_sub (column high df) (column low df))
           (series_abs (series_sub (column high df) pcs))
           (series_abs (series_sub (column low df) pcs))
  = zip_with (fun b pc => Some (match pc with
                                | None => high b - low b
                                | Some c => spec_true_range c b
                                end)) df pcs.
Proof.
  unfold row_max3, series_sub, series_abs, column.
  revert pcs. induction df as [|b df IH]; intros pcs; [done|].
  destruct pcs as [|pc pcs]; [done|].
  cbn [fmap list_fmap zip_with]. rewrite true_range_cell. f_equal. apply IH.
Qed.

(** The rows after the first pair each bar with its predecessor's close. *)
Lemma true_range_later b0 df :
  zip_with (fun b pc => Some (match pc with
                              | None => high b - low b
                              | Some c => spec_true_range c b
                              end))
    df (removelast (column close (b0 :: df)))
  = Some <$> spec_true_ranges (b0 :: df).
Proof.
  unfold spec_true_ranges, column.
  change (drop 1 (b0 :: df)) with df.
  revert b0. induction df as [|b df IH]; intros b0; [done|].
  change (removelast ((fun b1 => Some (close b1)) <$> b0 :: b :: df))
    with (Some (close b0) :: removelast ((fun b1 => Some (close b1)) <$> b :: df)).
  change (zip_with (fun prev b1 => spec_true_range (close prev) b1)
            (b0 :: b :: df) (b :: df))
    with (spec_true_range (close b0) b
          :: zip_with (fun prev b1 => spec_true_range (close prev) b1)
               (b :: df) df).
  rewrite (fmap_cons Some), <- IH. reflexivity.
Qed.

(** The whole [true_range] column: high-low for the oldest bar, whose
    previous close is NaN, and the True Range for every later bar. *)
Lemma true_range_column_eq b0 df :
  true_range_column (b0 :: df)
  = Some <$> (high b0 - low b0) :: spec_true_ranges (b0 :: df).
Proof.
  unfold true_range_column. rewrite true_range_rows.
  unfold shift1. change (column close (b0 :: df))
    with (Some (close b0) :: column close df) at 1.
  cbn [zip_with]. rewrite fmap_cons. f_equal. apply true_range_later.
Qed.

Lemma all_numbers_Some (l : list Q) : all_numbers (Some <$> l) = Some l.
Proof.
  unfold all_numbers. induction l as [|x l IH]; [done|].
  rewrite fmap_cons. cbn [mapM]. rewrite IH. done.
Qed.

Lemma length_spec_true_ranges b0 df :
  length (spec_true_ranges (b0 :: df)) = length df.
Proof.
  unfold spec_true_ranges. rewrite length_zip_with.
  change (drop 1 (b0 :: df)) with df. cbn [length]. lia.
Qed.

Lemma spec_true_range_nonneg pc b : 0 <= spec_true_range pc b.
Proof.
  unfold spec_true_range.
  eapply Qle_trans; [apply (Qabs_nonneg (low b - pc))|]. apply Q.le_max_r.
Qed.

(** With at least [period] bars the ATR is the mean of the last [period]
    cells of the [true_range] column. *)
Lemma calculate_atr_frame self (period : nat) b0 df :
  (1 <= period <= length (b0 :: df))%nat ->
  calculate_atr self (Some period) (FetchFrame (b0 :: df))
  = py_sum (tail period ((high b0 - low b0) :: spec_true_ranges (b0 :: df)))
    / inject_Z (Z.of_nat period).
Proof.
  intros [Hp Hlen]. unfold calculate_atr.
  change (default (ATR_PERIOD self) (Some period)) with period.
  destruct (Nat.ltb_spec (length (b0 :: df)) period) as [|_]; [lia|].
  unfold rolling_mean_last.
  destruct (Nat.eqb_spec period 0) as [|_]; [lia|].
  rewrite true_range_column_eq, length_fmap. cbn [length].
  rewrite length_spec_true_ranges.
  destruct (Nat.ltb_spec (S (length df)) period) as [|_];
    [cbn [length] in Hlen; lia|].
  unfold tail at 1. rewrite length_fmap, <- fmap_drop, all_numbers_Some.
  reflexivity.
Qed.

(** The claim as worded fails: two bars are fewer than [period+1 = 3],
    yet the result is 5/2, the mean of the first bar's high-low (2) and
    the second bar's True Range (3). *)
Lemma C2_counterexample :
  let df := [mkBar 10 8 9; mkBar 12 9 11] in
  (length df < 2 + 1)%nat
  /\ ~ calculate_atr (init false) (Some 2%nat) (FetchFrame df) == 0.
Proof.
  split; [cbn; lia|]. vm_compute. discriminate.
Qed.

End AverageTrueRange.

(** ** Risk levels and triggers *)

Section RiskLevels.
Import ATRRiskManager.
Implicit Types (self : Manager) (position_data : PositionData)
  (risk_data : RiskData) (c : Cycle).

(** The fields of a computed [risk_data] that the claims read. *)
Lemma risk_levels_fields self position_data atr_fetch entry_fetch tpv risk_data :
  calculate_position_risk_levels self position_data atr_fetch entry_fetch tpv
  = Some risk_data ->
  atr risk_data
  = atr_or_fallback self (current_price position_data) atr_fetch
  /\ trailing_threshold risk_data
     = estimated_entry risk_data
       + atr risk_data * TRAILING_STOP_THRESHOLD self
  /\ take_profit risk_data
     = estimated_entry risk_data
       + atr risk_data * TAKE_PROFIT_MULTIPLIER self
  /\ stop_loss risk_data
     = Qmax (if Qltb (trailing_threshold risk_data)
                  (current_price position_data)
             then Qmax (estimated_entry risk_data
                        - atr risk_data * STOP_LOSS_MULTIPLIER self)
                       (current_price position_data
                        - atr risk_data * STOP_LOSS_MULTIPLIER self)
             else estimated_entry risk_data
                  - atr risk_data * STOP_LOSS_MULTIPLIER self) 0.
Proof.
  unfold calculate_position_risk_levels. intros H.
  destruct entry_fetch as [err| |df]; [done| |].
  all: destruct (Qeq_bool (current_price position_data) 0); [done|].
  all: destruct (Qeq_bool tpv 0); [done|].
  all: injection H as <-.
  all: cbn [atr estimated_entry trailing_threshold take_profit stop_loss].
  all: by repeat split.
Qed.

(** C6.  Whenever [calculate_position_risk_levels] produces risk data,
    its [stop_loss] is non-negative, and when the computed ATR is 0 the
    [atr] it reports is 2% of the current price.  Risk data is produced
    whenever the second candle fetch does not raise and neither the
    current price nor the portfolio value is zero, whatever the ATR. *)
Theorem C6_stop_loss_floor self position_data atr_fetch entry_fetch tpv :
  (forall risk_data,
     calculate_position_risk_levels self position_data atr_fetch entry_fetch tpv
     = Some risk_data ->
     0 <= stop_loss risk_data
     /\ (calculate_atr self None atr_fetch == 0 ->
         atr risk_data = current_price position_data * 0.02))
  /\ ((forall e, entry_fetch <> FetchRaise e) ->
      ~ current_price position_data == 0 ->
      ~ tpv == 0 ->
      exists risk_data,
        calculate_position_risk_levels self position_data atr_fetch entry_fetch tpv
        = Some risk_data).
Proof.
  split.
  - intros risk_data H.
    destruct (risk_levels_fields _ _ _ _ _ _ H) as (Ha & _ & _ & Hs).
    split.
    + rewrite Hs. apply Q.le_max_r.
    + intros Hzero. rewrite Ha. unfold atr_or_fallback.
      by rewrite (proj2 (Qeq_bool_iff _ _) Hzero).
  - intros Hfetch Hprice Htpv. unfold calculate_position_risk_levels.
    destruct entry_fetch as [e| |df]; [by destruct (Hfetch e)| |].
    all: destruct (Qeq_bool (current_price position_data) 0) eqn:E1;
      [by apply Qeq_bool_iff in E1|].
    all: destruct (Qeq_bool tpv 0) eqn:E2; [by apply Qeq_bool_iff in E2|].
    all: eauto.
Qed.

(** C6 at a position priced 50 whose ATR fetch returns nothing. *)
Lemma C6_stop_loss_floor_witness :
  let position_data := mkPosition "BTC" 1 0 1 50 50 in
  exists risk_data,
    calculate_position_risk_levels (init false) position_data FetchNone
      (FetchFrame [mkBar 60 40 50]) 1000 = Some risk_data
    /\ 0 <= stop_loss risk_data
    /\ atr risk_data = 50 * 0.02.
Proof.
  intros position_data.
  destruct (C6_stop_loss_floor (init false) position_data FetchNone
              (FetchFrame [mkBar 60 40 50]) 1000) as [Hlevels Hdefined].
  destruct Hdefined as [risk_data Hrisk].
  - discriminate.
  - vm_compute. discriminate.
  - vm_compute. discriminate.
  - exists risk_data. split; [exact Hrisk|].
    destruct (Hlevels risk_data Hrisk) as [Hstop Hatr].
    split; [exact Hstop|]. apply Hatr. vm_compute. reflexivity.
Defined.

(** C7, as the code has it.  When the current price is above the trailing
    threshold (estimated entry + 1.5 ATR), the reported [stop_loss] is
    the larger of entry - 2 ATR and price - 2 ATR, floored at 0.  It is
    never lower than entry - 2 ATR nor than the floored non-trailing
    stop, and it equals the larger of the two stops whenever that is
    non-negative. *)
Theorem C7_trailing_ratchet (tm : bool) position_data atr_fetch entry_fetch tpv
    risk_data :
  calculate_position_risk_levels (init tm) position_data atr_fetch entry_fetch tpv
  = Some risk_data ->
  trailing_threshold risk_data < current_price position_data ->
  let p := current_price position_data in
  let a := atr risk_data in
  let e := estimated_entry risk_data in
  trailing_threshold risk_data == e + a * 1.5
  /\ stop_loss risk_data == Qmax (Qmax (e - a * 2) (p - a * 2)) 0
  /\ e - a * 2 <= stop_loss risk_data
  /\ Qmax (e - a * 2) 0 <= stop_loss risk_data
  /\ (0 <= Qmax (e - a * 2) (p - a * 2) ->
      stop_loss risk_data == Qmax (e - a * 2) (p - a * 2)).
Proof.
  intros H Htrail p a e.
  destruct (risk_levels_fields _ _ _ _ _ _ H) as (_ & Ht & _ & Hs).
  rewrite (proj2 (Qltb_lt _ _) Htrail) in Hs.
  fold p a e in Ht, Hs.
  cbn [init STOP_LOSS_MULTIPLIER TRAILING_STOP_THRESHOLD] in Ht, Hs.
  assert (stop_loss risk_data == Qmax (Qmax (e - a * 2) (p - a * 2)) 0) as Hstop.
  { rewrite Hs. assert (2.0 == 2) as -> by reflexivity. reflexivity. }
  split; [rewrite Ht; reflexivity|]. split; [exact Hstop|].
  pose proof (Q.le_max_l (e - a * 2) (p - a * 2)) as H1.
  pose proof (Q.le_max_l (Qmax (e - a * 2) (p - a * 2)) 0) as H2.
  pose proof (Q.le_max_r (Qmax (e - a * 2) (p - a * 2)) 0) as H3.
  repeat split.
  - rewrite Hstop. lra.
  - rewrite Hstop. apply Q.max_lub; lra.
  - intros Hpos. rewrite Hstop. by apply Q.max_l.
Qed.

(** C7 at a position priced 170 with an ATR of 10 and an entry of 150. *)
Lemma C7_trailing_ratchet_witness :
  let position_data := mkPosition "BTC" 1 0 1 170 170 in
  let atr_fetch := FetchFrame (flat 155 145 150 15) in
  let entry_fetch := FetchFrame [mkBar 155 145 150] in
  exists risk_data,
    calculate_position_risk_levels (init false) position_data atr_fetch
      entry_fetch 1000 = Some risk_data
    /\ stop_loss risk_data
       == Qmax (estimated_entry risk_data - atr risk_data * 2)
               (170 - atr risk_data * 2).
Proof.
  intros position_data atr_fetch entry_fetch.
  destruct (calculate_position_risk_levels (init false) position_data
              atr_fetch entry_fetch 1000) as [risk_data|] eqn:Hrisk;
    [|vm_compute in Hrisk; discriminate].
  exists risk_data. split; [reflexivity|].
  assert (trailing_threshold risk_data < current_price position_data) as Htrail.
  { vm_compute in Hrisk. injection Hrisk as <-. vm_compute. reflexivity. }
  destruct (C7_trailing_ratchet false position_data atr_fetch entry_fetch
              1000 risk_data Hrisk Htrail) as (_ & _ & _ & _ & Hmax).
  apply Hmax.
  vm_compute in Hrisk. injection Hrisk as <-. vm_compute. discriminate.
Defined.

(** The claim as worded fails: with a price of 170, an ATR of 100 and an
    estimated entry of 10 the price is above the trailing threshold 160,
    the larger of the two stops is 170 - 200 = -30, and the reported
    [stop_loss] is 0. *)
Lemma C7_counterexample :
  let position_data := mkPosition "BTC" 1 0 1 170 170 in
  let atr_fetch := FetchFrame (flat 100 0 50 15) in
  let entry_fetch := FetchFrame [mkBar 20 0 10] in
  exists risk_data,
    calculate_position_risk_levels (init false) position_data atr_fetch
      entry_fetch 1000 = Some risk_data
    /\ atr risk_data == 100
    /\ estimated_entry risk_data == 10
    /\ trailing_threshold risk_data < current_price position_data
    /\ stop_loss risk_data == 0
    /\ ~ stop_loss risk_data
         == Qmax (estimated_entry risk_data - atr risk_data * 2)
                 (current_price position_data - atr risk_data * 2).
Proof.
  intros position_data atr_fetch entry_fetch.
  destruct (calculate_position_risk_levels (init false) position_data
              atr_fetch entry_fetch 1000) as [risk_data|] eqn:Hrisk;
    [|vm_compute in Hrisk; discriminate].
  exists risk_data. split; [reflexivity|].
  vm_compute in Hrisk. injection Hrisk as <-.
  split; [vm_compute; reflexivity|].
  split; [vm_compute; reflexivity|].
  split; [vm_compute; reflexivity|].
  split; [vm_compute; reflexivity|].
  vm_compute. discriminate.
Qed.

(** C8.  When the current price is at or below the stop-loss, whether or
    not it is also at or above the take-profit, [check_triggers] calls
    [execute_risk_order] exactly once, for STOP-LOSS, and records a
    STOP-LOSS order exactly when that call reports success.  A
    TAKE-PROFIT call is made exactly when the stop-loss test is false
    and the take-profit test is true. *)
Theorem C8_stop_loss_priority (mkt : Market) (ticker : string)
    position_data risk_data c :
  let c' := check_triggers mkt ticker position_data risk_data c in
  (current_price position_data <= stop_loss risk_data ->
   risk_order_calls c' = risk_order_calls c ++ [(ticker, STOP_LOSS)]
   /\ executed_orders c'
      = executed_orders c ++
        (if execute_risk_order mkt ticker position_data STOP_LOSS
         then [mkExecuted ticker STOP_LOSS (current_price position_data)
                 (balance position_data)]
         else []))
  /\ (risk_order_calls c' = risk_order_calls c ++ [(ticker, TAKE_PROFIT)]
      <-> ~ current_price position_data <= stop_loss risk_data
          /\ take_profit risk_data <= current_price position_data).
Proof.
  intros c'. subst c'. unfold check_triggers.
  unfold should_execute_stop_loss, should_execute_take_profit.
  destruct (Qle_bool (current_price position_data) (stop_loss risk_data))
    eqn:Hsl.
  - apply Qle_bool_iff in Hsl. split.
    + intros _.
      destruct (execute_risk_order mkt ticker position_data STOP_LOSS);
        cbn [risk_order_calls executed_orders]; by rewrite ?app_nil_r.
    + split; [|by intros [Hn _]].
      destruct (execute_risk_order mkt ticker position_data STOP_LOSS);
        cbn [risk_order_calls]; intros Heq; apply app_inv_head in Heq;
        discriminate.
  - assert (~ current_price position_data <= stop_loss risk_data) as Hnsl.
    { intros Hle. apply Qle_bool_iff in Hle. congruence. }
    split; [done|].
    destruct (Qle_bool (take_profit risk_data) (current_price position_data))
      eqn:Htp.
    + apply Qle_bool_iff in Htp. split; [done|]. intros _.
      by destruct (execute_risk_order mkt ticker position_data TAKE_PROFIT).
    + split.
      * cbn [risk_order_calls]. intros Heq.
        rewrite <- (app_nil_r (risk_order_calls c)) in Heq at 1.
        apply app_inv_head in Heq. discriminate.
      * intros [_ Hle]. apply Qle_bool_iff in Hle. congruence.
Qed.

(** C8 at a degenerate pair: price 100, stop-loss 120, take-profit 90. *)
Lemma C8_stop_loss_priority_witness :
  let mkt := mkMarket (fun _ => FetchNone) (fun _ => FetchNone) (fun _ => 1000)
               (fun _ _ _ => true) in
  let position_data := mkPosition "BTC" 1 0 1 100 100 in
  let risk_data := mkRisk 5 5 100 120 90 110 (Some 0) 0 0 10 in
  risk_order_calls (check_triggers mkt "KRW-BTC" position_data risk_data start)
  = [("KRW-BTC"%string, STOP_LOSS)]
  /\ executed_orders (check_triggers mkt "KRW-BTC" position_data risk_data start)
     = [mkExecuted "KRW-BTC" STOP_LOSS 100 1].
Proof.
  intros mkt position_data risk_data.
  destruct (C8_stop_loss_priority mkt "KRW-BTC" position_data risk_data start)
    as [Hstop _].
  apply Hstop. vm_compute. discriminate.
Defined.

End RiskLevels.

(** ** Market orders when the price is unknown *)

Section MarketOrders.
Import EnhancedSmartOrderExecutor.
Implicit Types (ex : Exchange) (ticker : string).

(** C9, as the code has it.  When the price lookup returns nothing, a
    market buy returns a failure naming the ticker and places no order.
    A market sell does not depend on the lookup: it places the order
    for the amount it settled on and reports success, with no executed
    price, exactly when the exchange's response carries an order id, and
    a failure otherwise.  When the lookup raises, both return a failure
    carrying the error and place no order.  Neither function raises. *)
Theorem C9_price_lookup_failure ex ticker (amount : Q) :
  (get_current_price ex ticker = Ok None ->
   execute_market_buy ex ticker amount
   = (Failure ("Couldn't get current price for " ++ ticker), [])
   /\ (forall sold, sell_amount ex ticker amount = Ok sold ->
       execute_market_sell ex ticker amount
       = match sell_market_order ex ticker sold with
         | Exn e => (Failure e, [SellMarket ticker sold])
         | Ok response =>
             match has_uuid response with
             | Some order =>
                 (Success order None sold, [SellMarket ticker sold])
             | None =>
                 (Failure ("Failed market sell: " ++ render ex response),
                  [SellMarket ticker sold])
             end
         end))
  /\ (forall e, get_current_price ex ticker = Exn e ->
      execute_market_buy ex ticker amount = (Failure e, [])
      /\ (forall sold, sell_amount ex ticker amount = Ok sold ->
          execute_market_sell ex ticker amount = (Failure e, [])))
  /\ (forall e, sell_amount ex ticker amount = Exn e ->
      execute_market_sell ex ticker amount = (Failure e, [])).
Proof.
  unfold execute_market_buy, execute_market_sell.
  split; [|split].
  - intros Hprice. rewrite Hprice. split; [done|].
    intros sold ->. reflexivity.
  - intros e Hprice. rewrite Hprice. split; [done|].
    intros sold ->. reflexivity.
  - intros e ->. reflexivity.
Qed.

(** C9 at an exchange whose price lookup returns nothing. *)
Lemma C9_price_lookup_failure_witness :
  execute_market_buy no_price_exchange "KRW-BTC" 10000
  = (Failure "Couldn't get current price for KRW-BTC", [])
  /\ execute_market_sell no_price_exchange "KRW-BTC" 1
     = (Success {[ "uuid"%string := PStr "abc" ]} None 1,
        [SellMarket "KRW-BTC" 1]).
Proof.
  destruct (C9_price_lookup_failure no_price_exchange "KRW-BTC" 10000)
    as [Hbuy _].
  destruct (C9_price_lookup_failure no_price_exchange "KRW-BTC" 1)
    as [Hsell _].
  split.
  - apply Hbuy. reflexivity.
  - apply (proj2 (Hsell eq_refl) 1). reflexivity.
Defined.

(** The claim as worded fails for a sell: the price lookup returns
    nothing, yet the order is placed and the result reports success. *)
Lemma C9_counterexample :
  get_current_price no_price_exchange "KRW-BTC" = Ok None
  /\ success (execute_market_sell no_price_exchange "KRW-BTC" 1).1 = true
  /\ (execute_market_sell no_price_exchange "KRW-BTC" 1).2
     = [SellMarket "KRW-BTC" 1].
Proof. by vm_compute. Qed.

End MarketOrders.

(** ** The order monitor *)

Section OrderMonitor.
Import ImprovedOrderManager.
Implicit Types (ex : Exchange) (order_id : PyVal) (w : World) (st : Locals).

Lemma timeout_result_fields order_id (elapsed : Q) :
  timeout_result order_id elapsed !! "state"%string = Some (PStr "timeout")
  /\ timeout_result order_id elapsed !! "uuid"%string = Some order_id
  /\ timeout_result order_id elapsed !! "elapsed_seconds"%string
     = Some (PNum elapsed)
  /\ size (timeout_result order_id elapsed) = 3%nat.
Proof.
  unfold timeout_result. split; [|split; [|split]].
  - apply lookup_insert_eq.
  - rewrite lookup_insert_ne by done. apply lookup_insert_eq.
  - rewrite !lookup_insert_ne by done. apply lookup_insert_eq.
  - rewrite !map_size_insert_None; [by rewrite map_size_empty|..].
    + apply lookup_empty.
    + rewrite lookup_insert_ne by done. apply lookup_empty.
    + rewrite !lookup_insert_ne by done. apply lookup_empty.
Qed.

(** What the code after the loop returns, by the answer to its one call
    of [get_order]. *)
Lemma final_status_check_result ex order_id (start_time : Q) w :
  let elapsed := now w - start_time in
  let reply := get_order ex (polls w) order_id in
  let out := final_status_check ex order_id start_time w in
  polls out.2 = S (polls w)
  /\ (forall d s, reply = Return (Some d) -> d !! "state"%string = Some s ->
      out.1 = d)
  /\ ((forall d, reply = Return (Some d) -> d !! "state"%string = None) ->
      out.1 = timeout_result order_id elapsed).
Proof.
  intros elapsed reply out. subst out reply.
  unfold final_status_check, upbit_get_order.
  change (polls (logger ?m w)) with (polls w).
  destruct (get_order ex (polls w) order_id) as [e|[d|]].
  - split; [done|]. split; [done|]. intros Hnone. reflexivity.
  - destruct (Nat.eqb_spec (size d) 0) as [Hsize|Hsize].
    + apply map_size_empty_iff in Hsize. subst d.
      split; [done|]. split; [|done].
      intros d s [= <-]. by rewrite lookup_empty.
    + destruct (d !! "state"%string) as [s|] eqn:Hstate.
      * destruct (pyval_eqb s (PStr "done")).
        all: split; [done|]; split; [by intros d' s' [= <-] _|].
        all: intros Hnone; specialize (Hnone d eq_refl); congruence.
      * split; [done|]. split; [|done]. intros d' s' [= <-]. congruence.
  - split; [done|]. split; [done|]. intros Hnone. reflexivity.
Qed.

(** The loop is left through its condition only once the deadline has
    elapsed. *)
Lemma poll_loop_deadline (fuel : nat) ex order_id
    (timeout check_interval start_time : Q) st w st' w' :
  poll_loop fuel ex order_id timeout check_interval start_time st w
  = Some (Deadline st' w') ->
  timeout <= now w' - start_time.
Proof.
  revert st w. induction fuel as [|fuel IH]; intros st w; cbn [poll_loop].
  - destruct (Qltb (now w - start_time) timeout) eqn:E; [done|].
    intros [= <- <-]. by apply Qltb_ge.
  - destruct (Qltb (now w - start_time) timeout) eqn:E.
    + destruct (poll_once ex order_id check_interval st w); [apply IH|done].
    + intros [= <- <-]. by apply Qltb_ge.
Qed.

(** C1, as the code has it.  When the polling loop ends because the
    deadline has elapsed, [monitor_order] makes exactly one more call of
    [get_order], at least the timeout after the start.  If that call
    returns an order that has a state, the order is returned as it is,
    whether filled (a late success) or not.
    In every other case (the call raises, or returns nothing or a
    dictionary without a state) the result is a [timeout] dictionary that
    carries the order id and the elapsed time, and nothing else. *)
Theorem C1_final_status_check (fuel : nat) ex order_id (timeout : option Q)
    (check_interval : Q) w st wd :
  poll_loop fuel ex order_id (effective_timeout timeout) check_interval (now w)
    (initial_locals check_interval)
    (logger (MonitoringOrder order_id (effective_timeout timeout)) w)
  = Some (Deadline st wd) ->
  let elapsed := now wd - now w in
  let reply := get_order ex (polls wd) order_id in
  exists result w',
    monitor_order fuel ex order_id timeout check_interval w
    = Some (Ok result, w')
    /\ effective_timeout timeout <= elapsed
    /\ polls w' = S (polls wd)
    /\ (forall d, reply = Return (Some d) ->
        d !! "state"%string = Some (PStr "done") -> result = d)
    /\ (forall d s, reply = Return (Some d) ->
        d !! "state"%string = Some s -> result = d)
    /\ ((forall d, reply = Return (Some d) -> d !! "state"%string = None) ->
        result = timeout_result order_id elapsed
        /\ result !! "state"%string = Some (PStr "timeout")
        /\ result !! "uuid"%string = Some order_id
        /\ result !! "elapsed_seconds"%string = Some (PNum elapsed)
        /\ size result = 3%nat).
Proof.
  intros Hloop elapsed reply.
  unfold monitor_order. rewrite Hloop.
  pose proof (final_status_check_result ex order_id (now w) wd)
    as (Hpolls & Hstate & Hnone).
  destruct (final_status_check ex order_id (now w) wd) as [result w'].
  cbn [fst snd] in Hpolls, Hstate, Hnone.
  exists result, w'. split; [done|].
  split; [by eapply poll_loop_deadline|]. split; [done|].
  split; [intros d; apply Hstate|]. split; [exact Hstate|].
  intros Hreply. rewrite (Hnone Hreply).
  split; [done|]. apply timeout_result_fields.
Qed.

(** C1 at a client that always answers [wait], with a deadline of one
    second: the final check's order is returned. *)
Lemma C1_final_status_check_witness :
  exists result w',
    monitor_order 10 always_wait (PStr "o1") (Some 1) 0.5 boot
    = Some (Ok result, w')
    /\ polls w' = 3%nat
    /\ result = open_order (PStr "o1").
Proof.
  destruct (poll_loop 10 always_wait (PStr "o1") (effective_timeout (Some 1))
              0.5 (now boot) (initial_locals 0.5)
              (logger (MonitoringOrder (PStr "o1") (effective_timeout (Some 1)))
                 boot)) as [[r w|st wd]|] eqn:Hloop;
    [vm_compute in Hloop; discriminate| |vm_compute in Hloop; discriminate].
  destruct (C1_final_status_check 10 always_wait (PStr "o1") (Some 1) 0.5
              boot st wd Hloop)
    as (result & w' & Hrun & _ & Hpolls & _ & Hstate & _).
  exists result, w'. split; [exact Hrun|].
  assert (polls wd = 2%nat) as Hwd.
  { vm_compute in Hloop. by injection Hloop as _ <-. }
  split; [by rewrite Hpolls, Hwd|].
  apply (Hstate (open_order (PStr "o1")) (PStr "wait")); [reflexivity|].
  apply lookup_insert_eq.
Defined.

(** The claim as worded fails: the deadline elapses on an order that is
    still open, the final check reports the non-filled state [wait], and
    the result is that order, whose state is [wait], not a [timeout]
    result. *)
Lemma C1_counterexample :
  (exists st wd,
     poll_loop 10 always_wait (PStr "o1") 1 0.5 0 (initial_locals 0.5)
       (logger (MonitoringOrder (PStr "o1") 1) boot)
     = Some (Deadline st wd)
     /\ get_order always_wait (polls wd) (PStr "o1")
        = Return (Some (open_order (PStr "o1"))))
  /\ exists result w',
       monitor_order 10 always_wait (PStr "o1") (Some 1) 0.5 boot
       = Some (Ok result, w')
       /\ result !! "state"%string = Some (PStr "wait")
       /\ result !! "state"%string <> Some (PStr "timeout").
Proof.
  split.
  - destruct (poll_loop 10 always_wait (PStr "o1") 1 0.5 0 (initial_locals 0.5)
                (logger (MonitoringOrder (PStr "o1") 1) boot))
      as [[r w|st wd]|] eqn:Hloop;
      [vm_compute in Hloop; discriminate| |vm_compute in Hloop; discriminate].
    by exists st, wd.
  - destruct (monitor_order 10 always_wait (PStr "o1") (Some 1) 0.5 boot)
      as [[[result|e] w']|] eqn:Hrun;
      [|vm_compute in Hrun; discriminate..].
    exists result, w'. split; [done|].
    vm_compute in Hrun. injection Hrun as <- _.
    by vm_compute.
Qed.

(** *** Backoff and the failure ceiling *)

Lemma pow2_pos (n : nat) : 1 <= inject_Z (2 ^ Z.of_nat n).
Proof.
  change 1 with (inject_Z 1). rewrite <- Zle_Qle.
  pose proof (Z.pow_pos_nonneg 2 (Z.of_nat n)). lia.
Qed.

Lemma backoff_nonneg (check_interval : Q) (n : nat) :
  0 <= check_interval -> 0 <= backoff check_interval n.
Proof.
  intros Hci. unfold backoff. apply Q.min_glb; [|lra].
  apply Qmult_le_0_compat; [done|]. pose proof (pow2_pos n). lra.
Qed.

Lemma backoff_le_cap (check_interval : Q) (n : nat) :
  backoff check_interval n <= 5.
Proof. apply Q.le_min_r. Qed.

Lemma backoff_ge (check_interval : Q) (n : nat) :
  0 <= check_interval -> Qmin check_interval 5 <= backoff check_interval n.
Proof.
  intros Hci. unfold backoff. apply Q.min_glb; [|apply Q.le_min_r].
  eapply Qle_trans; [apply Q.le_min_l|].
  pose proof (pow2_pos n) as Hpow.
  generalize dependent (inject_Z (2 ^ Z.of_nat n)). intros p Hpow. nra.
Qed.

Lemma time_sleep_nonneg (d : Q) w :
  0 <= d -> time_sleep d w = Ok (advance d w).
Proof.
  intros Hd. unfold time_sleep.
  by rewrite (proj2 (Qltb_ge d 0) Hd).
Qed.

(** The handler below the ceiling: count, back off, sleep, go on. *)
Lemma on_exception_continue order_id (check_interval : Q) (e : string) st w :
  0 <= check_interval ->
  (S (consecutive_failures st) < max_failures)%nat ->
  on_exception order_id check_interval e st w
  = Continue
      {| consecutive_failures := S (consecutive_failures st);
         last_order_state := last_order_state st;
         retry_delay := backoff check_interval (S (consecutive_failures st)) |}
      (advance (backoff check_interval (S (consecutive_failures st)))
         (logger (ErrorMonitoring order_id (S (consecutive_failures st)) e) w)).
Proof.
  intros Hci Hlt. unfold on_exception.
  destruct (Nat.leb_spec max_failures (S (consecutive_failures st)));
    [lia|].
  by rewrite time_sleep_nonneg by by apply backoff_nonneg.
Qed.

(** The handler at the ceiling: give up with an [error] result. *)
Lemma on_exception_exit order_id (check_interval : Q) (e : string) st w :
  (max_failures <= S (consecutive_failures st))%nat ->
  on_exception order_id check_interval e st w
  = Exit (Ok (error_result order_id e))
      (logger (TooManyFailures (S (consecutive_failures st)) order_id)
         (logger (ErrorMonitoring order_id (S (consecutive_failures st)) e) w)).
Proof.
  intros Hle. unfold on_exception.
  by destruct (Nat.leb_spec max_failures (S (consecutive_failures st)));
    [|lia].
Qed.

Lemma poll_once_raise ex order_id (check_interval : Q) (e : string) st w :
  get_order ex (polls w) order_id = Raise e ->
  poll_once ex order_id check_interval st w
  = on_exception order_id check_interval e st (upbit_get_order ex order_id w).2.
Proof. intros Hreply. unfold poll_once, upbit_get_order. by rewrite Hreply. Qed.

Lemma error_result_fields order_id (e : string) :
  error_result order_id e !! "state"%string = Some (PStr "error")
  /\ error_result order_id e !! "uuid"%string = Some order_id
  /\ error_result order_id e !! "error"%string = Some (PStr e).
Proof.
  unfold error_result. split; [|split].
  - apply lookup_insert_eq.
  - rewrite lookup_insert_ne by done. apply lookup_insert_eq.
  - rewrite !lookup_insert_ne by done. apply lookup_insert_eq.
Qed.

(** A poll that returns an open, well-formed order: the counter is 0
    and the next delay is the check interval. *)
Lemma poll_once_open ex order_id (check_interval : Q) st w
    (d : gmap string PyVal) (s : PyVal) :
  0 <= check_interval ->
  get_order ex (polls w) order_id = Return (Some d) ->
  d !! "state"%string = Some s ->
  pyval_eqb s (PStr "done") = false ->
  pyval_eqb s (PStr "cancel") = false ->
  (forall v, d !! "volume"%string = Some v -> exists q, v = PNum q) ->
  (forall v, d !! "remaining_volume"%string = Some v -> exists q, v = PNum q) ->
  exists st' w',
    poll_once ex order_id check_interval st w = Continue st' w'
    /\ consecutive_failures st' = 0%nat
    /\ retry_delay st' = check_interval
    /\ now w' = now w + latency ex (polls w) + check_interval
    /\ polls w' = S (polls w).
Proof.
  intros Hci Hreply Hstate Hdone Hcancel Hvol Hrem.
  unfold poll_once, upbit_get_order. rewrite Hreply.
  unfold cache_state, subscript_state. rewrite Hstate.
  set (w1 := {| now := now w + latency ex (polls w); polls := S (polls w);
                log := log w; pending_orders := pending_orders w;
                completed_orders := completed_orders w |}).
  assert (forall w0, exists w2,
            (if pyval_eqb s (PStr "wait")
             then report_progress order_id d w0 else Ok w0) = Ok w2
            /\ now w2 = now w0 /\ polls w2 = polls w0) as Hprogress.
  { intros w0. destruct (pyval_eqb s (PStr "wait")); [|by exists w0].
    unfold report_progress.
    destruct (d !! "volume"%string) as [v|]; [|by exists w0].
    destruct (d !! "remaining_volume"%string) as [r|]; [|by exists w0].
    destruct (Hvol v eq_refl) as [qv ->]. destruct (Hrem r eq_refl) as [qr ->].
    cbn [py_float]. destruct (Qltb 0 qv && Qltb qr qv); eauto. }
  cbn [last_order_state consecutive_failures retry_delay].
  destruct (match last_order_state st with
            | Some l => pyval_eqb s l
            | None => false
            end).
  - cbv beta iota zeta. rewrite Hdone, Hcancel.
    destruct (Hprogress w1) as (w2 & -> & Hnow & Hpolls).
    cbn [retry_delay]. rewrite time_sleep_nonneg by done.
    eexists _, _. split; [reflexivity|].
    cbn [consecutive_failures retry_delay advance now polls].
    rewrite Hnow, Hpolls. done.
  - cbv beta iota zeta. rewrite Hdone, Hcancel.
    destruct (Hprogress (logger (OrderState order_id s) w1))
      as (w2 & -> & Hnow & Hpolls).
    cbn [retry_delay]. rewrite time_sleep_nonneg by done.
    eexists _, _. split; [reflexivity|].
    cbn [consecutive_failures retry_delay advance now polls].
    rewrite Hnow, Hpolls. done.
Qed.

Lemma cache_state_failures order_id (order : option (gmap string PyVal)) st w :
  consecutive_failures (cache_state order_id order st w).1
  = consecutive_failures st.
Proof.
  unfold cache_state. destruct order as [d|]; [|done].
  destruct (d !! "state"%string) as [s|]; [|done].
  by destruct (match last_order_state st with
               | Some l => pyval_eqb s l
               | None => false
               end).
Qed.

Lemma on_exception_failures order_id (check_interval : Q) (e : string)
    st w st' w' :
  on_exception order_id check_interval e st w = Continue st' w' ->
  consecutive_failures st' = S (consecutive_failures st).
Proof.
  unfold on_exception.
  destruct (max_failures <=? S (consecutive_failures st))%nat; [done|].
  destruct (time_sleep _ _); [|done]. by intros [= <- _].
Qed.

(** Whatever a poll that returns (rather than raises) hands back, the
    failures counted before it are forgotten: the counter is reset
    first, and a malformed answer then counts as the first failure. *)
Lemma poll_once_return_resets ex order_id (check_interval : Q) st w
    (order : option (gmap string PyVal)) st' w' :
  get_order ex (polls w) order_id = Return order ->
  poll_once ex order_id check_interval st w = Continue st' w' ->
  (consecutive_failures st' <= 1)%nat.
Proof.
  intros Hreply. unfold poll_once, upbit_get_order. rewrite Hreply.
  pose proof (cache_state_failures order_id order
                {| consecutive_failures := 0;
                   last_order_state := last_order_state st;
                   retry_delay := retry_delay st |}
                {| now := now w + latency ex (polls w); polls := S (polls w);
                   log := log w; pending_orders := pending_orders w;
                   completed_orders := completed_orders w |}) as Hcache.
  destruct (cache_state order_id order _ _) as [st2 w2].
  cbn [fst consecutive_failures] in Hcache.
  assert (forall e st0 w0, consecutive_failures st0 = 0%nat ->
            on_exception order_id check_interval e st0 w0 = Continue st' w' ->
            (consecutive_failures st' <= 1)%nat) as Hhandler.
  { intros e st0 w0 Hzero H. apply on_exception_failures in H. lia. }
  destruct (subscript_state order) as [[d s]|e]; [|by apply Hhandler].
  destruct (pyval_eqb s (PStr "done")); [done|].
  destruct (pyval_eqb s (PStr "cancel")); [done|].
  destruct (if pyval_eqb s (PStr "wait")
            then report_progress order_id d w2 else Ok w2) as [w3|e];
    [|by apply Hhandler].
  cbn [retry_delay].
  destruct (time_sleep check_interval w3) as [w4|e].
  - intros [= <- _]. cbn [consecutive_failures]. lia.
  - by apply Hhandler.
Qed.

(** A client whose calls all raise: the loop gives up at the fifth
    consecutive failure, provided the deadline is further away than four
    capped delays and four calls. *)
Lemma error_run ex order_id (check_interval timeout start_time L : Q)
    (err : nat -> string) (extra : nat) :
  0 <= check_interval ->
  (forall k, get_order ex k order_id = Raise (err k)) ->
  (forall k, 0 <= latency ex k <= L) ->
  4 * (L + 5) < timeout ->
  forall (m : nat) st w,
    (consecutive_failures st + m = max_failures)%nat ->
    (1 <= m)%nat ->
    now w - start_time
    <= inject_Z (Z.of_nat (consecutive_failures st)) * (L + 5) ->
    exists w',
      poll_loop (m + extra) ex order_id timeout check_interval start_time st w
      = Some (Returned
                (Ok (error_result order_id (err (polls w + m - 1)%nat))) w')
      /\ polls w' = (polls w + m)%nat.
Proof.
  intros Hci Herr Hlat Hdeadline.
  assert (0 <= L) as HL.
  { destruct (Hlat 0%nat). lra. }
  induction m as [|m IH]; intros st w Hsum Hm Htime; [lia|].
  unfold max_failures in Hsum.
  assert (inject_Z (Z.of_nat (consecutive_failures st)) <= 4) as Hk.
  { change 4 with (inject_Z 4). rewrite <- Zle_Qle. lia. }
  assert (0 <= inject_Z (Z.of_nat (consecutive_failures st))) as Hk0.
  { change 0 with (inject_Z 0). rewrite <- Zle_Qle. lia. }
  change (S m + extra)%nat with (S (m + extra)). cbn [poll_loop].
  assert (Qltb (now w - start_time) timeout = true) as ->.
  { apply Qltb_lt.
    generalize dependent (inject_Z (Z.of_nat (consecutive_failures st))).
    intros K HK HK4 HK0.
    assert (K * (L + 5) <= 4 * (L + 5)) by (apply Qmult_le_compat_r; lra).
    lra. }
  rewrite (poll_once_raise _ _ _ (err (polls w))) by apply Herr.
  destruct m as [|m].
  - rewrite on_exception_exit by (unfold max_failures; lia).
    replace (polls w + 1 - 1)%nat with (polls w) by lia.
    eexists. split; [reflexivity|].
    cbn [polls logger upbit_get_order snd]. lia.
  - rewrite on_exception_continue by (done || unfold max_failures; lia).
    set (st' := {| consecutive_failures := S (consecutive_failures st);
                   last_order_state := last_order_state st;
                   retry_delay := backoff check_interval
                                    (S (consecutive_failures st)) |}).
    set (w1 := advance _ _).
    destruct (IH st' w1) as (w' & Hrun & Hpolls).
    + subst st'. cbn [consecutive_failures]. unfold max_failures. lia.
    + lia.
    + subst st' w1.
      cbn [consecutive_failures now advance logger upbit_get_order snd].
      rewrite Nat2Z.inj_succ, <- Z.add_1_r, inject_Z_plus.
      change (inject_Z 1) with 1.
      pose proof (backoff_le_cap check_interval
                    (S (consecutive_failures st))) as Hcap.
      destruct (Hlat (polls w)) as [_ Hl].
      generalize dependent (inject_Z (Z.of_nat (consecutive_failures st))).
      intros K HK HK4 HK0.
      assert ((K + 1) * (L + 5) == K * (L + 5) + L + 5) as -> by ring.
      generalize dependent (K * (L + 5)). intros KL HKL. lra.
    + exists w'. rewrite Hrun, Hpolls. subst w1.
      cbn [polls advance logger upbit_get_order snd].
      replace (S (polls w) + S m - 1)%nat
        with (polls w + S (S m) - 1)%nat by lia.
      split; [done|lia].
Qed.

(** C5.  A poll that raises increments the consecutive-failure counter;
    while the counter is below 5 the next delay is
    [min(check_interval * 2^failures, 5)] and the loop sleeps for it;
    when the counter reaches 5 the loop stops with an [error] result
    that carries the order id and the last error.  A poll that returns
    an open, well-formed order sets the counter to 0 and the delay to
    the check interval, and after any poll that returns the counter is
    at most 1 (a malformed answer is the first failure of a new run).
    A client whose every call raises gets the
    [error] result after exactly five calls, provided the deadline is
    further away than four calls and four capped delays. *)
Theorem C5_backoff_and_failure_ceiling ex order_id (check_interval : Q) st w :
  0 <= check_interval ->
  (forall e, get_order ex (polls w) order_id = Raise e ->
     let failures := S (consecutive_failures st) in
     let delay := Qmin (check_interval * inject_Z (2 ^ Z.of_nat failures)) 5 in
     ((failures < 5)%nat ->
      exists w',
        poll_once ex order_id check_interval st w
        = Continue {| consecutive_failures := failures;
                      last_order_state := last_order_state st;
                      retry_delay := delay |} w'
        /\ now w' = now w + latency ex (polls w) + delay
        /\ polls w' = S (polls w))
     /\ ((5 <= failures)%nat ->
         exists w',
           poll_once ex order_id check_interval st w
           = Exit (Ok (error_result order_id e)) w'
           /\ error_result order_id e !! "state"%string = Some (PStr "error")
           /\ error_result order_id e !! "uuid"%string = Some order_id
           /\ error_result order_id e !! "error"%string = Some (PStr e)
           /\ now w' = now w + latency ex (polls w)
           /\ polls w' = S (polls w)))
  /\ (forall (d : gmap string PyVal) (s : PyVal),
        get_order ex (polls w) order_id = Return (Some d) ->
        d !! "state"%string = Some s ->
        pyval_eqb s (PStr "done") = false ->
        pyval_eqb s (PStr "cancel") = false ->
        (forall v, d !! "volume"%string = Some v -> exists q, v = PNum q) ->
        (forall v, d !! "remaining_volume"%string = Some v ->
                   exists q, v = PNum q) ->
        exists st' w',
          poll_once ex order_id check_interval st w = Continue st' w'
          /\ consecutive_failures st' = 0%nat
          /\ retry_delay st' = check_interval
          /\ now w' = now w + latency ex (polls w) + check_interval
          /\ polls w' = S (polls w))
  /\ (forall (order : option (gmap string PyVal)) st' w',
        get_order ex (polls w) order_id = Return order ->
        poll_once ex order_id check_interval st w = Continue st' w' ->
        (consecutive_failures st' <= 1)%nat)
  /\ (forall (timeout : option Q) (L : Q) (err : nat -> string) (extra : nat),
        (forall k, get_order ex k order_id = Raise (err k)) ->
        (forall k, 0 <= latency ex k <= L) ->
        4 * (L + 5) < effective_timeout timeout ->
        exists w',
          monitor_order (5 + extra) ex order_id timeout check_interval w
          = Some (Ok (error_result order_id (err (polls w + 4)%nat)), w')
          /\ polls w' = (polls w + 5)%nat).
Proof.
  intros Hci. split; [|split; [|split]].
  - intros e Hreply failures delay. split.
    + intros Hlt. rewrite (poll_once_raise _ _ _ e) by done.
      rewrite on_exception_continue by (done || unfold max_failures; lia).
      eexists. split; [reflexivity|]. split; reflexivity.
    + intros Hle. rewrite (poll_once_raise _ _ _ e) by done.
      rewrite on_exception_exit by (unfold max_failures; lia).
      eexists. split; [reflexivity|].
      destruct (error_result_fields order_id e) as (H1 & H2 & H3).
      repeat (split; [done|]). split; reflexivity.
  - intros d s. by apply poll_once_open.
  - intros order st' w'. apply poll_once_return_resets.
  - intros timeout L err extra Herr Hlat Hdeadline.
    unfold monitor_order.
    destruct (error_run ex order_id check_interval (effective_timeout timeout)
                (now w) L err extra Hci Herr Hlat Hdeadline 5
                (initial_locals check_interval)
                (logger (MonitoringOrder order_id (effective_timeout timeout)) w))
      as (w' & Hrun & Hpolls).
    + reflexivity.
    + lia.
    + cbn [initial_locals consecutive_failures logger now].
      destruct (Hlat 0%nat). change (inject_Z (Z.of_nat 0)) with 0. lra.
    + rewrite Hrun. exists w'. split; [|exact Hpolls].
      cbn [polls logger].
      by replace (polls w + 5 - 1)%nat with (polls w + 4)%nat by lia.
Qed.

(** C5 at the client whose calls all raise, with the default deadline of
    60 seconds and check interval of half a second. *)
Lemma C5_backoff_and_failure_ceiling_witness :
  exists w',
    monitor_order 5 always_error (PStr "o1") None 0.5 boot
    = Some (Ok (error_result (PStr "o1") "connection reset"), w')
    /\ polls w' = 5%nat.
Proof.
  assert (0 <= 0.5) as Hci by (vm_compute; discriminate).
  destruct (C5_backoff_and_failure_ceiling always_error (PStr "o1") 0.5
              (initial_locals 0.5) boot Hci) as (_ & _ & _ & Hrun).
  apply (Hrun None 0 (fun _ => "connection reset"%string) 0%nat).
  - reflexivity.
  - intros k. cbn. lra.
  - vm_compute. reflexivity.
Defined.

(** *** Time and the log along a run *)

Lemma same_starts_refl w : same_starts w w.
Proof. by split. Qed.

Lemma same_starts_trans w1 w2 w3 :
  same_starts w1 w2 -> same_starts w2 w3 -> same_starts w1 w3.
Proof. intros [H1 H2] [H3 H4]. split; congruence. Qed.

Lemma same_starts_log w w' : log w' = log w -> same_starts w w'.
Proof. intros H. unfold same_starts. by rewrite H. Qed.

Lemma batch_records_logger (m : LogMsg) w :
  batch_records (log (logger m w))
  = batch_records (log w)
    ++ match m with
       | MonitoringBatchOrder _ _ order_id remaining =>
           [(now w, order_id, remaining)]
       | _ => []
       end.
Proof.
  unfold batch_records. cbn [logger log]. rewrite omap_app. f_equal.
  by destruct m.
Qed.

Lemma monitor_records_logger (m : LogMsg) w :
  monitor_records (log (logger m w))
  = monitor_records (log w)
    ++ match m with
       | MonitoringOrder order_id timeout => [(order_id, timeout)]
       | _ => []
       end.
Proof.
  unfold monitor_records. cbn [logger log]. rewrite omap_app. f_equal.
  by destruct m.
Qed.

Lemma same_starts_logger (m : LogMsg) w :
  match m with
  | MonitoringBatchOrder _ _ _ _ | MonitoringOrder _ _ => False
  | _ => True
  end ->
  same_starts w (logger m w).
Proof.
  intros Hm. split.
  - rewrite batch_records_logger. destruct m; by rewrite ?app_nil_r.
  - rewrite monitor_records_logger. destruct m; by rewrite ?app_nil_r.
Qed.

Lemma on_exception_spec order_id (check_interval : Q) (e : string) st w :
  0 <= check_interval ->
  match on_exception order_id check_interval e st w with
  | Continue _ w' =>
      now w + Qmin check_interval 5 <= now w' /\ same_starts w w'
  | Exit result w' =>
      now w <= now w' /\ same_starts w w' /\ exists d, result = Ok d
  end.
Proof.
  intros Hci. unfold on_exception.
  pose proof (backoff_ge check_interval (S (consecutive_failures st)) Hci)
    as Hge.
  pose proof (backoff_nonneg check_interval (S (consecutive_failures st)) Hci).
  destruct (max_failures <=? S (consecutive_failures st))%nat.
  - split; [cbn [now logger]; lra|]. split; [|by eexists].
    eapply same_starts_trans;
      [by apply (same_starts_logger
                   (ErrorMonitoring order_id (S (consecutive_failures st)) e))
      |by apply (same_starts_logger
                   (TooManyFailures (S (consecutive_failures st)) order_id))].
  - rewrite time_sleep_nonneg by done. split.
    + cbn [now advance logger]. lra.
    + eapply same_starts_trans;
        [by apply (same_starts_logger
                     (ErrorMonitoring order_id (S (consecutive_failures st)) e))|].
      by apply same_starts_log.
Qed.

Lemma cache_state_spec order_id (order : option (gmap string PyVal)) st w :
  now (cache_state order_id order st w).2 = now w
  /\ same_starts w (cache_state order_id order st w).2.
Proof.
  unfold cache_state.
  destruct order as [d|]; [|split; [done|apply same_starts_refl]].
  destruct (d !! "state"%string) as [s|];
    [|split; [done|apply same_starts_refl]].
  destruct (match last_order_state st with
            | Some l => pyval_eqb s l
            | None => false
            end); cbn [snd].
  - split; [done|apply same_starts_refl].
  - split; [done|]. by apply same_starts_logger.
Qed.

Lemma report_progress_spec order_id (d : gmap string PyVal) w w' :
  report_progress order_id d w = Ok w' ->
  now w' = now w /\ same_starts w w'.
Proof.
  unfold report_progress.
  destruct (d !! "volume"%string) as [v|];
    [|intros [= <-]; split; [done|apply same_starts_refl]].
  destruct (d !! "remaining_volume"%string) as [r|];
    [|intros [= <-]; split; [done|apply same_starts_refl]].
  destruct (py_float v) as [volume|]; [|done].
  destruct (py_float r) as [remaining|]; [|done].
  destruct (Qltb 0 volume && Qltb remaining volume); intros [= <-].
  - split; [done|]. by apply same_starts_logger.
  - split; [done|apply same_starts_refl].
Qed.

(** One pass of the loop body moves the clock forward, by at least the
    smaller of the check interval and 5 seconds when the loop goes on,
    logs no start of a monitoring, and raises nothing. *)
Lemma poll_once_spec ex order_id (check_interval : Q) st w :
  0 <= check_interval ->
  (forall k, 0 <= latency ex k) ->
  match poll_once ex order_id check_interval st w with
  | Continue _ w' =>
      now w + Qmin check_interval 5 <= now w' /\ same_starts w w'
  | Exit result w' =>
      now w <= now w' /\ same_starts w w' /\ exists d, result = Ok d
  end.
Proof.
  intros Hci Hlat. unfold poll_once, upbit_get_order.
  set (w1 := {| now := now w + latency ex (polls w); polls := S (polls w);
                log := log w; pending_orders := pending_orders w;
                completed_orders := completed_orders w |}).
  assert (now w <= now w1) as Hw1.
  { cbn [now w1]. pose proof (Hlat (polls w)). lra. }
  assert (same_starts w w1) as Hs1 by by apply same_starts_log.
  assert (forall e st0 w0,
            now w <= now w0 -> same_starts w w0 ->
            match on_exception order_id check_interval e st0 w0 with
            | Continue _ w' =>
                now w + Qmin check_interval 5 <= now w' /\ same_starts w w'
            | Exit result w' =>
                now w <= now w' /\ same_starts w w' /\ exists d, result = Ok d
            end) as Hhandler.
  { intros e st0 w0 Hnow Hsame.
    pose proof (on_exception_spec order_id check_interval e st0 w0 Hci) as H.
    destruct (on_exception order_id check_interval e st0 w0) as [st' w'|r w'].
    - destruct H as [H1 H2]. split; [lra|by eapply same_starts_trans].
    - destruct H as (H1 & H2 & H3).
      split; [lra|]. split; [by eapply same_starts_trans|done]. }
  destruct (get_order ex (polls w) order_id) as [e|order]; [by apply Hhandler|].
  pose proof (cache_state_spec order_id order
                {| consecutive_failures := 0;
                   last_order_state := last_order_state st;
                   retry_delay := retry_delay st |} w1) as [Hnow2 Hs2].
  destruct (cache_state order_id order _ w1) as [st2 w2]. cbn [snd] in *.
  assert (now w <= now w2) as Hw2 by (rewrite Hnow2; exact Hw1).
  assert (same_starts w w2) as Hsame2 by by eapply same_starts_trans.
  destruct (subscript_state order) as [[d s]|e]; [|by apply Hhandler].
  destruct (pyval_eqb s (PStr "done")).
  { split; [done|]. split; [|by eexists].
    eapply same_starts_trans; [exact Hsame2|].
    eapply same_starts_trans;
      [by apply (same_starts_logger (OrderCompleted order_id))|].
    by apply same_starts_log. }
  destruct (pyval_eqb s (PStr "cancel")).
  { split; [done|]. split; [|by eexists].
    eapply same_starts_trans; [exact Hsame2|]. by apply same_starts_logger. }
  assert (forall w3, now w3 = now w2 -> same_starts w2 w3 ->
            match
              match time_sleep check_interval w3 with
              | Ok w4 =>
                  Continue
                    {| consecutive_failures := consecutive_failures st2;
                       last_order_state := last_order_state st2;
                       retry_delay := check_interval |} w4
              | Exn e =>
                  on_exception order_id check_interval e
                    {| consecutive_failures := consecutive_failures st2;
                       last_order_state := last_order_state st2;
                       retry_delay := check_interval |} w3
              end
            with
            | Continue _ w' =>
                now w + Qmin check_interval 5 <= now w' /\ same_starts w w'
            | Exit result w' =>
                now w <= now w' /\ same_starts w w' /\ exists d, result = Ok d
            end) as Hsleep.
  { intros w3 Hnow3 Hs3. rewrite time_sleep_nonneg by done. split.
    - cbn [now advance]. rewrite Hnow3.
      pose proof (Q.le_min_l check_interval 5). lra.
    - eapply same_starts_trans; [exact Hsame2|].
      eapply same_starts_trans; [exact Hs3|]. by apply same_starts_log. }
  destruct (pyval_eqb s (PStr "wait")).
  - destruct (report_progress order_id d w2) as [w3|e] eqn:Hprog.
    + apply report_progress_spec in Hprog as [Hnow3 Hs3].
      cbn [retry_delay]. by apply Hsleep.
    + by apply Hhandler.
  - cbn [retry_delay]. apply Hsleep; [done|apply same_starts_refl].
Qed.

Lemma poll_loop_spec ex order_id (timeout check_interval start_time : Q) :
  0 <= check_interval ->
  (forall k, 0 <= latency ex k) ->
  forall (fuel : nat) st w,
    match poll_loop fuel ex order_id timeout check_interval start_time st w with
    | Some (Returned result w') =>
        now w <= now w' /\ same_starts w w' /\ exists d, result = Ok d
    | Some (Deadline _ w') => now w <= now w' /\ same_starts w w'
    | None => True
    end.
Proof.
  intros Hci Hlat. induction fuel as [|fuel IH]; intros st w; cbn [poll_loop].
  - destruct (Qltb (now w - start_time) timeout); [done|].
    split; [lra|apply same_starts_refl].
  - destruct (Qltb (now w - start_time) timeout);
      [|split; [lra|apply same_starts_refl]].
    pose proof (poll_once_spec ex order_id check_interval st w Hci Hlat) as H.
    destruct (poll_once ex order_id check_interval st w) as [st' w1|r w1];
      [|done].
    destruct H as [Hnow Hsame]. specialize (IH st' w1).
    pose proof (Q.min_glb check_interval 5 0 Hci ltac:(lra)) as Hmin.
    destruct (poll_loop fuel ex order_id timeout check_interval start_time
                st' w1) as [[r w'|st'' w']|]; [| |done].
    + destruct IH as (H1 & H2 & H3).
      split; [lra|]. split; [by eapply same_starts_trans|done].
    + destruct IH as (H1 & H2). split; [lra|by eapply same_starts_trans].
Qed.

(** The loop ends: [n] passes are enough when the time left to the
    deadline is at most [n] times the smaller of the check interval and
    5 seconds. *)
Lemma poll_loop_total ex order_id (timeout check_interval start_time : Q) :
  0 < check_interval ->
  (forall k, 0 <= latency ex k) ->
  forall (n fuel : nat) st w,
    (n <= fuel)%nat ->
    timeout - (now w - start_time)
    <= inject_Z (Z.of_nat n) * Qmin check_interval 5 ->
    exists e,
      poll_loop fuel ex order_id timeout check_interval start_time st w
      = Some e.
Proof.
  intros Hci Hlat.
  assert (0 < Qmin check_interval 5) as Hdelta by (apply Q.min_glb_lt; lra).
  induction n as [|n IH]; intros fuel st w Hfuel Hleft.
  - change (inject_Z (Z.of_nat 0)) with 0 in Hleft.
    assert (Qltb (now w - start_time) timeout = false) as Hover.
    { apply Qltb_ge. lra. }
    destruct fuel; cbn [poll_loop]; rewrite Hover; by eexists.
  - destruct fuel as [|fuel]; [lia|]. cbn [poll_loop].
    destruct (Qltb (now w - start_time) timeout); [|by eexists].
    pose proof (poll_once_spec ex order_id check_interval st w
                  (Qlt_le_weak _ _ Hci) Hlat) as H.
    destruct (poll_once ex order_id check_interval st w) as [st' w1|r w1];
      [|by eexists].
    destruct H as [Hnow _]. apply IH; [lia|].
    rewrite Nat2Z.inj_succ, <- Z.add_1_r, inject_Z_plus in Hleft.
    change (inject_Z 1) with 1 in Hleft.
    assert ((inject_Z (Z.of_nat n) + 1) * Qmin check_interval 5
            == inject_Z (Z.of_nat n) * Qmin check_interval 5
               + Qmin check_interval 5) as E by ring.
    rewrite E in Hleft. lra.
Qed.

Lemma rational_archimedean (x delta : Q) :
  0 < delta -> exists n : nat, x <= inject_Z (Z.of_nat n) * delta.
Proof.
  intros Hdelta. exists (Z.to_nat (Qceiling (x / delta))).
  assert (x / delta <= inject_Z (Z.of_nat (Z.to_nat (Qceiling (x / delta)))))
    as Hle.
  { eapply Qle_trans; [apply Qle_ceiling|]. rewrite <- Zle_Qle. lia. }
  assert (x == x / delta * delta) as Hx by (field; lra).
  rewrite Hx at 1. apply Qmult_le_compat_r; [exact Hle|lra].
Qed.

Lemma final_status_check_spec ex order_id (start_time : Q) w :
  (forall k, 0 <= latency ex k) ->
  now w <= now (final_status_check ex order_id start_time w).2
  /\ same_starts w (final_status_check ex order_id start_time w).2.
Proof.
  intros Hlat. unfold final_status_check, upbit_get_order.
  change (polls (logger ?m w)) with (polls w).
  set (w0 := logger (TimedOut order_id (now w - start_time)) w).
  set (w1 := {| now := now w0 + latency ex (polls w); polls := S (polls w);
                log := log w0; pending_orders := pending_orders w0;
                completed_orders := completed_orders w0 |}).
  assert (now w <= now w1) as Hnow.
  { cbn [now w1 w0 logger]. pose proof (Hlat (polls w)). lra. }
  assert (same_starts w w1) as Hsame.
  { eapply same_starts_trans;
      [by apply (same_starts_logger
                   (TimedOut order_id (now w - start_time)))|].
    by apply same_starts_log. }
  assert (forall m,
            match m with
            | MonitoringBatchOrder _ _ _ _ | MonitoringOrder _ _ => False
            | _ => True
            end ->
            now w <= now (logger m w1) /\ same_starts w (logger m w1))
    as Hlog.
  { intros m Hm. split; [done|].
    eapply same_starts_trans; [exact Hsame|]. by apply same_starts_logger. }
  destruct (get_order ex (polls w) order_id) as [e|[d|]]; cbn [snd].
  - by apply Hlog.
  - destruct (size d =? 0)%nat; [done|].
    destruct (d !! "state"%string) as [s|]; [|by apply Hlog].
    destruct (pyval_eqb s (PStr "done")); by apply Hlog.
  - done.
Qed.

(** A call of [monitor_order] that returns: the clock has not gone back,
    the log has gained exactly one monitoring start, with the timeout
    the call runs with, and no batch announcement, and nothing was
    raised. *)
Lemma monitor_order_spec (fuel : nat) ex order_id (timeout : option Q)
    (check_interval : Q) w (result : Res (gmap string PyVal)) w' :
  0 <= check_interval ->
  (forall k, 0 <= latency ex k) ->
  monitor_order fuel ex order_id timeout check_interval w = Some (result, w') ->
  now w <= now w'
  /\ batch_records (log w') = batch_records (log w)
  /\ monitor_records (log w')
     = monitor_records (log w) ++ [(order_id, effective_timeout timeout)]
  /\ exists d, result = Ok d.
Proof.
  intros Hci Hlat. unfold monitor_order.
  set (w0 := logger (MonitoringOrder order_id (effective_timeout timeout)) w).
  pose proof (poll_loop_spec ex order_id (effective_timeout timeout)
                check_interval (now w) Hci Hlat fuel
                (initial_locals check_interval) w0) as Hloop.
  assert (batch_records (log w0) = batch_records (log w)) as Hb.
  { subst w0. rewrite batch_records_logger. apply app_nil_r. }
  assert (monitor_records (log w0)
          = monitor_records (log w)
            ++ [(order_id, effective_timeout timeout)]) as Hm.
  { subst w0. by rewrite monitor_records_logger. }
  destruct (poll_loop fuel ex order_id (effective_timeout timeout)
              check_interval (now w) (initial_locals check_interval) w0)
    as [[r w1|st w1]|]; [| |done].
  - intros [= <- <-]. destruct Hloop as (H1 & [H2 H3] & H4).
    split; [exact H1|]. split; [congruence|]. split; [congruence|done].
  - pose proof (final_status_check_spec ex order_id (now w) w1 Hlat)
      as [H5 [H6 H7]].
    destruct (final_status_check ex order_id (now w) w1) as [d w2].
    cbn [snd] in *. intros [= <- <-]. destruct Hloop as (H1 & [H2 H3]).
    split; [change (now w0) with (now w) in H1; lra|].
    split; [congruence|]. split; [congruence|by eexists].
Qed.

Lemma monitor_order_total ex order_id (timeout : option Q)
    (check_interval : Q) (n fuel : nat) w :
  0 < check_interval ->
  (forall k, 0 <= latency ex k) ->
  (n <= fuel)%nat ->
  effective_timeout timeout <= inject_Z (Z.of_nat n) * Qmin check_interval 5 ->
  exists result w',
    monitor_order fuel ex order_id timeout check_interval w
    = Some (result, w').
Proof.
  intros Hci Hlat Hfuel Hn. unfold monitor_order.
  destruct (poll_loop_total ex order_id (effective_timeout timeout)
              check_interval (now w) Hci Hlat n fuel
              (initial_locals check_interval)
              (logger (MonitoringOrder order_id (effective_timeout timeout)) w)
              Hfuel) as [e ->].
  { cbn [now logger]. lra. }
  destruct e as [r w1|st w1]; [by eexists _, _|].
  destruct (final_status_check ex order_id (now w) w1). by eexists _, _.
Qed.

(** *** Batches *)

Lemma remaining_timeout_ge_1 (x : Q) : 1 <= Qmax 1 x.
Proof. apply Q.le_max_l. Qed.

Lemma effective_timeout_remaining (x : Q) :
  effective_timeout (Some (Qmax 1 x)) = Qmax 1 x.
Proof.
  unfold effective_timeout.
  destruct (Qeq_bool (Qmax 1 x) 0) eqn:E; [|done].
  apply Qeq_bool_iff in E. pose proof (remaining_timeout_ge_1 x). lra.
Qed.

(** The loop over the batch: each order that has an id is announced with
    the timeout [max(1, timeout - elapsed)] computed at that moment, and
    [monitor_order] is then called with that timeout. *)
Lemma wait_loop_spec (fuel : nat) ex (timeout start_time : Q) (count : nat) :
  (forall k, 0 <= latency ex k) ->
  forall (orders : list (gmap string PyVal)) (i : nat)
    (results : list (PyVal * gmap string PyVal)) w results' w',
    wait_loop fuel ex timeout start_time count i orders results w
    = Some (Ok results', w') ->
    exists started : list (Q * PyVal * Q),
      batch_records (log w') = batch_records (log w) ++ started
      /\ monitor_records (log w')
         = monitor_records (log w) ++ ((fun r => (r.1.2, r.2)) <$> started)
      /\ (fun r => r.1.2) <$> started = uuids orders
      /\ Forall (fun r => r.2 = Qmax 1 (timeout - (r.1.1 - start_time))
                          /\ 1 <= r.2) started.
Proof.
  intros Hlat. induction orders as [|order orders IH];
    intros i results w results' w' Hrun.
  - injection Hrun as <- <-. exists []. by rewrite !app_nil_r.
  - cbn [wait_loop] in Hrun. unfold uuids. cbn [omap list_omap].
    fold (uuids orders).
    destruct (order !! "uuid"%string) as [order_id|]; [|by eapply IH].
    set (remaining := Qmax 1 (timeout - (now w - start_time))) in *.
    set (w0 := logger (MonitoringBatchOrder i count order_id remaining) w) in *.
    destruct (monitor_order fuel ex order_id (Some remaining) 0.5 w0)
      as [[[result|e] w1]|] eqn:Hmon; [|done..].
    apply monitor_order_spec in Hmon as (_ & Hb & Hm & _);
      [|lra|done].
    destruct (IH _ _ _ _ _ Hrun) as (started & Hb' & Hm' & Hids & Hall).
    exists ((now w, order_id, remaining) :: started).
    subst w0. rewrite batch_records_logger in Hb.
    rewrite monitor_records_logger, app_nil_r in Hm.
    unfold remaining in Hm at 1. rewrite effective_timeout_remaining in Hm.
    fold remaining in Hm.
    split; [by rewrite Hb', Hb, <- app_assoc|].
    split; [by rewrite Hm', Hm, <- app_assoc|].
    split; [by rewrite fmap_cons, Hids|].
    constructor; [|done]. cbn [fst snd].
    split; [done|apply remaining_timeout_ge_1].
Qed.

(** The loop over the batch returns, whatever the elapsed time. *)
Lemma wait_loop_total ex (timeout start_time : Q) (count n fuel : nat) :
  (forall k, 0 <= latency ex k) ->
  (n <= fuel)%nat ->
  Qmax 1 timeout <= inject_Z (Z.of_nat n) * Qmin 0.5 5 ->
  forall (orders : list (gmap string PyVal)) (i : nat)
    (results : list (PyVal * gmap string PyVal)) w,
    start_time <= now w ->
    exists results' w',
      wait_loop fuel ex timeout start_time count i orders results w
      = Some (Ok results', w').
Proof.
  intros Hlat Hfuel Hn. induction orders as [|order orders IH];
    intros i results w Hstart; [by eexists _, _|].
  cbn [wait_loop].
  destruct (order !! "uuid"%string) as [order_id|]; [|by apply IH].
  set (remaining := Qmax 1 (timeout - (now w - start_time))).
  set (w0 := logger (MonitoringBatchOrder i count order_id remaining) w).
  destruct (monitor_order_total ex order_id (Some remaining) 0.5 n fuel w0)
    as (result & w1 & Hmon); [lra|done|done| |].
  { unfold remaining at 1. rewrite effective_timeout_remaining.
    eapply Qle_trans; [|exact Hn]. subst remaining.
    apply Q.max_lub; [apply Q.le_max_l|].
    eapply Qle_trans; [|apply Q.le_max_r]. lra. }
  rewrite Hmon.
  apply monitor_order_spec in Hmon as (Hnow & _ & _ & [d ->]); [|lra|done].
  apply IH. change (now w0) with (now w) in Hnow. lra.
Qed.

(** [wait_for_orders_completion] returns a result for every batch
    (enough passes of the polling loops are always found), and in every
    run each order that has an id, in the order of the batch, is
    announced with the timeout [max(1, timeout - elapsed)] for the
    [elapsed] of that moment and monitored with exactly that timeout,
    which is at least one second however much of the shared deadline has
    gone.  Three orders that stay open with [timeout = 2] take 4
    seconds. *)
Lemma batch_timeouts ex (orders : list (gmap string PyVal))
    (timeout : Q) w :
  (forall k, 0 <= latency ex k) ->
  (exists fuel0 : nat, forall fuel : nat, (fuel0 <= fuel)%nat ->
     exists results w',
       wait_for_orders_completion fuel ex orders timeout w
       = Some (Ok results, w'))
  /\ (forall (fuel : nat) results w',
        wait_for_orders_completion fuel ex orders timeout w
        = Some (Ok results, w') ->
        exists started : list (Q * PyVal * Q),
          batch_records (log w') = batch_records (log w) ++ started
          /\ monitor_records (log w')
             = monitor_records (log w) ++ ((fun r => (r.1.2, r.2)) <$> started)
          /\ (fun r => r.1.2) <$> started = uuids orders
          /\ Forall (fun r => r.2 = Qmax 1 (timeout - (r.1.1 - now w))
                              /\ 1 <= r.2) started)
  /\ (exists results w',
        wait_for_orders_completion 10 always_wait three_orders 2 boot
        = Some (Ok results, w')
        /\ (fun r => (Qred r.1.1, r.1.2, r.2)) <$> batch_records (log w')
           = [(0, PStr "o1", 2); (2, PStr "o2", 1); (3, PStr "o3", 1)]
        /\ now w' == 4).
Proof.
  intros Hlat. split; [|split].
  - destruct (rational_archimedean (Qmax 1 timeout) (Qmin 0.5 5))
      as [n Hn]; [by vm_compute|].
    exists n. intros fuel Hfuel. unfold wait_for_orders_completion.
    destruct (wait_loop_total ex timeout
                (now (logger (WaitingForOrders (length orders) timeout) w))
                (length orders) n fuel Hlat Hfuel Hn orders 1%nat []
                (logger (WaitingForOrders (length orders) timeout) w))
      as (results & w' & ->); [lra|].
    by eexists _, _.
  - intros fuel results w'. unfold wait_for_orders_completion.
    set (w0 := logger (WaitingForOrders (length orders) timeout) w).
    destruct (wait_loop fuel ex timeout (now w0) (length orders) 1 orders [] w0)
      as [[[results0|e] w1]|] eqn:Hrun; [|done..].
    intros [= <- <-].
    destruct (wait_loop_spec fuel ex timeout (now w0) (length orders) Hlat
                _ _ _ _ _ _ Hrun) as (started & Hb & Hm & Hids & Hall).
    exists started.
    rewrite batch_records_logger, monitor_records_logger, !app_nil_r.
    subst w0. rewrite batch_records_logger, app_nil_r in Hb.
    rewrite monitor_records_logger, app_nil_r in Hm.
    by change (now (logger ?m w)) with (now w) in Hall.
  - destruct (wait_for_orders_completion 10 always_wait three_orders 2 boot)
      as [[[results|e] w']|] eqn:Hrun; [|vm_compute in Hrun; discriminate..].
    exists results, w'. split; [done|].
    vm_compute in Hrun. injection Hrun as _ <-. by vm_compute.
Qed.

End OrderMonitor.

Example always_wait_run :
  match ImprovedOrderManager.monitor_order 10 ImprovedOrderManager.always_wait
          (PStr "o1") (Some 1) 0.5 ImprovedOrderManager.boot with
  | Some (Ok d, w) =>
      d !! "state"%string = Some (PStr "wait")
      /\ ImprovedOrderManager.polls w = 3%nat
  | _ => False
  end.
Proof. vm_compute. split; reflexivity. Qed.

Example always_error_run :
  match ImprovedOrderManager.monitor_order 10 ImprovedOrderManager.always_error
          (PStr "o1") None 0.5 ImprovedOrderManager.boot with
  | Some (Ok d, w) =>
      d !! "state"%string = Some (PStr "error")
      /\ ImprovedOrderManager.polls w = 5%nat
      /\ Qred (ImprovedOrderManager.now w) = 12
  | _ => False
  end.
Proof. vm_compute. repeat split; reflexivity. Qed.

Example scenario_A :
  option_map Qred
    (CapitalAllocator.allocate_capital_dynamically CapitalAllocator.init
       1000000 CapitalAllocator.scenario !! Some "A"%string) = Some 294000.
Proof. vm_compute. reflexivity. Qed.

(* ================================================================== *)
(** * Further properties of the embedded code *)

(** ** Retries of [cancel_order] and [get_order_status] *)

Section Retries.
Import ImprovedOrderManager.
Implicit Types (ex : Exchange) (order_id : PyVal) (w : World).

(** [cancel_order] reports success exactly when one of at most three
    attempts succeeds.  It pauses one second after a failed attempt that
    is not the last, so a success at attempt [k] (counted from 0) comes
    after [k] pauses and three failures take two pauses. *)
Theorem cancel_order_retries (api : CancelApi) order_id w :
  (forall k : nat, (k < 3)%nat ->
     (forall j, (j < k)%nat -> exists e, cancel_call api j order_id = Exn e) ->
     (exists u, cancel_call api k order_id = Ok u) ->
     (cancel_order api order_id w).1.1 = true
     /\ now (cancel_order api order_id w).1.2
        == now w + total_latency (cancel_latency api) (S k)
           + inject_Z (Z.of_nat k)
     /\ last (cancel_order api order_id w).2 = Some (Cancelled order_id))
  /\ ((forall j, (j < 3)%nat -> exists e, cancel_call api j order_id = Exn e) ->
      (cancel_order api order_id w).1.1 = false
      /\ now (cancel_order api order_id w).1.2
         == now w + total_latency (cancel_latency api) 3 + 2
      /\ last (cancel_order api order_id w).2 = Some (FailedToCancel order_id 3))
  /\ ((cancel_order api order_id w).1.1 = true ->
      exists k u, (k < 3)%nat /\ cancel_call api k order_id = Ok u).
Proof.
  unfold cancel_order, total_latency, py_sum. split; [|split].
  - intros k Hk Hfail [u Hok].
    destruct k as [|[|[|k]]]; [| | |lia].
    + cbn. rewrite Hok. cbn. split; [done|]. split; [ring|done].
    + destruct (Hfail 0%nat ltac:(lia)) as [e0 H0].
      cbn. rewrite H0. cbn. rewrite Hok. cbn.
      split; [done|]. split; [ring|done].
    + destruct (Hfail 0%nat ltac:(lia)) as [e0 H0].
      destruct (Hfail 1%nat ltac:(lia)) as [e1 H1].
      cbn. rewrite H0. cbn. rewrite H1. cbn. rewrite Hok. cbn.
      split; [done|]. split; [ring|done].
  - intros Hfail.
    destruct (Hfail 0%nat ltac:(lia)) as [e0 H0].
    destruct (Hfail 1%nat ltac:(lia)) as [e1 H1].
    destruct (Hfail 2%nat ltac:(lia)) as [e2 H2].
    cbn. rewrite H0. cbn. rewrite H1. cbn. rewrite H2. cbn.
    split; [done|]. split; [ring|done].
  - cbn.
    destruct (cancel_call api 0 order_id) as [u|e0] eqn:H0;
      [intros _; exists 0%nat, u; split; [lia|done]|].
    cbn.
    destruct (cancel_call api 1 order_id) as [u|e1] eqn:H1;
      [intros _; exists 1%nat, u; split; [lia|done]|].
    cbn.
    destruct (cancel_call api 2 order_id) as [u|e2] eqn:H2;
      [intros _; exists 2%nat, u; split; [lia|done]|].
    cbn. discriminate.
Qed.

(** [cancel_order] at an exchange that refuses twice and then accepts. *)
Lemma cancel_order_retries_witness :
  let api := mkCancelApi
               (fun k _ => if (k <? 2)%nat then Exn "busy" else Ok tt)
               (fun _ => 0.1) in
  (cancel_order api (PStr "o1") boot).1.1 = true
  /\ now (cancel_order api (PStr "o1") boot).1.2
     == now boot + total_latency (cancel_latency api) 3 + inject_Z (Z.of_nat 2).
Proof.
  intros api.
  destruct (cancel_order_retries api (PStr "o1") boot) as [Hok _].
  destruct (Hok 2%nat) as (H1 & H2 & _).
  - lia.
  - intros j Hj. exists "busy"%string.
    destruct j as [|[|j]]; [reflexivity|reflexivity|lia].
  - by exists tt.
  - split; [exact H1|exact H2].
Defined.

(** [get_order_status] hands back what the first call that does not raise
    returns, whatever it is, after one pause per earlier failure; after
    three failures it returns the [unknown] dictionary, having made
    exactly three calls and paused twice. *)
Theorem get_order_status_retries ex order_id w :
  (forall (k : nat) (order : option (gmap string PyVal)), (k < 3)%nat ->
     (forall j, (j < k)%nat ->
        exists e, get_order ex (polls w + j) order_id = Raise e) ->
     get_order ex (polls w + k) order_id = Return order ->
     (get_order_status ex order_id w).1.1 = order
     /\ polls (get_order_status ex order_id w).1.2 = (polls w + S k)%nat
     /\ now (get_order_status ex order_id w).1.2
        == now w + total_latency (fun j => latency ex (polls w + j)) (S k)
           + inject_Z (Z.of_nat k))
  /\ ((forall j, (j < 3)%nat ->
         exists e, get_order ex (polls w + j) order_id = Raise e) ->
      (get_order_status ex order_id w).1.1 = Some (unknown_result order_id)
      /\ unknown_result order_id !! "state"%string = Some (PStr "unknown")
      /\ unknown_result order_id !! "uuid"%string = Some order_id
      /\ polls (get_order_status ex order_id w).1.2 = (polls w + 3)%nat
      /\ now (get_order_status ex order_id w).1.2
         == now w + total_latency (fun j => latency ex (polls w + j)) 3 + 2).
Proof.
  unfold get_order_status, total_latency, py_sum.
  assert (forall n, (polls w + S n)%nat = S (polls w + n)) as HS by (intros; lia).
  split.
  - intros k order Hk Hfail Hok.
    destruct k as [|[|[|k]]]; [| | |lia].
    + rewrite Nat.add_0_r in Hok.
      cbn. rewrite Hok. cbn. split; [done|]. split; [lia|].
      rewrite Nat.add_0_r. ring.
    + destruct (Hfail 0%nat ltac:(lia)) as [e0 H0].
      rewrite Nat.add_0_r in H0. rewrite HS, Nat.add_0_r in Hok.
      cbn. rewrite H0. cbn. rewrite Hok. cbn. split; [done|]. split; [lia|].
      rewrite HS, !Nat.add_0_r. ring.
    + destruct (Hfail 0%nat ltac:(lia)) as [e0 H0].
      destruct (Hfail 1%nat ltac:(lia)) as [e1 H1].
      rewrite Nat.add_0_r in H0. rewrite HS, Nat.add_0_r in H1.
      rewrite !HS, Nat.add_0_r in Hok.
      cbn. rewrite H0. cbn. rewrite H1. cbn. rewrite Hok. cbn.
      split; [done|]. split; [lia|].
      rewrite !HS, !Nat.add_0_r. ring.
  - intros Hfail.
    destruct (Hfail 0%nat ltac:(lia)) as [e0 H0].
    destruct (Hfail 1%nat ltac:(lia)) as [e1 H1].
    destruct (Hfail 2%nat ltac:(lia)) as [e2 H2].
    rewrite Nat.add_0_r in H0. rewrite HS, Nat.add_0_r in H1.
    rewrite !HS, Nat.add_0_r in H2.
    assert (unknown_result order_id !! "state"%string = Some (PStr "unknown"))
      as Hstate by apply lookup_insert_eq.
    assert (unknown_result order_id !! "uuid"%string = Some order_id) as Huuid.
    { unfold unknown_result. rewrite lookup_insert_ne by done.
      apply lookup_insert_eq. }
    split; [|split; [exact Hstate|split; [exact Huuid|]]].
    all: cbn; rewrite H0; cbn; rewrite H1; cbn; rewrite H2; cbn.
    + done.
    + split; [lia|]. rewrite !HS, !Nat.add_0_r. ring.
Qed.

(** [get_order_status] at the client whose calls all raise. *)
Lemma get_order_status_retries_witness :
  (get_order_status always_error (PStr "o1") boot).1.1
  = Some (unknown_result (PStr "o1"))
  /\ polls (get_order_status always_error (PStr "o1") boot).1.2 = 3%nat.
Proof.
  destruct (get_order_status_retries always_error (PStr "o1") boot)
    as [_ Hfail].
  destruct Hfail as (H1 & _ & _ & H2 & _).
  - intros j _. by exists "connection reset"%string.
  - split; [exact H1|exact H2].
Defined.

End Retries.

(** ** Dictionaries keyed by values *)

Section Dictionaries.
Context {V : Type}.
Implicit Types (k : PyVal) (v : V) (d : list (PyVal * V)).

Lemma pyval_eqb_refl k : pyval_eqb k k = true.
Proof. destruct k; [apply String.eqb_refl | apply Qeq_bool_refl]. Qed.

(** Storing then reading a key gives the stored value. *)
Lemma dict_get_set k v d : dict_get k (dict_set k v d) = Some v.
Proof.
  induction d as [|[k' v'] d IH]; cbn.
  - by rewrite pyval_eqb_refl.
  - destruct (pyval_eqb k' k) eqn:E; cbn; by rewrite E.
Qed.

Lemma dict_mem_set_same k v d : dict_mem k (dict_set k v d) = true.
Proof.
  unfold dict_mem. induction d as [|[k' v'] d IH]; cbn.
  - by rewrite pyval_eqb_refl.
  - destruct (pyval_eqb k' k) eqn:E; cbn; rewrite E; [done|exact IH].
Qed.

Lemma dict_mem_set_mono k k' v d :
  dict_mem k d = true -> dict_mem k (dict_set k' v d) = true.
Proof.
  unfold dict_mem. induction d as [|[k0 v0] d IH]; cbn; [done|].
  destruct (pyval_eqb k0 k') eqn:E; cbn; [done|].
  destruct (pyval_eqb k0 k); [done|exact IH].
Qed.

Lemma dict_mem_del k d : dict_mem k (dict_del k d) = false.
Proof.
  unfold dict_mem, dict_del. induction d as [|[k' v'] d IH]; cbn; [done|].
  destruct (pyval_eqb k' k) eqn:E; cbn; [exact IH|]. by rewrite E.
Qed.

Lemma length_dict_set k v d : (length (dict_set k v d) <= S (length d))%nat.
Proof.
  induction d as [|[k' v'] d IH]; cbn; [lia|].
  destruct (pyval_eqb k' k); cbn; lia.
Qed.

End Dictionaries.

(** ** Runs of the order monitor *)

Section MonitorRuns.
Import ImprovedOrderManager.
Implicit Types (ex : Exchange) (order_id : PyVal) (w : World) (st : Locals).

Lemma on_exception_books order_id (check_interval : Q) (e : string) st w st' w' :
  on_exception order_id check_interval e st w = Continue st' w' ->
  pending_orders w' = pending_orders w
  /\ completed_orders w' = completed_orders w.
Proof.
  unfold on_exception.
  destruct (max_failures <=? S (consecutive_failures st))%nat; [done|].
  unfold time_sleep. destruct (Qltb _ 0); [done|]. by intros [= _ <-].
Qed.

Lemma cache_state_books order_id (order : option (gmap string PyVal)) st w :
  pending_orders (cache_state order_id order st w).2 = pending_orders w
  /\ completed_orders (cache_state order_id order st w).2 = completed_orders w.
Proof.
  unfold cache_state. destruct order as [d|]; [|done].
  destruct (d !! "state"%string) as [s|]; [|done].
  by destruct (match last_order_state st with
               | Some l => pyval_eqb s l
               | None => false
               end).
Qed.

Lemma report_progress_books order_id (d : gmap string PyVal) w w' :
  report_progress order_id d w = Ok w' ->
  pending_orders w' = pending_orders w
  /\ completed_orders w' = completed_orders w.
Proof.
  unfold report_progress.
  destruct (d !! "volume"%string) as [v|]; [|by intros [= <-]].
  destruct (d !! "remaining_volume"%string) as [r|]; [|by intros [= <-]].
  destruct (py_float v) as [volume|]; [|done].
  destruct (py_float r) as [remaining|]; [|done].
  by destruct (Qltb 0 volume && Qltb remaining volume); intros [= <-].
Qed.

(** A pass of the loop body after which the loop goes on leaves the two
    dictionaries of the instance alone. *)
Lemma poll_once_books ex order_id (check_interval : Q) st w st' w' :
  poll_once ex order_id check_interval st w = Continue st' w' ->
  pending_orders w' = pending_orders w
  /\ completed_orders w' = completed_orders w.
Proof.
  unfold poll_once, upbit_get_order.
  set (w1 := {| now := now w + latency ex (polls w); polls := S (polls w);
                log := log w; pending_orders := pending_orders w;
                completed_orders := completed_orders w |}).
  assert (forall e st0 w0,
            pending_orders w0 = pending_orders w
            /\ completed_orders w0 = completed_orders w ->
            on_exception order_id check_interval e st0 w0 = Continue st' w' ->
            pending_orders w' = pending_orders w
            /\ completed_orders w' = completed_orders w) as Hhandler.
  { intros e st0 w0 [H1 H2] H. apply on_exception_books in H as [H3 H4].
    split; congruence. }
  destruct (get_order ex (polls w) order_id) as [e|order];
    [by apply Hhandler|].
  pose proof (cache_state_books order_id order
                {| consecutive_failures := 0;
                   last_order_state := last_order_state st;
                   retry_delay := retry_delay st |} w1) as Hcache.
  destruct (cache_state order_id order _ w1) as [st2 w2]. cbn [snd] in Hcache.
  change (pending_orders w1) with (pending_orders w) in Hcache.
  change (completed_orders w1) with (completed_orders w) in Hcache.
  destruct (subscript_state order) as [[d s]|e]; [|by apply Hhandler].
  destruct (pyval_eqb s (PStr "done")); [done|].
  destruct (pyval_eqb s (PStr "cancel")); [done|].
  assert (forall w3,
            pending_orders w3 = pending_orders w
            /\ completed_orders w3 = completed_orders w ->
            match time_sleep check_interval w3 with
            | Ok w4 =>
                Continue
                  {| consecutive_failures := consecutive_failures st2;
                     last_order_state := last_order_state st2;
                     retry_delay := check_interval |} w4
            | Exn e =>
                on_exception order_id check_interval e
                  {| consecutive_failures := consecutive_failures st2;
                     last_order_state := last_order_state st2;
                     retry_delay := check_interval |} w3
            end = Continue st' w' ->
            pending_orders w' = pending_orders w
            /\ completed_orders w' = completed_orders w) as Hsleep.
  { intros w3 Hw3. unfold time_sleep.
    destruct (Qltb check_interval 0); [by apply Hhandler|].
    by intros [= _ <-]. }
  destruct (pyval_eqb s (PStr "wait")).
  - destruct (report_progress order_id d w2) as [w3|e] eqn:Hprog;
      [|by apply Hhandler].
    apply report_progress_books in Hprog as [H1 H2]. cbn [retry_delay].
    apply Hsleep. destruct Hcache. split; congruence.
  - cbn [retry_delay]. by apply Hsleep.
Qed.

(** A poll that finds the order filled returns it, files it under its id
    in [completed_orders] and drops the id from [pending_orders]. *)
Lemma poll_once_done ex order_id (check_interval : Q) st w
    (d : gmap string PyVal) :
  get_order ex (polls w) order_id = Return (Some d) ->
  d !! "state"%string = Some (PStr "done") ->
  exists w',
    poll_once ex order_id check_interval st w = Exit (Ok d) w'
    /\ polls w' = S (polls w)
    /\ now w' = now w + latency ex (polls w)
    /\ completed_orders w' = dict_set order_id d (completed_orders w)
    /\ dict_mem order_id (pending_orders w') = false.
Proof.
  intros Hreply Hstate. unfold poll_once, upbit_get_order. rewrite Hreply.
  set (st0 := {| consecutive_failures := 0;
                 last_order_state := last_order_state st;
                 retry_delay := retry_delay st |}).
  set (w1 := {| now := now w + latency ex (polls w); polls := S (polls w);
                log := log w; pending_orders := pending_orders w;
                completed_orders := completed_orders w |}).
  pose proof (cache_state_books order_id (Some d) st0 w1) as [Hp Hc].
  assert (polls (cache_state order_id (Some d) st0 w1).2 = S (polls w)
          /\ now (cache_state order_id (Some d) st0 w1).2
             = now w + latency ex (polls w)) as [Hpolls Hnow].
  { unfold cache_state. rewrite Hstate.
    by destruct (match last_order_state st0 with
                 | Some l => pyval_eqb (PStr "done") l
                 | None => false
                 end). }
  destruct (cache_state order_id (Some d) st0 w1) as [st2 w2].
  cbn [snd] in *. unfold subscript_state. rewrite Hstate.
  change (pyval_eqb (PStr "done") (PStr "done")) with true. cbv iota.
  eexists. split; [reflexivity|].
  cbn [polls now completed_orders pending_orders record_completed logger].
  rewrite Hp, Hc. subst w1. cbn [pending_orders completed_orders].
  repeat (split; [done|]).
  destruct (dict_mem order_id (pending_orders w)) eqn:E;
    [apply dict_mem_del|exact E].
Qed.

(** An order that the exchange reports open [k] times and then filled is
    returned, filled, after exactly [k+1] polls, provided the deadline is
    more than [k] check intervals and calls away; it is then on file in
    [completed_orders] and no longer in [pending_orders]. *)
Lemma poll_loop_fills ex order_id (timeout check_interval start_time L : Q)
    (d : gmap string PyVal) (extra : nat) :
  0 <= check_interval ->
  (forall j, 0 <= latency ex j <= L) ->
  d !! "state"%string = Some (PStr "done") ->
  forall (k : nat) st w,
    (forall j, (j < k)%nat ->
       exists dj, get_order ex (polls w + j) order_id = Return (Some dj)
                  /\ still_open dj) ->
    get_order ex (polls w + k) order_id = Return (Some d) ->
    now w - start_time + inject_Z (Z.of_nat k) * (L + check_interval) < timeout ->
    exists w',
      poll_loop (S k + extra) ex order_id timeout check_interval start_time st w
      = Some (Returned (Ok d) w')
      /\ polls w' = (polls w + S k)%nat
      /\ now w' <= now w + L + inject_Z (Z.of_nat k) * (L + check_interval)
      /\ dict_get order_id (completed_orders w') = Some d
      /\ dict_mem order_id (pending_orders w') = false.
Proof.
  intros Hci Hlat Hstate.
  assert (0 <= L) as HL by (destruct (Hlat 0%nat); lra).
  induction k as [|k IH]; intros st w Hopen Hdone Htime.
  - rewrite Nat.add_0_r in Hdone.
    change (inject_Z (Z.of_nat 0)) with 0 in *.
    cbn [poll_loop Nat.add].
    assert (Qltb (now w - start_time) timeout = true) as ->
        by (apply Qltb_lt; lra).
    destruct (poll_once_done ex order_id check_interval st w d Hdone Hstate)
      as (w' & -> & Hpolls & Hnow & Hcompleted & Hpending).
    exists w'. split; [done|]. split; [lia|].
    split; [rewrite Hnow; destruct (Hlat (polls w)); lra|].
    split; [rewrite Hcompleted; apply dict_get_set|exact Hpending].
  - rewrite Nat2Z.inj_succ, <- Z.add_1_r, inject_Z_plus in Htime |- *.
    change (inject_Z 1) with 1 in *.
    assert ((inject_Z (Z.of_nat k) + 1) * (L + check_interval)
            == inject_Z (Z.of_nat k) * (L + check_interval)
               + (L + check_interval)) as E by ring.
    rewrite E in Htime.
    assert (0 <= inject_Z (Z.of_nat k) * (L + check_interval)) as Hk.
    { apply Qmult_le_0_compat; [|lra].
      change 0 with (inject_Z 0). rewrite <- Zle_Qle. lia. }
    change (S (S k) + extra)%nat with (S (S k + extra)). cbn [poll_loop].
    assert (Qltb (now w - start_time) timeout = true) as ->
        by (apply Qltb_lt; lra).
    destruct (Hopen 0%nat ltac:(lia)) as (d0 & Hd0 & (s & Hs & Hnd & Hnc) & Hv & Hr).
    rewrite Nat.add_0_r in Hd0.
    destruct (poll_once_open ex order_id check_interval st w d0 s Hci Hd0 Hs
                Hnd Hnc Hv Hr) as (st1 & w1 & Hstep & _ & _ & Hnow1 & Hpolls1).
    rewrite Hstep.
    destruct (poll_once_books _ _ _ _ _ _ _ Hstep) as [Hp1 Hc1].
    destruct (IH st1 w1) as (w' & Hrun & Hpolls & Hnow & Hget & Hmem).
    + intros j Hj. destruct (Hopen (S j) ltac:(lia)) as (dj & Hdj & Hopenj).
      exists dj. split; [|done]. rewrite Hpolls1.
      by replace (S (polls w) + j)%nat with (polls w + S j)%nat by lia.
    + rewrite Hpolls1.
      by replace (S (polls w) + k)%nat with (polls w + S k)%nat by lia.
    + rewrite Hnow1. destruct (Hlat (polls w)). lra.
    + exists w'. split; [exact Hrun|]. split; [lia|].
      split; [|done]. rewrite E. rewrite Hnow1 in Hnow.
      destruct (Hlat (polls w)). lra.
Qed.

(** An order that the exchange reports open [k] times and then filled is
    returned by [monitor_order], filled, after exactly [k+1] polls and no
    more than [k] check intervals and [k+1] calls later, provided the
    deadline is further away than that; it is then on file in
    [completed_orders] and no longer in [pending_orders]. *)
Theorem monitor_order_fills_after_waits ex order_id (timeout : option Q)
    (check_interval L : Q) (d : gmap string PyVal) (k extra : nat) w :
  0 <= check_interval ->
  (forall j, 0 <= latency ex j <= L) ->
  (forall j, (j < k)%nat ->
     exists dj, get_order ex (polls w + j) order_id = Return (Some dj)
                /\ still_open dj) ->
  get_order ex (polls w + k) order_id = Return (Some d) ->
  d !! "state"%string = Some (PStr "done") ->
  inject_Z (Z.of_nat k) * (L + check_interval) < effective_timeout timeout ->
  exists w',
    monitor_order (S k + extra) ex order_id timeout check_interval w
    = Some (Ok d, w')
    /\ polls w' = (polls w + S k)%nat
    /\ now w' <= now w + L + inject_Z (Z.of_nat k) * (L + check_interval)
    /\ dict_get order_id (completed_orders w') = Some d
    /\ dict_mem order_id (pending_orders w') = false.
Proof.
  intros Hci Hlat Hopen Hdone Hstate Htime. unfold monitor_order.
  destruct (poll_loop_fills ex order_id (effective_timeout timeout)
              check_interval (now w) L d extra Hci Hlat Hstate k
              (initial_locals check_interval)
              (logger (MonitoringOrder order_id (effective_timeout timeout)) w))
    as (w' & -> & H); [done|done| |by exists w'].
  cbn [now logger]. lra.
Qed.

(** The specification's scenario: [wait] twice, then [done], with the
    default deadline and check interval. *)
Lemma monitor_order_fills_after_waits_witness :
  exists w',
    monitor_order 3 wait_twice_then_done (PStr "o1") None 0.5 boot
    = Some (Ok (filled_order (PStr "o1")), w')
    /\ polls w' = 3%nat
    /\ dict_get (PStr "o1") (completed_orders w')
       = Some (filled_order (PStr "o1")).
Proof.
  destruct (monitor_order_fills_after_waits wait_twice_then_done (PStr "o1")
              None 0.5 0.1 (filled_order (PStr "o1")) 2 0 boot)
    as (w' & Hrun & Hpolls & _ & Hget & _).
  - vm_compute. discriminate.
  - intros j. split; vm_compute; discriminate.
  - intros j Hj. exists (open_order (PStr "o1")). split.
    + destruct j as [|[|j]]; [reflexivity|reflexivity|lia].
    + split; [exists (PStr "wait"); by vm_compute|].
      split; intros v Hv; vm_compute in Hv; discriminate.
  - reflexivity.
  - apply lookup_insert_eq.
  - vm_compute. reflexivity.
  - exists w'. split; [exact Hrun|]. split; [exact Hpolls|exact Hget].
Defined.

(** *** A negative check interval *)

Lemma backoff_negative (check_interval : Q) (n : nat) :
  check_interval < 0 -> backoff check_interval n < 0.
Proof.
  intros Hci. unfold backoff.
  eapply Qle_lt_trans; [apply Q.le_min_l|].
  pose proof (pow2_pos n) as Hpow.
  generalize dependent (inject_Z (2 ^ Z.of_nat n)). intros p Hp. nra.
Qed.

Lemma on_exception_negative order_id (check_interval : Q) (e : string) st w :
  check_interval < 0 ->
  consecutive_failures st = 0%nat ->
  exists w',
    on_exception order_id check_interval e st w
    = Exit (Exn "sleep length must be non-negative") w'.
Proof.
  intros Hci Hzero. unfold on_exception. rewrite Hzero.
  change (max_failures <=? 1)%nat with false. cbv iota.
  unfold time_sleep.
  rewrite (proj2 (Qltb_lt _ _) (backoff_negative check_interval 1 Hci)).
  by eexists.
Qed.

(** With a negative check interval [monitor_order] raises instead of
    returning: unless the first poll finds the order filled or cancelled,
    the pause of the first pass raises [ValueError], the handler counts it
    as a failure and its own pause raises again, outside any [try]. *)
Theorem monitor_order_negative_interval ex order_id (timeout : option Q)
    (check_interval : Q) w (fuel : nat) :
  check_interval < 0 ->
  0 < effective_timeout timeout ->
  (forall (d : gmap string PyVal) (s : PyVal),
     get_order ex (polls w) order_id = Return (Some d) ->
     d !! "state"%string = Some s ->
     pyval_eqb s (PStr "done") = false /\ pyval_eqb s (PStr "cancel") = false) ->
  exists w',
    monitor_order (S fuel) ex order_id timeout check_interval w
    = Some (Exn "sleep length must be non-negative", w').
Proof.
  intros Hci Htimeout Hopen. unfold monitor_order. cbn [poll_loop].
  assert (Qltb (now (logger (MonitoringOrder order_id
                               (effective_timeout timeout)) w) - now w)
            (effective_timeout timeout) = true) as ->.
  { apply Qltb_lt. cbn [now logger]. lra. }
  assert (exists w',
            poll_once ex order_id check_interval (initial_locals check_interval)
              (logger (MonitoringOrder order_id (effective_timeout timeout)) w)
            = Exit (Exn "sleep length must be non-negative") w') as [w' ->];
    [|by exists w'].
  unfold poll_once, upbit_get_order. cbn [polls logger].
  destruct (get_order ex (polls w) order_id) as [e|order] eqn:Hreply.
  { by apply on_exception_negative. }
  set (st0 := {| consecutive_failures := 0;
                 last_order_state := last_order_state
                                       (initial_locals check_interval);
                 retry_delay := retry_delay (initial_locals check_interval) |}).
  pose proof (cache_state_failures order_id order st0) as Hfail.
  match goal with
  | |- context [cache_state order_id order st0 ?w0] =>
      specialize (Hfail w0); destruct (cache_state order_id order st0 w0)
        as [st2 w2]
  end.
  cbn [fst consecutive_failures st0] in Hfail.
  destruct (subscript_state order) as [[d s]|e] eqn:Hsub;
    [|by apply on_exception_negative].
  assert (order = Some d /\ d !! "state"%string = Some s) as [-> Hs].
  { unfold subscript_state in Hsub. destruct order as [d0|]; [|done].
    destruct (d0 !! "state"%string) eqn:E; [|done]. by injection Hsub as <- <-. }
  destruct (Hopen d s eq_refl Hs) as [-> ->].
  destruct (if pyval_eqb s (PStr "wait")
            then report_progress order_id d w2 else Ok w2) as [w3|e];
    [|by apply on_exception_negative].
  cbn [retry_delay]. unfold time_sleep at 1.
  rewrite (proj2 (Qltb_lt _ _) Hci).
  by apply on_exception_negative.
Qed.

(** A check interval of minus one second on an order that stays open. *)
Lemma monitor_order_negative_interval_witness :
  exists w',
    monitor_order 1 always_wait (PStr "o1") None (-1) boot
    = Some (Exn "sleep length must be non-negative", w').
Proof.
  apply (monitor_order_negative_interval always_wait (PStr "o1") None (-1)
           boot 0).
  - vm_compute. reflexivity.
  - vm_compute. reflexivity.
  - intros d s [= <-] Hs. vm_compute in Hs. injection Hs as <-.
    by vm_compute.
Defined.

(** *** How long a monitoring can take *)

Lemma on_exception_duration order_id (check_interval : Q) (e : string) st w :
  0 <= check_interval ->
  match on_exception order_id check_interval e st w with
  | Continue _ w' | Exit _ w' => now w' <= now w + 5
  end.
Proof.
  intros Hci. unfold on_exception.
  pose proof (backoff_le_cap check_interval (S (consecutive_failures st))).
  destruct (max_failures <=? S (consecutive_failures st))%nat.
  - cbn [now logger]. lra.
  - rewrite time_sleep_nonneg by by apply backoff_nonneg.
    cbn [now advance logger]. lra.
Qed.

(** One pass of the loop body takes no longer than one call and the
    larger of the check interval and the cap of the backoff. *)
Lemma poll_once_duration ex order_id (check_interval L : Q) st w :
  0 <= check_interval ->
  (forall k, 0 <= latency ex k <= L) ->
  match poll_once ex order_id check_interval st w with
  | Continue _ w' | Exit _ w' => now w' <= now w + L + Qmax check_interval 5
  end.
Proof.
  intros Hci Hlat. unfold poll_once, upbit_get_order.
  set (w1 := {| now := now w + latency ex (polls w); polls := S (polls w);
                log := log w; pending_orders := pending_orders w;
                completed_orders := completed_orders w |}).
  pose proof (Q.le_max_l check_interval 5) as Hmax1.
  pose proof (Q.le_max_r check_interval 5) as Hmax2.
  destruct (Hlat (polls w)) as [Hl0 Hl].
  assert (forall e st0 w0, now w0 = now w1 ->
            match on_exception order_id check_interval e st0 w0 with
            | Continue _ w' | Exit _ w' =>
                now w' <= now w + L + Qmax check_interval 5
            end) as Hhandler.
  { intros e st0 w0 Hnow.
    pose proof (on_exception_duration order_id check_interval e st0 w0 Hci) as H.
    rewrite Hnow in H. cbn [now w1] in H.
    destruct (on_exception order_id check_interval e st0 w0); lra. }
  destruct (get_order ex (polls w) order_id) as [e|order]; [by apply Hhandler|].
  pose proof (cache_state_spec order_id order
                {| consecutive_failures := 0;
                   last_order_state := last_order_state st;
                   retry_delay := retry_delay st |} w1) as [Hnow2 _].
  destruct (cache_state order_id order _ w1) as [st2 w2]. cbn [snd] in Hnow2.
  destruct (subscript_state order) as [[d s]|e]; [|by apply Hhandler].
  destruct (pyval_eqb s (PStr "done")).
  { cbn [now record_completed logger]. rewrite Hnow2. cbn [now w1]. lra. }
  destruct (pyval_eqb s (PStr "cancel")).
  { cbn [now logger]. rewrite Hnow2. cbn [now w1]. lra. }
  assert (forall w3, now w3 = now w1 ->
            match
              match time_sleep check_interval w3 with
              | Ok w4 =>
                  Continue
                    {| consecutive_failures := consecutive_failures st2;
                       last_order_state := last_order_state st2;
                       retry_delay := check_interval |} w4
              | Exn e =>
                  on_exception order_id check_interval e
                    {| consecutive_failures := consecutive_failures st2;
                       last_order_state := last_order_state st2;
                       retry_delay := check_interval |} w3
              end
            with
            | Continue _ w' | Exit _ w' =>
                now w' <= now w + L + Qmax check_interval 5
            end) as Hsleep.
  { intros w3 Hnow3. rewrite time_sleep_nonneg by done.
    cbn [now advance]. rewrite Hnow3. cbn [now w1]. lra. }
  destruct (pyval_eqb s (PStr "wait")).
  - destruct (report_progress order_id d w2) as [w3|e] eqn:Hprog.
    + apply report_progress_spec in Hprog as [Hnow3 _].
      cbn [retry_delay]. apply Hsleep. congruence.
    + by apply Hhandler.
  - cbn [retry_delay]. by apply Hsleep.
Qed.

Lemma poll_loop_duration ex order_id (timeout check_interval start_time L : Q) :
  0 <= check_interval ->
  (forall k, 0 <= latency ex k <= L) ->
  forall (fuel : nat) st w,
    now w - start_time <= timeout + L + Qmax check_interval 5 ->
    match poll_loop fuel ex order_id timeout check_interval start_time st w with
    | Some (Returned _ w') | Some (Deadline _ w') =>
        now w' - start_time <= timeout + L + Qmax check_interval 5
    | None => True
    end.
Proof.
  intros Hci Hlat. induction fuel as [|fuel IH]; intros st w Hw;
    cbn [poll_loop].
  - by destruct (Qltb (now w - start_time) timeout).
  - destruct (Qltb (now w - start_time) timeout) eqn:E; [|done].
    apply Qltb_lt in E.
    pose proof (poll_once_duration ex order_id check_interval L st w Hci Hlat)
      as H.
    destruct (poll_once ex order_id check_interval st w) as [st' w1|r w1].
    + apply IH. lra.
    + lra.
Qed.

(** The loop is left no later than one pass after the deadline, and the
    final check is one more call. *)
Lemma monitor_order_elapsed (fuel : nat) ex order_id (timeout : option Q)
    (check_interval L : Q) w (result : Res (gmap string PyVal)) w' :
  0 <= check_interval ->
  (forall k, 0 <= latency ex k <= L) ->
  0 <= effective_timeout timeout ->
  monitor_order fuel ex order_id timeout check_interval w = Some (result, w') ->
  now w' - now w
  <= effective_timeout timeout + 2 * L + Qmax check_interval 5.
Proof.
  intros Hci Hlat Htimeout. unfold monitor_order.
  set (w0 := logger (MonitoringOrder order_id (effective_timeout timeout)) w).
  assert (0 <= L) as HL by (destruct (Hlat 0%nat); lra).
  pose proof (Q.le_max_r check_interval 5) as Hmax.
  pose proof (poll_loop_duration ex order_id (effective_timeout timeout)
                check_interval (now w) L Hci Hlat fuel
                (initial_locals check_interval) w0) as Hloop.
  destruct (poll_loop fuel ex order_id (effective_timeout timeout)
              check_interval (now w) (initial_locals check_interval) w0)
    as [[r w1|st w1]|]; [| |done].
  - intros [= <- <-]. specialize (Hloop ltac:(cbn [now w0 logger]; lra)). lra.
  - specialize (Hloop ltac:(cbn [now w0 logger]; lra)).
    assert (now (final_status_check ex order_id (now w) w1).2
            = now w1 + latency ex (polls w1)) as Hfinal.
    { unfold final_status_check, upbit_get_order. cbn [polls logger now].
      destruct (get_order ex (polls w1) order_id) as [e|[d|]]; [done| |done].
      destruct (size d =? 0)%nat; [done|].
      destruct (d !! "state"%string) as [s|]; [|done].
      by destruct (pyval_eqb s (PStr "done")). }
    destruct (final_status_check ex order_id (now w) w1) as [d w2].
    cbn [snd] in Hfinal. intros [= <- <-]. rewrite Hfinal.
    destruct (Hlat (polls w1)). lra.
Qed.

(** The clock never runs backwards during a call of [monitor_order],
    and the call never takes longer than its timeout, two calls and the
    larger of the check interval and 5 seconds: the last pass starts
    before the deadline and the final check is one more call. *)
Theorem monitor_order_duration (fuel : nat) ex order_id (timeout : option Q)
    (check_interval L : Q) w (result : Res (gmap string PyVal)) w' :
  0 <= check_interval ->
  (forall k, 0 <= latency ex k <= L) ->
  0 <= effective_timeout timeout ->
  monitor_order fuel ex order_id timeout check_interval w = Some (result, w') ->
  0 <= now w' - now w
       <= effective_timeout timeout + 2 * L + Qmax check_interval 5.
Proof.
  intros Hci Hlat Htimeout Hrun. split.
  - assert (forall k, 0 <= latency ex k) as Hlat0
        by (intros k; by destruct (Hlat k)).
    destruct (monitor_order_spec fuel ex order_id timeout check_interval w
                result w' Hci Hlat0 Hrun) as [Hnow _]. lra.
  - by eapply monitor_order_elapsed.
Qed.

(** The duration bound at the order that stays open, with a deadline of
    one second: the run takes no more than 6 seconds. *)
Lemma monitor_order_duration_witness :
  exists result w',
    monitor_order 10 always_wait (PStr "o1") (Some 1) 0.5 boot
    = Some (result, w')
    /\ 0 <= now w' - now boot <= 1 + 2 * 0 + Qmax 0.5 5.
Proof.
  destruct (monitor_order 10 always_wait (PStr "o1") (Some 1) 0.5 boot)
    as [[result w']|] eqn:Hrun; [|vm_compute in Hrun; discriminate].
  exists result, w'. split; [reflexivity|].
  apply (monitor_order_duration 10 always_wait (PStr "o1") (Some 1) 0.5 0
           boot result w').
  - vm_compute. discriminate.
  - intros k. split; vm_compute; discriminate.
  - vm_compute. discriminate.
  - exact Hrun.
Defined.

(** *** The dictionaries of the instance *)

Lemma on_exception_exit_books order_id (check_interval : Q) (e : string) st w
    (r : Res (gmap string PyVal)) w' :
  on_exception order_id check_interval e st w = Exit r w' ->
  pending_orders w' = pending_orders w
  /\ completed_orders w' = completed_orders w.
Proof.
  unfold on_exception.
  destruct (max_failures <=? S (consecutive_failures st))%nat;
    [by intros [= _ <-]|].
  unfold time_sleep. destruct (Qltb _ 0); [|done]. by intros [= _ <-].
Qed.

(** A pass of the loop body that leaves [monitor_order] has either left
    the two dictionaries alone or has found the order filled. *)
Lemma poll_once_exit_books ex order_id (check_interval : Q) st w
    (r : Res (gmap string PyVal)) w' :
  poll_once ex order_id check_interval st w = Exit r w' ->
  (pending_orders w' = pending_orders w
   /\ completed_orders w' = completed_orders w)
  \/ (exists d, r = Ok d
        /\ d !! "state"%string = Some (PStr "done")
        /\ completed_orders w' = dict_set order_id d (completed_orders w)
        /\ pending_orders w'
           = if dict_mem order_id (pending_orders w)
             then dict_del order_id (pending_orders w)
             else pending_orders w).
Proof.
  unfold poll_once, upbit_get_order.
  set (w1 := {| now := now w + latency ex (polls w); polls := S (polls w);
                log := log w; pending_orders := pending_orders w;
                completed_orders := completed_orders w |}).
  assert (forall e st0 w0,
            pending_orders w0 = pending_orders w
            /\ completed_orders w0 = completed_orders w ->
            on_exception order_id check_interval e st0 w0 = Exit r w' ->
            pending_orders w' = pending_orders w
            /\ completed_orders w' = completed_orders w) as Hhandler.
  { intros e st0 w0 [H1 H2] H. apply on_exception_exit_books in H as [H3 H4].
    split; congruence. }
  destruct (get_order ex (polls w) order_id) as [e|order];
    [intros H; left; eapply Hhandler; [|exact H]; done|].
  pose proof (cache_state_books order_id order
                {| consecutive_failures := 0;
                   last_order_state := last_order_state st;
                   retry_delay := retry_delay st |} w1) as Hcache.
  destruct (cache_state order_id order _ w1) as [st2 w2]. cbn [snd] in Hcache.
  change (pending_orders w1) with (pending_orders w) in Hcache.
  change (completed_orders w1) with (completed_orders w) in Hcache.
  destruct Hcache as [Hp Hc].
  destruct (subscript_state order) as [[d s]|e] eqn:Hsub;
    [|intros H; left; eapply Hhandler; [|exact H]; done].
  assert (d !! "state"%string = Some s) as Hs.
  { unfold subscript_state in Hsub. destruct order as [d0|]; [|done].
    destruct (d0 !! "state"%string) eqn:E; [|done]. by injection Hsub as <- <-. }
  destruct (pyval_eqb s (PStr "done")) eqn:Hdone.
  { intros [= <- <-]. right. exists d. split; [done|].
    destruct s as [s|q]; [|done]. apply String.eqb_eq in Hdone as ->.
    split; [done|].
    cbn [completed_orders pending_orders record_completed logger].
    by rewrite Hp, Hc. }
  destruct (pyval_eqb s (PStr "cancel")).
  { intros [= <- <-]. left. by cbn [completed_orders pending_orders logger]. }
  assert (forall w3,
            pending_orders w3 = pending_orders w
            /\ completed_orders w3 = completed_orders w ->
            match time_sleep check_interval w3 with
            | Ok w4 =>
                Continue
                  {| consecutive_failures := consecutive_failures st2;
                     last_order_state := last_order_state st2;
                     retry_delay := check_interval |} w4
            | Exn e =>
                on_exception order_id check_interval e
                  {| consecutive_failures := consecutive_failures st2;
                     last_order_state := last_order_state st2;
                     retry_delay := check_interval |} w3
            end = Exit r w' ->
            pending_orders w' = pending_orders w
            /\ completed_orders w' = completed_orders w) as Hsleep.
  { intros w3 Hw3. unfold time_sleep.
    destruct (Qltb check_interval 0); [by apply Hhandler|done]. }
  destruct (pyval_eqb s (PStr "wait")).
  - destruct (report_progress order_id d w2) as [w3|e] eqn:Hprog;
      [|intros H; left; eapply Hhandler; [|exact H]; done].
    apply report_progress_books in Hprog as [H1 H2]. cbn [retry_delay].
    intros H. left. eapply Hsleep; [|exact H]. split; congruence.
  - cbn [retry_delay]. intros H. left. by eapply Hsleep.
Qed.

Lemma final_status_check_books ex order_id (start_time : Q) w :
  pending_orders (final_status_check ex order_id start_time w).2
  = pending_orders w
  /\ completed_orders (final_status_check ex order_id start_time w).2
     = completed_orders w.
Proof.
  unfold final_status_check, upbit_get_order.
  cbn [polls logger].
  destruct (get_order ex (polls w) order_id) as [e|[d|]]; [done| |done].
  destruct (size d =? 0)%nat; [done|].
  destruct (d !! "state"%string) as [s|]; [|done].
  by destruct (pyval_eqb s (PStr "done")).
Qed.

End MonitorRuns.

(** ** Batches of orders *)

Section Batches.
Import ImprovedOrderManager.
Implicit Types (ex : Exchange) (w : World)
  (orders : list (gmap string PyVal))
  (results : list (PyVal * gmap string PyVal)).

Lemma dict_set_keys {V} (k : PyVal) (v : V) (d : list (PyVal * V))
    (P : PyVal -> Prop) :
  P k -> Forall (fun kv => P kv.1) d ->
  Forall (fun kv => P kv.1) (dict_set k v d).
Proof.
  intros Hk. induction 1 as [|[k' v'] d Hk' Hd IH]; cbn.
  - by repeat constructor.
  - destruct (pyval_eqb k' k); constructor; done.
Qed.

Lemma wait_loop_results (fuel : nat) ex (timeout start_time : Q) (count : nat) :
  forall orders (i : nat) results w results' w',
    wait_loop fuel ex timeout start_time count i orders results w
    = Some (Ok results', w') ->
    (forall order_id,
       order_id ∈ uuids orders \/ dict_mem order_id results = true ->
       dict_mem order_id results' = true)
    /\ (forall P : PyVal -> Prop,
          (forall order_id, order_id ∈ uuids orders -> P order_id) ->
          Forall (fun kv => P kv.1) results ->
          Forall (fun kv => P kv.1) results')
    /\ (length results' <= length results + length (uuids orders))%nat.
Proof.
  induction orders as [|order orders IH]; intros i results w results' w' Hrun.
  - injection Hrun as <- <-. split; [|split].
    + intros order_id [H|H]; [|done]. by apply elem_of_nil in H.
    + done.
    + cbn. lia.
  - cbn [wait_loop] in Hrun. unfold uuids. cbn [omap list_omap].
    fold (uuids orders).
    destruct (order !! "uuid"%string) as [order_id|]; [|by eapply IH].
    destruct (monitor_order fuel ex order_id _ 0.5 _)
      as [[[result|e] w1]|]; [|done..].
    destruct (IH _ _ _ _ _ Hrun) as (Hmem & Hkeys & Hlen).
    split; [|split].
    + intros id [H|H]; apply Hmem.
      * apply elem_of_cons in H as [->|H]; [|by left].
        right. apply dict_mem_set_same.
      * right. by apply dict_mem_set_mono.
    + intros P HP Hresults. apply Hkeys.
      * intros id Hid. apply HP. by apply elem_of_cons; right.
      * apply dict_set_keys; [|done]. apply HP. by apply elem_of_cons; left.
    + pose proof (length_dict_set order_id result results).
      cbn [length]. lia.
Qed.

Lemma length_uuids orders : (length (uuids orders) <= length orders)%nat.
Proof.
  unfold uuids. induction orders as [|order orders IH]; cbn; [lia|].
  destruct (order !! "uuid"%string); cbn; lia.
Qed.

(** The three counts of the summary are taken over disjoint sets of
    results. *)
Lemma count_state_disjoint results :
  (count_state "done" results + count_state "cancel" results
   + count_state "timeout" results <= length results)%nat.
Proof.
  unfold count_state. induction results as [|[k d] results IH]; cbn; [lia|].
  destruct (d !! "state"%string) as [[s|q]|]; cbn; [|lia..].
  destruct (String.eqb s "done") eqn:E1.
  { apply String.eqb_eq in E1 as ->. cbn. lia. }
  destruct (String.eqb s "cancel") eqn:E2.
  { apply String.eqb_eq in E2 as ->. cbn. lia. }
  destruct (String.eqb s "timeout"); cbn; lia.
Qed.

(** The dictionary [wait_for_orders_completion] returns has a key for
    every order id of the batch and no other key, so it has no more
    entries than the batch has orders (fewer when two orders share an id
    or an order has none); the last line of the log is the summary, whose
    three counts add up to no more than the number of entries. *)
Theorem wait_for_orders_completion_results (fuel : nat) ex orders
    (timeout : Q) w results w' :
  wait_for_orders_completion fuel ex orders timeout w = Some (Ok results, w') ->
  (forall order_id, order_id ∈ uuids orders ->
     dict_mem order_id results = true)
  /\ Forall (fun kv => kv.1 ∈ uuids orders) results
  /\ (length results <= length (uuids orders) <= length orders)%nat
  /\ exists (l : list LogRecord) (t elapsed : Q)
       (completed cancelled timeout_count : nat),
       log w' = l ++ [mkRecord t
                        (BatchCompletion elapsed completed (length orders)
                           cancelled timeout_count)]
       /\ completed = count_state "done" results
       /\ (completed + cancelled + timeout_count <= length results)%nat.
Proof.
  unfold wait_for_orders_completion.
  set (w0 := logger (WaitingForOrders (length orders) timeout) w).
  destruct (wait_loop fuel ex timeout (now w0) (length orders) 1 orders [] w0)
    as [[[results'|e] w1]|] eqn:Hrun; [|done..].
  intros [= <- <-].
  destruct (wait_loop_results _ _ _ _ _ _ _ _ _ _ _ Hrun)
    as (Hmem & Hkeys & Hlen).
  split; [intros id Hid; apply Hmem; by left|].
  split; [by apply (Hkeys (fun k => k ∈ uuids orders))|].
  split; [split; [exact Hlen|apply length_uuids]|].
  eexists _, _, _, _, _, _. split; [reflexivity|]. split; [reflexivity|].
  apply count_state_disjoint.
Qed.

(** The batch of three orders that stay open: three entries. *)
Lemma wait_for_orders_completion_results_witness :
  exists results w',
    wait_for_orders_completion 10 always_wait three_orders 2 boot
    = Some (Ok results, w')
    /\ dict_mem (PStr "o3") results = true
    /\ (length results <= 3)%nat.
Proof.
  destruct (wait_for_orders_completion 10 always_wait three_orders 2 boot)
    as [[[results|e] w']|] eqn:Hrun; [|vm_compute in Hrun; discriminate..].
  exists results, w'. split; [reflexivity|].
  destruct (wait_for_orders_completion_results 10 always_wait three_orders 2
              boot results w' Hrun) as (Hmem & _ & [Hlen _] & _).
  split; [apply Hmem|exact Hlen].
  assert (uuids three_orders = [PStr "o1"; PStr "o2"; PStr "o3"]) as ->
      by (vm_compute; reflexivity).
  apply elem_of_cons; right. apply elem_of_cons; right.
  by apply elem_of_cons; left.
Defined.

Lemma wait_loop_duration (fuel : nat) ex (timeout start_time L : Q)
    (count : nat) :
  (forall k, 0 <= latency ex k <= L) ->
  0 <= timeout ->
  forall orders (i : nat) results w r w',
    wait_loop fuel ex timeout start_time count i orders results w
    = Some (r, w') ->
    forall B : Q,
      now w - start_time <= timeout + B ->
      0 <= B ->
      now w' - start_time
      <= timeout + B + inject_Z (Z.of_nat (length (uuids orders))) * (6 + 2 * L).
Proof.
  intros Hlat Htimeout.
  assert (0 <= L) as HL by (destruct (Hlat 0%nat); lra).
  induction orders as [|order orders IH]; intros i results w r w' Hrun B HB HB0.
  - injection Hrun as <- <-.
    change (inject_Z (Z.of_nat (length (uuids [])))) with 0. lra.
  - cbn [wait_loop] in Hrun. unfold uuids. cbn [omap list_omap].
    fold (uuids orders).
    destruct (order !! "uuid"%string) as [order_id|]; [|by eapply IH].
    cbn [length]. rewrite Nat2Z.inj_succ, <- Z.add_1_r, inject_Z_plus.
    change (inject_Z 1) with 1.
    assert (0 <= inject_Z (Z.of_nat (length (uuids orders)))) as Hn.
    { change 0 with (inject_Z 0). rewrite <- Zle_Qle. lia. }
    remember (timeout - (now w - start_time)) as x eqn:Hx.
    assert (x == timeout - (now w - start_time)) as Ex by (by rewrite Hx).
    clear Hx.
    set (w0 := logger (MonitoringBatchOrder i count order_id (Qmax 1 x)) w)
      in *.
    destruct (monitor_order fuel ex order_id (Some (Qmax 1 x)) 0.5 w0)
      as [[result w1]|] eqn:Hmon; [|done].
    pose proof (remaining_timeout_ge_1 x) as H1.
    apply monitor_order_elapsed with (L := L) in Hmon; [|lra|done|];
      [|rewrite effective_timeout_remaining; lra].
    rewrite effective_timeout_remaining in Hmon.
    change (now w0) with (now w) in Hmon.
    assert (Qmax 0.5 5 == 5) as E by reflexivity. rewrite E in Hmon.
    assert (now w + Qmax 1 x - start_time <= timeout + B + 1) as Hrem.
    { destruct (Q.max_spec 1 x) as [[_ ->]|[_ ->]]; lra. }
    assert (now w1 - start_time <= timeout + (B + (6 + 2 * L))) as Hw1 by lra.
    destruct result as [result|e].
    + specialize (IH _ _ _ _ _ Hrun (B + (6 + 2 * L)) Hw1 ltac:(lra)).
      set (n := inject_Z (Z.of_nat (length (uuids orders)))) in *.
      clearbody n. nra.
    + injection Hrun as <- <-.
      set (n := inject_Z (Z.of_nat (length (uuids orders)))) in *.
      clearbody n. nra.
Qed.

(** A batch runs for no longer than [timeout] and, for each order that
    has an id, 6 seconds and two calls: every order is given at least one
    second whatever is left of the shared deadline, and a monitoring can
    overrun its own deadline by a pause of 5 seconds and two calls. *)
Theorem wait_for_orders_completion_duration (fuel : nat) ex orders
    (timeout L : Q) w r w' :
  (forall k, 0 <= latency ex k <= L) ->
  0 <= timeout ->
  wait_for_orders_completion fuel ex orders timeout w = Some (r, w') ->
  now w' - now w
  <= timeout + inject_Z (Z.of_nat (length (uuids orders))) * (6 + 2 * L).
Proof.
  intros Hlat Htimeout. unfold wait_for_orders_completion.
  set (w0 := logger (WaitingForOrders (length orders) timeout) w).
  destruct (wait_loop fuel ex timeout (now w0) (length orders) 1 orders [] w0)
    as [[r1 w1]|] eqn:Hrun; [|done].
  apply wait_loop_duration with (L := L) (B := 0) in Hrun;
    [|done|done|lra|lra].
  change (now w0) with (now w) in Hrun.
  destruct r1 as [results|e]; intros [= <- <-]; cbn [now logger]; lra.
Qed.

(** The three orders that stay open, with a timeout of 2 seconds, take
    no longer than 20 seconds. *)
Lemma wait_for_orders_completion_duration_witness :
  exists r w',
    wait_for_orders_completion 10 always_wait three_orders 2 boot = Some (r, w')
    /\ now w' - now boot <= 20.
Proof.
  destruct (wait_for_orders_completion 10 always_wait three_orders 2 boot)
    as [[r w']|] eqn:Hrun; [|vm_compute in Hrun; discriminate].
  exists r, w'. split; [reflexivity|].
  pose proof (wait_for_orders_completion_duration 10 always_wait three_orders
                2 0 boot r w') as H.
  assert (2 + inject_Z (Z.of_nat (length (uuids three_orders))) * (6 + 2 * 0)
          == 20) as E by reflexivity.
  rewrite <- E. apply H.
  - intros k. split; vm_compute; discriminate.
  - vm_compute. discriminate.
  - exact Hrun.
Defined.

End Batches.

(** ** Risk levels: what the triggers can do *)

Section Triggers.
Import ATRRiskManager.
Implicit Types (self : Manager) (position_data : PositionData)
  (risk_data : RiskData) (df : list Bar) (b : Bar).

Lemma elem_of_spec_true_ranges df (x : Q) :
  x ∈ spec_true_ranges df -> 0 <= x.
Proof.
  unfold spec_true_ranges. intros Hx.
  apply list_elem_of_lookup in Hx as [i Hi].
  apply lookup_zip_with_Some in Hi as (prev & b & -> & _ & _).
  apply spec_true_range_nonneg.
Qed.

(** On well-formed candles the ATR is never negative, whatever the fetch
    does and whatever the period. *)
Lemma calculate_atr_nonneg self (period : option nat) (fetch : Fetch) :
  well_formed_fetch fetch -> 0 <= calculate_atr self period fetch.
Proof.
  intros Hwf.
  assert (exists p : nat, calculate_atr self period fetch
                          = calculate_atr self (Some p) fetch) as [p ->].
  { destruct period as [p|]; [by exists p|by exists (ATR_PERIOD self)]. }
  destruct fetch as [e| |df]; [done..|].
  destruct (Nat.ltb_spec (length df) p) as [Hlt|Hge].
  { unfold calculate_atr.
    change (default (ATR_PERIOD self) (Some p)) with p.
    destruct (Nat.ltb_spec (length df) p); [done|lia]. }
  destruct (Nat.eq_dec p 0%nat) as [->|Hp].
  { unfold calculate_atr.
    change (default (ATR_PERIOD self) (Some 0%nat)) with 0%nat.
    by destruct (length df <? 0)%nat. }
  destruct df as [|b0 df]; [cbn [length] in Hge; lia|].
  rewrite calculate_atr_frame by (split; [lia|exact Hge]).
  apply Qdiv_nonneg.
  - apply py_sum_nonneg, Forall_forall. intros x Hx. unfold tail in Hx.
    eapply elem_of_sublist in Hx; [|apply sublist_drop].
    apply elem_of_cons in Hx as [->|Hx].
    + cbn [well_formed_fetch] in Hwf. apply Forall_cons in Hwf as [Hb0 _].
      unfold well_formed in Hb0. lra.
    + by eapply elem_of_spec_true_ranges.
  - change 0 with (inject_Z 0). rewrite <- Zlt_Qlt. lia.
Qed.

(** The ATR the risk levels are computed from is positive: a computed ATR
    of 0 is replaced by 2% of the price. *)
Lemma atr_or_fallback_pos self (price : Q) (atr_fetch : Fetch) :
  0 < price -> well_formed_fetch atr_fetch ->
  0 < atr_or_fallback self price atr_fetch.
Proof.
  intros Hprice Hwf. unfold atr_or_fallback.
  pose proof (calculate_atr_nonneg self None atr_fetch Hwf) as Hatr.
  destruct (Qeq_bool (calculate_atr self None atr_fetch) 0) eqn:E.
  - apply Qmult_lt_0_compat; [exact Hprice|reflexivity].
  - apply Qeq_bool_neq in E. lra.
Qed.

(** The remaining fields of a computed [risk_data]. *)
Lemma risk_levels_percentages self position_data atr_fetch entry_fetch tpv
    risk_data :
  calculate_position_risk_levels self position_data atr_fetch entry_fetch tpv
  = Some risk_data ->
  ~ current_price position_data == 0
  /\ ~ tpv == 0
  /\ atr_percent risk_data
     = atr risk_data / current_price position_data * 100
  /\ position_risk risk_data = market_value position_data / tpv * 100
  /\ (exists frame : option (list Bar),
        estimated_entry risk_data
        = estimate_entry frame (current_price position_data)).
Proof.
  unfold calculate_position_risk_levels. intros H.
  destruct entry_fetch as [err| |df]; [done| |].
  all: destruct (Qeq_bool (current_price position_data) 0) eqn:E1; [done|].
  all: destruct (Qeq_bool tpv 0) eqn:E2; [done|].
  all: apply Qeq_bool_neq in E1, E2.
  all: injection H as <-.
  all: cbn [atr atr_percent position_risk estimated_entry].
  all: split; [done|]; split; [done|]; split; [done|]; split; [done|].
  - by exists None.
  - by exists (Some df).
Qed.

(** With a positive price and well-formed candles, the [atr] of the risk
    data is positive, so is [atr_percent], and the levels are in order:
    the entry is below the trailing threshold, which is below the
    take-profit. *)
Theorem risk_levels_ordered (tm : bool) position_data atr_fetch entry_fetch
    tpv risk_data :
  calculate_position_risk_levels (init tm) position_data atr_fetch entry_fetch
    tpv = Some risk_data ->
  0 < current_price position_data ->
  well_formed_fetch atr_fetch ->
  0 < atr risk_data
  /\ 0 < atr_percent risk_data
  /\ estimated_entry risk_data < trailing_threshold risk_data
  /\ trailing_threshold risk_data < take_profit risk_data.
Proof.
  intros Hrisk Hprice Hwf.
  destruct (risk_levels_fields _ _ _ _ _ _ Hrisk) as (Hatr & Htt & Htp & _).
  destruct (risk_levels_percentages _ _ _ _ _ _ Hrisk)
    as (_ & _ & Hpct & _).
  pose proof (atr_or_fallback_pos (init tm) _ atr_fetch Hprice Hwf) as Hpos.
  rewrite <- Hatr in Hpos.
  split; [exact Hpos|]. rewrite Hpct, Htt, Htp. cbn.
  split; [|split].
  - apply Qmult_lt_0_compat; [|lra].
    apply Qlt_shift_div_l; [done|]. lra.
  - assert (1.5 == 3 # 2) as -> by reflexivity. lra.
  - assert (1.5 == 3 # 2) as -> by reflexivity.
    assert (3.0 == 3) as -> by reflexivity. lra.
Qed.

(** The levels of a position at 170 whose candles move between 90 and
    110. *)
Lemma risk_levels_ordered_witness :
  exists risk_data,
    calculate_position_risk_levels (init false)
      (mkPosition "BTC" 1 0 1 170 170) (FetchFrame (flat 110 90 100 15))
      (FetchFrame (flat 110 90 100 5)) 1000 = Some risk_data
    /\ 0 < atr risk_data
    /\ trailing_threshold risk_data < take_profit risk_data.
Proof.
  destruct (calculate_position_risk_levels (init false)
              (mkPosition "BTC" 1 0 1 170 170) (FetchFrame (flat 110 90 100 15))
              (FetchFrame (flat 110 90 100 5)) 1000)
    as [risk_data|] eqn:Hrisk; [|vm_compute in Hrisk; discriminate].
  exists risk_data. split; [reflexivity|].
  destruct (risk_levels_ordered false _ _ _ _ _ Hrisk) as (H1 & _ & _ & H4).
  - vm_compute. reflexivity.
  - repeat constructor; vm_compute; discriminate.
  - split; [exact H1|exact H4].
Defined.

(** The stop-loss test of a cycle is the test against the fixed stop,
    two ATRs below the estimated entry: the trailing stop, which is
    computed anew from the price of the same cycle and lies two ATRs
    below it, can never be reached by that price, and neither can the
    floor of 0.  The take-profit test is the test against three ATRs
    above the entry, and the two tests never hold together. *)
Theorem stop_loss_is_the_fixed_stop (tm : bool) position_data atr_fetch
    entry_fetch tpv risk_data :
  calculate_position_risk_levels (init tm) position_data atr_fetch entry_fetch
    tpv = Some risk_data ->
  0 < current_price position_data ->
  well_formed_fetch atr_fetch ->
  (should_execute_stop_loss position_data risk_data = true
   <-> current_price position_data
       <= estimated_entry risk_data - 2 * atr risk_data)
  /\ (should_execute_take_profit position_data risk_data = true
      <-> estimated_entry risk_data + 3 * atr risk_data
          <= current_price position_data)
  /\ (should_execute_stop_loss position_data risk_data = true ->
      should_execute_take_profit position_data risk_data = false).
Proof.
  intros Hrisk Hprice Hwf.
  destruct (risk_levels_fields _ _ _ _ _ _ Hrisk) as (Hatr & Htt & Htp & Hsl).
  pose proof (atr_or_fallback_pos (init tm) _ atr_fetch Hprice Hwf) as Hpos.
  rewrite <- Hatr in Hpos.
  unfold should_execute_stop_loss, should_execute_take_profit.
  rewrite !Qle_bool_iff.
  set (price := current_price position_data) in *.
  set (entry := estimated_entry risk_data) in *.
  set (a := atr risk_data) in *.
  assert (take_profit risk_data == entry + 3 * a) as Etp.
  { rewrite Htp. cbn. assert (3.0 == 3) as -> by reflexivity. ring. }
  assert (entry - a * STOP_LOSS_MULTIPLIER (init tm) == entry - 2 * a) as Efix.
  { cbn. assert (2.0 == 2) as -> by reflexivity. ring. }
  assert (price - a * STOP_LOSS_MULTIPLIER (init tm) == price - 2 * a) as Etrail.
  { cbn. assert (2.0 == 2) as -> by reflexivity. ring. }
  assert (price <= stop_loss risk_data <-> price <= entry - 2 * a) as Hstop.
  { rewrite Hsl. clearbody price entry a.
    set (fixed := entry - a * STOP_LOSS_MULTIPLIER (init tm)) in *.
    set (trailing := price - a * STOP_LOSS_MULTIPLIER (init tm)) in *.
    clearbody fixed trailing.
    destruct (Qltb (trailing_threshold risk_data) price).
    - destruct (Q.max_spec (Qmax fixed trailing) 0) as [[H0 ->]|[H0 ->]];
        destruct (Q.max_spec fixed trailing) as [[H1 E1]|[H1 E1]];
        rewrite ?E1 in *; lra.
    - destruct (Q.max_spec fixed 0) as [[H0 ->]|[H0 ->]]; lra. }
  split; [exact Hstop|]. split; [by rewrite Etp|].
  intros Hs. apply Hstop in Hs.
  destruct (Qle_bool (take_profit risk_data) price) eqn:E; [|done].
  apply Qle_bool_iff in E. rewrite Etp in E. clearbody price entry a. lra.
Qed.

(** A position at 170 above a trailing threshold of 130: the trailing
    stop is 130, and the stop-loss test is false. *)
Lemma stop_loss_is_the_fixed_stop_witness :
  exists risk_data,
    calculate_position_risk_levels (init false)
      (mkPosition "BTC" 1 0 1 170 170) (FetchFrame (flat 110 90 100 15))
      (FetchFrame (flat 110 90 100 5)) 1000 = Some risk_data
    /\ should_execute_stop_loss (mkPosition "BTC" 1 0 1 170 170) risk_data
       = false.
Proof.
  destruct (calculate_position_risk_levels (init false)
              (mkPosition "BTC" 1 0 1 170 170) (FetchFrame (flat 110 90 100 15))
              (FetchFrame (flat 110 90 100 5)) 1000)
    as [risk_data|] eqn:Hrisk; [|vm_compute in Hrisk; discriminate].
  exists risk_data. split; [reflexivity|].
  destruct (should_execute_stop_loss _ risk_data) eqn:E; [|reflexivity].
  destruct (stop_loss_is_the_fixed_stop false _ _ _ _ _ Hrisk) as (H1 & _).
  - vm_compute. reflexivity.
  - repeat constructor; vm_compute; discriminate.
  - apply H1 in E. vm_compute in Hrisk. injection Hrisk as <-.
    vm_compute in E. by destruct E.
Defined.

Lemma Qmin_cases (x y : Q) : Qmin x y = x \/ Qmin x y = y.
Proof.
  unfold Qmin, GenericMinMax.gmin. destruct (x ?= y); auto.
Qed.

Lemma Qmax_cases (x y : Q) : Qmax x y = x \/ Qmax x y = y.
Proof.
  unfold Qmax, GenericMinMax.gmax. destruct (x ?= y); auto.
Qed.

Lemma fold_left_Qmin_spec (r : list Q) (x : Q) :
  fold_left Qmin r x ∈ x :: r
  /\ Forall (fun y => fold_left Qmin r x <= y) (x :: r).
Proof.
  revert x. induction r as [|y r IH]; intros x; cbn [fold_left].
  - split; [apply elem_of_cons; by left|]. repeat constructor. lra.
  - destruct (IH (Qmin x y)) as [Hin Hall].
    apply Forall_cons in Hall as [Hm Hall].
    pose proof (Q.le_min_l x y). pose proof (Q.le_min_r x y).
    split.
    + apply elem_of_cons in Hin as [->|Hin].
      * destruct (Qmin_cases x y) as [->| ->].
        -- apply elem_of_cons; by left.
        -- apply elem_of_cons; right. apply elem_of_cons; by left.
      * apply elem_of_cons; right. by apply elem_of_cons; right.
    + constructor; [lra|]. constructor; [lra|done].
Qed.

Lemma fold_left_Qmax_spec (r : list Q) (x : Q) :
  fold_left Qmax r x ∈ x :: r
  /\ Forall (fun y => y <= fold_left Qmax r x) (x :: r).
Proof.
  revert x. induction r as [|y r IH]; intros x; cbn [fold_left].
  - split; [apply elem_of_cons; by left|]. repeat constructor. lra.
  - destruct (IH (Qmax x y)) as [Hin Hall].
    apply Forall_cons in Hall as [Hm Hall].
    pose proof (Q.le_max_l x y). pose proof (Q.le_max_r x y).
    split.
    + apply elem_of_cons in Hin as [->|Hin].
      * destruct (Qmax_cases x y) as [->| ->].
        -- apply elem_of_cons; by left.
        -- apply elem_of_cons; right. apply elem_of_cons; by left.
      * apply elem_of_cons; right. by apply elem_of_cons; right.
    + constructor; [lra|]. constructor; [lra|done].
Qed.

Lemma tail_nonempty {A} (n : nat) (l : list A) :
  (0 < n)%nat -> l <> [] -> tail n l <> [].
Proof.
  intros Hn Hl E. apply (f_equal length) in E. unfold tail in E.
  rewrite length_drop in E. cbn [length] in E.
  destruct l; [done|]. cbn [length] in E. lia.
Qed.

(** The estimated entry of a non-empty frame of well-formed candles is
    the midpoint of the lowest low and the highest high of its last three
    candles, and so lies between the two; without a frame, or with an
    empty one, it is the current price. *)
Theorem estimate_entry_range df (current_price : Q) :
  df <> [] ->
  Forall well_formed df ->
  exists lo hi : Q,
    lo ∈ low <$> tail 3 df
    /\ hi ∈ high <$> tail 3 df
    /\ Forall (fun b => lo <= low b /\ high b <= hi) (tail 3 df)
    /\ estimate_entry (Some df) current_price = (lo + hi) / 2
    /\ lo <= estimate_entry (Some df) current_price <= hi
    /\ estimate_entry None current_price = current_price
    /\ estimate_entry (Some []) current_price = current_price.
Proof.
  intros Hne Hwf.
  assert (tail 3 df <> []) as Hlast by (apply tail_nonempty; [lia|done]).
  assert (Forall well_formed (tail 3 df)) as Hwf3.
  { apply Forall_forall. intros b Hb. unfold tail in Hb.
    eapply elem_of_sublist in Hb; [|apply sublist_drop].
    by eapply (proj1 (Forall_forall _ _) Hwf). }
  assert (estimate_entry (Some df) current_price
          = (series_min (low <$> tail 3 df) + series_max (high <$> tail 3 df))
            / 2) as ->.
  { destruct df as [|b0 df]; [done|]. unfold estimate_entry, tail.
    by rewrite !length_fmap, !fmap_drop. }
  destruct (tail 3 df) as [|b l]; [done|]. clear Hlast.
  rewrite !fmap_cons. cbn [series_min series_max].
  destruct (fold_left_Qmin_spec (low <$> l) (low b)) as [Hlo Hlos].
  destruct (fold_left_Qmax_spec (high <$> l) (high b)) as [Hhi His].
  set (lo := fold_left Qmin (low <$> l) (low b)) in *.
  set (hi := fold_left Qmax (high <$> l) (high b)) in *.
  exists lo, hi. split; [exact Hlo|]. split; [exact Hhi|].
  rewrite <- !fmap_cons in Hlos, His.
  rewrite Forall_fmap in Hlos, His.
  assert (Forall (fun b1 => lo <= low b1 /\ high b1 <= hi) (b :: l)) as Hall.
  { apply Forall_forall. intros b1 Hb1. split.
    - by apply (proj1 (Forall_forall _ _) Hlos b1).
    - by apply (proj1 (Forall_forall _ _) His b1). }
  split; [exact Hall|]. split; [reflexivity|].
  split; [|done].
  apply Forall_cons in Hall as [[H1 H2] _].
  apply Forall_cons in Hwf3 as [Hb _]. unfold well_formed in Hb.
  clearbody lo hi. split.
  - apply Qle_shift_div_l; lra.
  - apply Qle_shift_div_r; lra.
Qed.

(** Five candles: the last three span 95 to 120, the entry is 107.5. *)
Lemma estimate_entry_range_witness :
  exists lo hi : Q,
    lo ∈ low <$> tail 3 [mkBar 200 1 5; mkBar 110 100 105; mkBar 120 95 100;
                        mkBar 115 99 110; mkBar 112 101 111]
    /\ lo <= estimate_entry
               (Some [mkBar 200 1 5; mkBar 110 100 105; mkBar 120 95 100;
                      mkBar 115 99 110; mkBar 112 101 111]) 50 <= hi.
Proof.
  destruct (estimate_entry_range
              [mkBar 200 1 5; mkBar 110 100 105; mkBar 120 95 100;
               mkBar 115 99 110; mkBar 112 101 111] 50)
    as (lo & hi & Hlo & _ & _ & _ & Hbetween & _).
  - discriminate.
  - repeat constructor; vm_compute; discriminate.
  - exists lo, hi. split; [exact Hlo|exact Hbetween].
Defined.

End Triggers.

(** ** Positions and the value of the portfolio *)

Section Positions.
Import ATRRiskManager.
Implicit Types (get_current_price : string -> Res (option Q))
  (balances : list BalanceRow) (positions : list (string * PositionData))
  (p : PositionData) (row : BalanceRow).

Lemma truthy_Some (price : option Q) (q : Q) :
  truthy price = Some q -> price = Some q /\ ~ q == 0.
Proof.
  destruct price as [q0|]; [|done]. cbn.
  destruct (Qeq_bool q0 0) eqn:E; [done|]. intros [= <-].
  split; [done|]. by apply Qeq_bool_neq.
Qed.

Lemma elem_of_set_position (ticker t : string) p p0 positions :
  (t, p0) ∈ set_position ticker p positions ->
  (t, p0) ∈ positions \/ (t = ticker /\ p0 = p).
Proof.
  induction positions as [|[t1 p1] positions IH]; cbn [set_position].
  - intros H. apply list_elem_of_singleton in H as [= -> ->]. by right.
  - destruct (String.eqb t1 ticker) eqn:E.
    + apply String.eqb_eq in E as ->. intros H.
      apply elem_of_cons in H as [[= -> ->]|H]; [by right|].
      left. by apply elem_of_cons; right.
    + intros H. apply elem_of_cons in H as [[= -> ->]|H].
      * left. by apply elem_of_cons; left.
      * destruct (IH H) as [H'|H']; [|by right].
        left. by apply elem_of_cons; right.
Qed.

Lemma set_position_keys (ticker : string) p positions :
  (set_position ticker p positions).*1 = positions.*1
  \/ ((ticker ∉ positions.*1)
      /\ (set_position ticker p positions).*1 = (positions.*1) ++ [ticker]).
Proof.
  induction positions as [|[t1 p1] positions IH]; cbn [set_position].
  - right. split; [apply not_elem_of_nil|done].
  - destruct (String.eqb t1 ticker) eqn:E; [by left|].
    apply String.eqb_neq in E.
    destruct IH as [IH|[Hfresh IH]].
    + left. by rewrite !fmap_cons, IH.
    + right. split.
      * rewrite fmap_cons. apply not_elem_of_cons. by split.
      * by rewrite !fmap_cons, IH.
Qed.

Lemma set_position_NoDup (ticker : string) p positions :
  NoDup positions.*1 -> NoDup (set_position ticker p positions).*1.
Proof.
  intros Hnd. destruct (set_position_keys ticker p positions)
    as [->|[Hfresh ->]]; [done|].
  apply NoDup_app. split; [done|]. split; [|apply NoDup_singleton].
  intros x Hx Hx'. apply list_elem_of_singleton in Hx' as ->. done.
Qed.

Lemma positions_loop_held get_current_price balances :
  forall positions result,
    positions_loop get_current_price balances positions = Ok result ->
    Forall (fun tp => held_at get_current_price tp.1 tp.2) positions ->
    NoDup positions.*1 ->
    Forall (fun tp => held_at get_current_price tp.1 tp.2) result
    /\ NoDup result.*1.
Proof.
  induction balances as [|row balances IH]; intros positions result Hrun Hall Hnd.
  - by injection Hrun as <-.
  - cbn [positions_loop] in Hrun.
    destruct (String.eqb (row_currency row) "KRW") eqn:Ekrw; [by eapply IH|].
    apply String.eqb_neq in Ekrw.
    destruct (py_float (row_balance row)) as [b|e]; [|done].
    destruct (py_float (row_locked row)) as [l|e]; [|done].
    destruct (Qltb 0 (b + l)) eqn:Eheld; [|by eapply IH].
    apply Qltb_lt in Eheld.
    destruct (get_current_price ("KRW-" ++ row_currency row)%string)
      as [price|e] eqn:Eprice; [|done].
    destruct (truthy price) as [q|] eqn:Etruthy; [|by eapply IH].
    apply truthy_Some in Etruthy as [-> Hq].
    eapply IH; [exact Hrun| |by apply set_position_NoDup].
    apply Forall_forall. intros [t p0] Hin.
    apply elem_of_set_position in Hin as [Hin|[-> ->]].
    + by apply (proj1 (Forall_forall _ _) Hall (t, p0)).
    + by repeat split.
Qed.

(** Every position [get_current_positions] returns is a coin other than
    KRW with a positive total, which is its available plus its locked
    amount, stored under "KRW-" and its currency with the non-zero price
    the lookup gave and the market value total times price; no ticker
    occurs twice. *)
Theorem get_current_positions_held (get_balances : Res (list BalanceRow))
    get_current_price :
  Forall (fun tp => held_at get_current_price tp.1 tp.2)
    (get_current_positions get_balances get_current_price)
  /\ NoDup (get_current_positions get_balances get_current_price).*1.
Proof.
  unfold get_current_positions.
  destruct get_balances as [balances|e]; [|split; constructor].
  destruct (positions_loop get_current_price balances []) as [result|e] eqn:Hrun;
    [|split; constructor].
  eapply positions_loop_held; [exact Hrun|constructor|constructor].
Qed.

Lemma positions_loop_unreadable get_current_price balances row :
  row ∈ balances ->
  unreadable get_current_price row ->
  forall positions,
    exists e, positions_loop get_current_price balances positions = Exn e.
Proof.
  intros Hin [Hkrw Hbad].
  induction balances as [|row0 balances IH]; intros positions.
  - by apply elem_of_nil in Hin.
  - cbn [positions_loop].
    apply elem_of_cons in Hin as [<-|Hin].
    + destruct (String.eqb_spec (row_currency row) "KRW") as [|_]; [done|].
      destruct Hbad as [[e ->]|[[e He]|(b & l & e & -> & -> & Hheld & ->)]].
      * by exists e.
      * destruct (py_float (row_balance row)) as [b|e0]; [|by exists e0].
        rewrite He. by exists e.
      * rewrite (proj2 (Qltb_lt _ _) Hheld). by exists e.
    + destruct (String.eqb (row_currency row0) "KRW"); [by apply IH|].
      destruct (py_float (row_balance row0)) as [b|e]; [|by exists e].
      destruct (py_float (row_locked row0)) as [l|e]; [|by exists e].
      destruct (Qltb 0 (b + l)); [|by apply IH].
      destruct (get_current_price ("KRW-" ++ row_currency row0)%string)
        as [price|e]; [|by exists e].
      destruct (truthy price); by apply IH.
Qed.

(** One row of a coin with an amount that [float()] rejects, or one held
    coin whose price lookup raises, and [get_current_positions] returns
    the empty dictionary: the positions collected from the other rows are
    dropped with it. *)
Theorem get_current_positions_all_or_nothing get_current_price balances row :
  row ∈ balances ->
  unreadable get_current_price row ->
  get_current_positions (Ok balances) get_current_price = [].
Proof.
  intros Hin Hbad. unfold get_current_positions.
  by destruct (positions_loop_unreadable get_current_price balances row Hin
                 Hbad []) as [e ->].
Qed.

(** A held coin is dropped because the amount of another coin is not a
    number. *)
Lemma get_current_positions_all_or_nothing_witness :
  get_current_positions
    (Ok (sample_balances ++ [mkBalanceRow "XRP" (PStr "n/a") (PNum 0)]))
    sample_price = []
  /\ get_current_positions (Ok sample_balances) sample_price <> [].
Proof.
  split; [|vm_compute; discriminate].
  apply (get_current_positions_all_or_nothing sample_price _
           (mkBalanceRow "XRP" (PStr "n/a") (PNum 0))).
  - apply elem_of_app; right. apply list_elem_of_singleton. reflexivity.
  - split; [discriminate|]. left. by eexists.
Defined.

Lemma portfolio_loop_covers get_current_price balances :
  (forall t q, get_current_price t = Ok (Some q) -> 0 <= q) ->
  Forall cash_not_negative balances ->
  forall positions result (v v' : Q),
    positions_loop get_current_price balances positions = Ok result ->
    portfolio_loop get_current_price balances v = Ok v' ->
    v <= v'
    /\ forall t p, (t, p) ∈ result ->
         (t, p) ∈ positions \/ market_value p <= v' - v.
Proof.
  intros Hprices. induction 1 as [|row balances Hcash Hrest IH];
    intros positions result v v' Hpos Hval.
  - injection Hpos as <-. injection Hval as <-. split; [lra|]. by left.
  - cbn [positions_loop portfolio_loop] in Hpos, Hval.
    destruct (py_float (row_balance row)) as [b|e] eqn:Eb.
    2: { by destruct (String.eqb (row_currency row) "KRW"). }
    destruct (py_float (row_locked row)) as [l|e] eqn:El.
    2: { by destruct (String.eqb (row_currency row) "KRW"). }
    destruct (String.eqb_spec (row_currency row) "KRW") as [Ekrw|Ekrw].
    { specialize (Hcash Ekrw b l Eb El).
      destruct (IH _ _ _ _ Hpos Hval) as [Hle Hcover]. split; [lra|].
      intros t p Hin. destruct (Hcover t p Hin) as [H|H]; [by left|].
      right. lra. }
    destruct (Qltb 0 (b + l)) eqn:Eheld; [|by eapply IH].
    apply Qltb_lt in Eheld.
    destruct (get_current_price ("KRW-" ++ row_currency row)%string)
      as [price|e] eqn:Eprice; [|done].
    destruct (truthy price) as [q|] eqn:Etruthy; [|by eapply IH].
    apply truthy_Some in Etruthy as [-> Hq].
    pose proof (Hprices _ _ Eprice) as Hq0.
    assert (0 <= (b + l) * q) as Hvalue by nra.
    destruct (IH _ _ _ _ Hpos Hval) as [Hle Hcover]. split; [lra|].
    intros t p Hin. destruct (Hcover t p Hin) as [H|H].
    + apply elem_of_set_position in H as [H|[-> ->]]; [by left|].
      right. cbn [market_value]. lra.
    + right. lra.
Qed.

(** When prices are not negative and cash is not negative, the market
    value of every position of [get_current_positions] is part of what
    [get_total_portfolio_value] adds up from the same balances and
    prices, so the [position_risk] that
    [calculate_position_risk_levels] reports for it is a share of the
    portfolio: above 0 and at most 100 percent. *)
Theorem position_risk_is_a_share (self : Manager) get_current_price balances
    (ticker : string) p (atr_fetch entry_fetch : Fetch) (risk_data : RiskData) :
  (forall t q, get_current_price t = Ok (Some q) -> 0 <= q) ->
  Forall cash_not_negative balances ->
  (ticker, p) ∈ get_current_positions (Ok balances) get_current_price ->
  calculate_position_risk_levels self p atr_fetch entry_fetch
    (get_total_portfolio_value (Ok balances) get_current_price)
  = Some risk_data ->
  market_value p <= get_total_portfolio_value (Ok balances) get_current_price
  /\ 0 < position_risk risk_data <= 100.
Proof.
  intros Hprices Hcash Hin Hrisk.
  destruct (risk_levels_percentages _ _ _ _ _ _ Hrisk)
    as (_ & Htpv & _ & -> & _).
  destruct (get_current_positions_held (Ok balances) get_current_price)
    as [Hheld _].
  apply (proj1 (Forall_forall _ _) Hheld) in Hin as Hp.
  destruct Hp as (_ & _ & Htotal & _ & Hprice & Hmv & Hlookup).
  cbn [fst snd] in *.
  pose proof (Hprices _ _ Hlookup) as Hprice0.
  assert (0 < market_value p) as Hpos by (rewrite Hmv; nra).
  unfold get_current_positions in Hin.
  unfold get_total_portfolio_value in *.
  destruct (positions_loop get_current_price balances []) as [result|e]
    eqn:Hloop; [|by apply elem_of_nil in Hin].
  destruct (portfolio_loop get_current_price balances 0) as [v|e] eqn:Hval;
    [|by destruct Htpv].
  destruct (portfolio_loop_covers get_current_price balances Hprices Hcash
              _ _ _ _ Hloop Hval) as [_ Hcover].
  destruct (Hcover _ _ Hin) as [H|H]; [by apply elem_of_nil in H|].
  assert (market_value p <= v) as Hle by lra.
  split; [exact Hle|].
  set (mv := market_value p) in *. clearbody mv. split.
  - apply Qmult_lt_0_compat; [|reflexivity].
    apply Qlt_shift_div_l; lra.
  - assert (mv / v <= 1) by (apply Qle_shift_div_r; lra). lra.
Qed.

(** Half a coin available and half locked at 200,000, beside 100,000 in
    cash: the position is two thirds of the portfolio. *)
Lemma position_risk_is_a_share_witness :
  exists risk_data,
    calculate_position_risk_levels (init false)
      (mkPosition "BTC" 0.5 0.5 (0.5 + 0.5) 200000 ((0.5 + 0.5) * 200000))
      FetchNone FetchNone
      (get_total_portfolio_value (Ok sample_balances) sample_price)
    = Some risk_data
    /\ 0 < position_risk risk_data <= 100.
Proof.
  destruct (calculate_position_risk_levels (init false)
              (mkPosition "BTC" 0.5 0.5 (0.5 + 0.5) 200000
                 ((0.5 + 0.5) * 200000))
              FetchNone FetchNone
              (get_total_portfolio_value (Ok sample_balances) sample_price))
    as [risk_data|] eqn:Hrisk; [|vm_compute in Hrisk; discriminate].
  exists risk_data. split; [reflexivity|].
  apply (position_risk_is_a_share (init false) sample_price sample_balances
           "KRW-BTC"
           (mkPosition "BTC" 0.5 0.5 (0.5 + 0.5) 200000 ((0.5 + 0.5) * 200000))
           FetchNone FetchNone risk_data).
  - intros t q [= <-]. vm_compute. discriminate.
  - repeat constructor; intros H; try discriminate H.
    intros b l [= <-] [= <-]. vm_compute. discriminate.
  - apply list_elem_of_singleton. reflexivity.
  - exact Hrisk.
Defined.

Lemma py_sum_snoc (l : list Q) (x : Q) : py_sum (l ++ [x]) == py_sum l + x.
Proof.
  rewrite py_sum_app. unfold py_sum at 2. cbn [fold_left]. ring.
Qed.

Lemma notion_loop_total get_current_price balances :
  Forall cash_not_negative balances ->
  forall (portfolio_data : list NotionRow) (v : Q),
    py_sum (nr_total_value <$> portfolio_data) == v ->
    match notion_loop get_current_price balances portfolio_data,
          portfolio_loop get_current_price balances v with
    | Ok result, Ok v' => py_sum (nr_total_value <$> result) == v'
    | Exn _, Exn _ => True
    | _, _ => False
    end.
Proof.
  induction 1 as [|row balances Hcash Hrest IH]; intros portfolio_data v Hsum;
    cbn [notion_loop portfolio_loop]; [done|].
  destruct (py_float (row_balance row)) as [b|e] eqn:Eb; [|done].
  destruct (py_float (row_locked row)) as [l|e] eqn:El; [|done].
  destruct (Qle_bool (b + l) 0) eqn:Ele.
  - apply Qle_bool_iff in Ele.
    assert (Qltb 0 (b + l) = false) as -> by (apply Qltb_ge; exact Ele).
    destruct (String.eqb_spec (row_currency row) "KRW") as [Ekrw|_];
      [|by apply IH].
    specialize (Hcash Ekrw b l Eb El). apply IH. lra.
  - assert (0 < b + l) as Hheld.
    { apply Qltb_lt. unfold Qltb. by rewrite Ele. }
    rewrite (proj2 (Qltb_lt _ _) Hheld).
    destruct (String.eqb (row_currency row) "KRW").
    + apply IH. rewrite fmap_app. cbn [fmap list_fmap nr_total_value].
      rewrite py_sum_snoc, Hsum. reflexivity.
    + destruct (get_current_price ("KRW-" ++ row_currency row)%string)
        as [price|e]; [|done].
      destruct (truthy price) as [q|]; [|by apply IH].
      apply IH. rewrite fmap_app. cbn [fmap list_fmap nr_total_value].
      rewrite py_sum_snoc, Hsum. reflexivity.
Qed.

(** The total values of the rows [get_current_portfolio_for_notion]
    builds add up to what [get_total_portfolio_value] returns for the
    same balances and prices, also when either fails, as long as no cash
    row holds a negative amount. *)
Theorem notion_portfolio_adds_up (get_balances : Res (list BalanceRow))
    get_current_price :
  (forall balances, get_balances = Ok balances ->
     Forall cash_not_negative balances) ->
  py_sum (nr_total_value
            <$> get_current_portfolio_for_notion get_balances get_current_price)
  == get_total_portfolio_value get_balances get_current_price.
Proof.
  intros Hcash.
  unfold get_current_portfolio_for_notion, get_total_portfolio_value.
  destruct get_balances as [balances|e]; [|reflexivity].
  pose proof (notion_loop_total get_current_price balances (Hcash _ eq_refl)
                [] 0 ltac:(reflexivity)) as H.
  destruct (notion_loop get_current_price balances []) as [result|e],
    (portfolio_loop get_current_price balances 0) as [v|e']; try done.
Qed.

(** The sample balances: 100,000 in cash and a coin worth 200,000. *)
Lemma notion_portfolio_adds_up_witness :
  py_sum (nr_total_value
            <$> get_current_portfolio_for_notion (Ok sample_balances)
                  sample_price)
  == get_total_portfolio_value (Ok sample_balances) sample_price
  /\ get_total_portfolio_value (Ok sample_balances) sample_price == 300000.
Proof.
  split; [|vm_compute; reflexivity].
  apply (notion_portfolio_adds_up (Ok sample_balances) sample_price).
  intros balances [= <-].
  repeat constructor; intros H; try discriminate H.
  intros b l [= <-] [= <-]. vm_compute. discriminate.
Defined.

(** An unreadable cash row does not touch the positions, which skip cash
    before converting any amount, but it makes
    [get_total_portfolio_value] return 0, and with a portfolio value of 0
    [calculate_position_risk_levels] returns the empty dictionary for
    every position: the monitoring cycle then checks no trigger at
    all. *)
Theorem unreadable_cash_stops_monitoring get_current_price balances row :
  row ∈ balances ->
  row_currency row = "KRW"%string ->
  (exists s, row_balance row = PStr s \/ row_locked row = PStr s) ->
  get_total_portfolio_value (Ok balances) get_current_price = 0
  /\ (forall self p atr_fetch entry_fetch,
        calculate_position_risk_levels self p atr_fetch entry_fetch
          (get_total_portfolio_value (Ok balances) get_current_price) = None)
  /\ get_current_positions (Ok balances) get_current_price
     = get_current_positions
         (Ok (List.filter (fun r => negb (String.eqb (row_currency r) "KRW"))
                balances))
         get_current_price.
Proof.
  intros Hin Hkrw [s Hbad].
  assert (forall v, exists e,
            portfolio_loop get_current_price balances v = Exn e) as Hfail.
  { clear -Hin Hbad. induction balances as [|row0 balances IH]; intros v.
    - by apply elem_of_nil in Hin.
    - cbn [portfolio_loop]. apply elem_of_cons in Hin as [<-|Hin].
      + destruct Hbad as [-> | ->]; cbn [py_float]; [by eexists|].
        destruct (py_float (row_balance row)); by eexists.
      + destruct (py_float (row_balance row0)) as [b|e]; [|by exists e].
        destruct (py_float (row_locked row0)) as [l|e]; [|by exists e].
        destruct (String.eqb (row_currency row0) "KRW"); [by apply IH|].
        destruct (Qltb 0 (b + l)); [|by apply IH].
        destruct (get_current_price ("KRW-" ++ row_currency row0)%string)
          as [price|e]; [|by exists e].
        destruct (truthy price); by apply IH. }
  assert (get_total_portfolio_value (Ok balances) get_current_price = 0)
    as Hzero.
  { unfold get_total_portfolio_value. by destruct (Hfail 0) as [e ->]. }
  split; [exact Hzero|]. split.
  - intros self p atr_fetch entry_fetch. rewrite Hzero.
    unfold calculate_position_risk_levels.
    destruct entry_fetch; [done|by destruct (Qeq_bool _ 0)..].
  - unfold get_current_positions.
    assert (forall positions,
              positions_loop get_current_price balances positions
              = positions_loop get_current_price
                  (List.filter
                     (fun r => negb (String.eqb (row_currency r) "KRW"))
                     balances) positions) as ->; [|done].
    clear. induction balances as [|row0 balances IH]; intros positions; [done|].
    cbn [positions_loop List.filter].
    destruct (String.eqb (row_currency row0) "KRW") eqn:E; cbn [negb];
      [apply IH|].
    cbn [positions_loop]. rewrite E.
    destruct (py_float (row_balance row0)) as [b|e]; [|done].
    destruct (py_float (row_locked row0)) as [l|e]; [|done].
    destruct (Qltb 0 (b + l)); [|apply IH].
    destruct (get_current_price ("KRW-" ++ row_currency row0)%string)
      as [price|e]; [|done].
    destruct (truthy price); apply IH.
Qed.

(** The sample balances with a cash row whose amount is not a number. *)
Lemma unreadable_cash_stops_monitoring_witness :
  get_total_portfolio_value
    (Ok (mkBalanceRow "KRW" (PStr "n/a") (PNum 0) :: sample_balances))
    sample_price = 0
  /\ get_current_positions
       (Ok (mkBalanceRow "KRW" (PStr "n/a") (PNum 0) :: sample_balances))
       sample_price <> [].
Proof.
  split; [|vm_compute; discriminate].
  apply (unreadable_cash_stops_monitoring sample_price _
           (mkBalanceRow "KRW" (PStr "n/a") (PNum 0))).
  - apply elem_of_cons; by left.
  - reflexivity.
  - exists "n/a"%string. by left.
Defined.

End Positions.

(** ** The sale of a position *)

Section RiskOrderSales.
Import ATRRiskManager EnhancedSmartOrderExecutor RiskOrders.
Implicit Types (self : Manager) (ex : Exchange) (ticker : string)
  (position_data : PositionData).

(** [execute_market_sell] makes no call or one, for the ticker and the
    amount it settled on; it reports success only with that one call. *)
Lemma execute_market_sell_calls ex ticker (amount : Q) :
  (execute_market_sell ex ticker amount).2 = []
  /\ success (execute_market_sell ex ticker amount).1 = false
  \/ exists sold,
       sell_amount ex ticker amount = Ok sold
       /\ (execute_market_sell ex ticker amount).2 = [SellMarket ticker sold].
Proof.
  unfold execute_market_sell.
  destruct (sell_amount ex ticker amount) as [sold|e]; [|by left].
  destruct (get_current_price ex ticker) as [price|e]; [|by left].
  right. exists sold. split; [done|].
  destruct (sell_market_order ex ticker sold) as [response|e]; [|done].
  by destruct (has_uuid response).
Qed.

(** [execute_risk_order] sells the available balance only, never the
    locked part: with nothing available it places no order and returns
    [False]; otherwise it places at most one order, a market sell of the
    ticker, and when the executor is not in its own test mode the amount
    is the available balance, or in the manager's test mode the smaller
    of that and 0.001.  It returns [True] only after such an order, and
    the P&L it then reports is 0 whatever the price, because the entry
    it compares the price with is the price itself. *)
Theorem execute_risk_order_sale self ex ticker position_data
    (order_type : OrderType) :
  let outcome := execute_risk_order self ex ticker position_data order_type in
  (balance position_data <= 0 ->
   outcome = mkOutcome false [] None)
  /\ (0 < balance position_data ->
      is_test_mode ex = false ->
      exists amount,
        amount = (if test_mode self then Qmin (balance position_data) 0.001
                  else balance position_data)
        /\ 0 < amount <= balance position_data
        /\ (order_calls outcome = []
            \/ order_calls outcome = [SellMarket ticker amount]))
  /\ (returned outcome = true ->
      (exists amount, order_calls outcome = [SellMarket ticker amount])
      /\ exists pl, profit_loss outcome = Some pl /\ pl == 0).
Proof.
  intros outcome. subst outcome. unfold execute_risk_order.
  split; [|split].
  - intros Hle. apply Qle_bool_iff in Hle. by rewrite Hle.
  - intros Hpos Hprod.
    assert (Qle_bool (balance position_data) 0 = false) as ->.
    { apply Qltb_lt in Hpos. unfold Qltb in Hpos.
      by destruct (Qle_bool (balance position_data) 0). }
    set (amount := if test_mode self then Qmin (balance position_data) 0.001
                   else balance position_data).
    exists amount. split; [done|].
    assert (0 < amount <= balance position_data) as Hamount.
    { subst amount. destruct (test_mode self); [|lra].
      destruct (Q.min_spec (balance position_data) 0.001)
        as [[H ->]|[H ->]]; [lra|].
      split; [reflexivity|lra]. }
    split; [exact Hamount|].
    destruct (execute_market_sell_calls ex ticker amount)
      as [[Hnone _]|(sold & Hsold & Hone)].
    + destruct (execute_market_sell ex ticker amount) as [r calls].
      cbn [snd] in Hnone. subst calls.
      destruct (success r); [|by left].
      destruct (Qeq_bool (current_price position_data) 0); by left.
    + unfold sell_amount in Hsold. rewrite Hprod in Hsold.
      injection Hsold as <-.
      destruct (execute_market_sell ex ticker amount) as [r calls].
      cbn [snd] in Hone. subst calls.
      destruct (success r); [|by right].
      destruct (Qeq_bool (current_price position_data) 0); by right.
  - destruct (Qle_bool (balance position_data) 0); [done|].
    set (amount := if test_mode self then Qmin (balance position_data) 0.001
                   else balance position_data).
    destruct (execute_market_sell_calls ex ticker amount)
      as [[_ Hfail]|(sold & _ & Hone)].
    + destruct (execute_market_sell ex ticker amount) as [r calls].
      cbn [fst] in Hfail. by rewrite Hfail.
    + destruct (execute_market_sell ex ticker amount) as [r calls].
      cbn [snd] in Hone. subst calls.
      destruct (success r); [|done].
      destruct (Qeq_bool (current_price position_data) 0) eqn:E; [done|].
      apply Qeq_bool_neq in E. intros _. split; [by exists sold|].
      eexists. split; [reflexivity|]. field. exact E.
Qed.

(** A position with 0.3 available and 0.7 locked, sold in production:
    one market sell of 0.3. *)
Lemma execute_risk_order_sale_witness :
  exists amount,
    amount = 0.3
    /\ 0 < amount <= 0.3
    /\ (order_calls (execute_risk_order (init false) accepting_exchange
                       "KRW-BTC" (mkPosition "BTC" 0.3 0.7 1 100 100)
                       STOP_LOSS) = []
        \/ order_calls (execute_risk_order (init false) accepting_exchange
                          "KRW-BTC" (mkPosition "BTC" 0.3 0.7 1 100 100)
                          STOP_LOSS) = [SellMarket "KRW-BTC" amount]).
Proof.
  destruct (execute_risk_order_sale (init false) accepting_exchange "KRW-BTC"
              (mkPosition "BTC" 0.3 0.7 1 100 100) STOP_LOSS) as (_ & H & _).
  apply H; vm_compute; reflexivity.
Defined.

End RiskOrderSales.

(** ** A monitoring cycle *)

Section MonitoringCycle.
Import ATRRiskManager.
Implicit Types (self : Manager) (mkt : Market) (c : Cycle)
  (positions : list (string * PositionData)).

(** What one position adds to a cycle: at most one call of
    [execute_risk_order], and an executed order only for a call that
    returned [True], with the price and the available balance of the
    position. *)
Lemma check_triggers_adds mkt (ticker : string) position_data risk_data c :
  let c' := check_triggers mkt ticker position_data risk_data c in
  exists calls done,
    risk_order_calls c' = risk_order_calls c ++ calls
    /\ executed_orders c' = executed_orders c ++ done
    /\ (length done <= length calls <= 1)%nat
    /\ Forall (fun call => call.1 = ticker) calls
    /\ Forall (fun o =>
                 (eo_ticker o, eo_type o) ∈ calls
                 /\ execute_risk_order mkt ticker position_data (eo_type o)
                    = true
                 /\ eo_price o = current_price position_data
                 /\ eo_amount o = balance position_data) done
    /\ (done <> [] -> risk_alerts c' = risk_alerts c)
    /\ (length (risk_alerts c) <= length (risk_alerts c')
        <= length (risk_alerts c) + 2)%nat.
Proof.
  intros c'. subst c'. unfold check_triggers.
  assert (forall ty : OrderType,
            execute_risk_order mkt ticker position_data ty = true ->
            Forall (fun o =>
                 (eo_ticker o, eo_type o) ∈ [(ticker, ty)]
                 /\ execute_risk_order mkt ticker position_data (eo_type o)
                    = true
                 /\ eo_price o = current_price position_data
                 /\ eo_amount o = balance position_data)
              [mkExecuted ticker ty (current_price position_data)
                 (balance position_data)]) as Hone.
  { intros ty Hok. constructor; [|constructor].
    cbn [eo_ticker eo_type eo_price eo_amount].
    split; [apply list_elem_of_singleton; reflexivity|done]. }
  assert (forall (l : list Alert) (a1 a2 : Alert) (b1 b2 : bool),
            (length l
             <= length (if b2 then (if b1 then l ++ [a1] else l) ++ [a2]
                        else if b1 then l ++ [a1] else l)
             <= length l + 2)%nat) as Halerts.
  { intros l a1 a2 [] []; rewrite ?length_app; cbn [length]; lia. }
  destruct (should_execute_stop_loss position_data risk_data).
  - destruct (execute_risk_order mkt ticker position_data STOP_LOSS) eqn:Hok.
    + exists [(ticker, STOP_LOSS)], [mkExecuted ticker STOP_LOSS
                                      (current_price position_data)
                                      (balance position_data)].
      cbn [risk_order_calls executed_orders risk_alerts length].
      split; [done|]. split; [done|]. split; [lia|].
      split; [by repeat constructor|]. split; [by apply Hone|].
      split; [done|lia].
    + exists [(ticker, STOP_LOSS)], [].
      cbn [risk_order_calls executed_orders risk_alerts length].
      rewrite app_nil_r.
      split; [done|]. split; [done|]. split; [lia|].
      split; [by repeat constructor|]. split; [constructor|].
      split; [done|apply Halerts].
  - destruct (should_execute_take_profit position_data risk_data).
    + destruct (execute_risk_order mkt ticker position_data TAKE_PROFIT)
        eqn:Hok.
      * exists [(ticker, TAKE_PROFIT)], [mkExecuted ticker TAKE_PROFIT
                                          (current_price position_data)
                                          (balance position_data)].
        cbn [risk_order_calls executed_orders risk_alerts length].
        split; [done|]. split; [done|]. split; [lia|].
        split; [by repeat constructor|]. split; [by apply Hone|].
        split; [done|lia].
      * exists [(ticker, TAKE_PROFIT)], [].
        cbn [risk_order_calls executed_orders risk_alerts length].
        rewrite app_nil_r.
        split; [done|]. split; [done|]. split; [lia|].
        split; [by repeat constructor|]. split; [constructor|].
        split; [done|apply Halerts].
    + exists [], [].
      cbn [risk_order_calls executed_orders risk_alerts length].
      rewrite !app_nil_r.
      split; [done|]. split; [done|]. split; [lia|].
      split; [constructor|]. split; [constructor|].
      split; [done|apply Halerts].
Qed.

(** A monitoring cycle calls [execute_risk_order] at most once for each
    position, every executed order it records belongs to a call that
    returned [True] for a position of the cycle and carries that
    position's price and available balance, and it raises at most two
    alerts for each position. *)
Theorem monitor_loop_accounts self mkt positions :
  let c := monitor_loop self mkt positions start in
  (length (executed_orders c) <= length (risk_order_calls c)
   <= length positions)%nat
  /\ (length (risk_alerts c) <= 2 * length positions)%nat
  /\ Forall (fun call => call.1 ∈ positions.*1) (risk_order_calls c)
  /\ Forall (fun o =>
               (eo_ticker o, eo_type o) ∈ risk_order_calls c
               /\ exists position_data,
                    (eo_ticker o, position_data) ∈ positions
                    /\ execute_risk_order mkt (eo_ticker o) position_data
                         (eo_type o) = true
                    /\ eo_price o = current_price position_data
                    /\ eo_amount o = balance position_data)
       (executed_orders c).
Proof.
  intros c. subst c. unfold monitor_loop.
  assert (forall (done : list (string * PositionData)) c,
            ((length (executed_orders c) <= length (risk_order_calls c)
              <= length done)%nat
             /\ (length (risk_alerts c) <= 2 * length done)%nat
             /\ Forall (fun call => call.1 ∈ (done ++ positions).*1)
                  (risk_order_calls c)
             /\ Forall (fun o =>
                   (eo_ticker o, eo_type o) ∈ risk_order_calls c
                   /\ exists position_data,
                        (eo_ticker o, position_data) ∈ done ++ positions
                        /\ execute_risk_order mkt (eo_ticker o) position_data
                             (eo_type o) = true
                        /\ eo_price o = current_price position_data
                        /\ eo_amount o = balance position_data)
                  (executed_orders c)) ->
            let c' :=
              fold_left
                (fun c '(ticker, position_data) =>
                   match calculate_position_risk_levels self position_data
                           (ohlcv_atr mkt ticker) (ohlcv_entry mkt ticker)
                           (total_portfolio_value mkt ticker) with
                   | None => c
                   | Some risk_data =>
                       check_triggers mkt ticker position_data risk_data c
                   end) positions c in
            (length (executed_orders c') <= length (risk_order_calls c')
             <= length (done ++ positions))%nat
            /\ (length (risk_alerts c') <= 2 * length (done ++ positions))%nat
            /\ Forall (fun call => call.1 ∈ (done ++ positions).*1)
                 (risk_order_calls c')
            /\ Forall (fun o =>
                  (eo_ticker o, eo_type o) ∈ risk_order_calls c'
                  /\ exists position_data,
                       (eo_ticker o, position_data) ∈ done ++ positions
                       /\ execute_risk_order mkt (eo_ticker o) position_data
                            (eo_type o) = true
                       /\ eo_price o = current_price position_data
                       /\ eo_amount o = balance position_data)
                 (executed_orders c')) as Hloop.
  { induction positions as [|[ticker position_data] positions IH];
      intros done c (Hlen & Halerts & Hcalls & Hexec); cbn [fold_left].
    - rewrite app_nil_r in *. done.
    - replace (done ++ (ticker, position_data) :: positions)
        with ((done ++ [(ticker, position_data)]) ++ positions) in *
        by (by rewrite <- app_assoc).
      apply IH. rewrite length_app. cbn [length].
      destruct (calculate_position_risk_levels self position_data
                  (ohlcv_atr mkt ticker) (ohlcv_entry mkt ticker)
                  (total_portfolio_value mkt ticker)) as [risk_data|].
      2: { split; [lia|]. split; [lia|]. done. }
      destruct (check_triggers_adds mkt ticker position_data risk_data c)
        as (calls & executed & -> & -> & Hn & Htickers & Hdone & _ & Hal).
      rewrite !length_app. split; [lia|]. split; [lia|].
      split.
      + apply Forall_app. split; [done|].
        eapply Forall_impl; [exact Htickers|]. intros call ->.
        rewrite !fmap_app. apply elem_of_app; left.
        apply elem_of_app; right. cbn. apply list_elem_of_singleton.
        reflexivity.
      + apply Forall_app. split.
        * eapply Forall_impl; [exact Hexec|]. intros o (Hin & Hpos).
          split; [|done]. by apply elem_of_app; left.
        * eapply Forall_impl; [exact Hdone|].
          intros o (Hin & Hok & Hprice & Hamount).
          assert (eo_ticker o = ticker) as Ht.
          { by apply (proj1 (Forall_forall _ _) Htickers _ Hin). }
          split; [by apply elem_of_app; right|].
          exists position_data. rewrite Ht. split; [|done].
          apply elem_of_app; left. apply elem_of_app; right.
          apply list_elem_of_singleton. reflexivity. }
  apply (Hloop [] start). cbn. split; [lia|]. split; [lia|].
  split; constructor.
Qed.

End MonitoringCycle.

(** ** Market orders: amounts *)

Section MarketOrderAmounts.
Import EnhancedSmartOrderExecutor.
Implicit Types (ex : Exchange) (ticker : string).

(** The amount a market sell settles on.  In production it is the
    requested amount.  In test mode with a positive balance it is
    [max(min(balance * 0.05, amount), 0.0001)]: the smaller of the
    request and 5% of the balance, but never less than 0.0001, so that a
    request below 0.0001 is raised to 0.0001; with a balance that is not
    positive it is the requested amount.  In test mode a balance lookup
    that raises, or returns [None], fails the sale before any order is
    placed.  Once the amount is settled, a price lookup that raises
    fails the sale with no order; otherwise exactly one order is placed,
    for the settled amount, and the sale succeeds, reporting that amount,
    exactly when the response carries an order id. *)
Theorem execute_market_sell_amount ex ticker (amount : Q) :
  (is_test_mode ex = false -> sell_amount ex ticker amount = Ok amount)
  /\ (is_test_mode ex = true ->
      forall current_balance,
        get_balance ex ticker = Ok (Some current_balance) ->
        (0 < current_balance ->
         sell_amount ex ticker amount
         = Ok (Qmax (Qmin (current_balance * 0.05) amount) 0.0001)
         /\ 0.0001 <= Qmax (Qmin (current_balance * 0.05) amount) 0.0001
         /\ Qmax (Qmin (current_balance * 0.05) amount) 0.0001
            <= Qmax amount 0.0001
         /\ Qmax (Qmin (current_balance * 0.05) amount) 0.0001
            <= Qmax (current_balance * 0.05) 0.0001
         /\ (amount < 0.0001 ->
             Qmax (Qmin (current_balance * 0.05) amount) 0.0001 = 0.0001))
        /\ (current_balance <= 0 -> sell_amount ex ticker amount = Ok amount))
  /\ (is_test_mode ex = true ->
      (exists e, get_balance ex ticker = Exn e)
      \/ get_balance ex ticker = Ok None ->
      (execute_market_sell ex ticker amount).2 = []
      /\ success (execute_market_sell ex ticker amount).1 = false)
  /\ (forall sold, sell_amount ex ticker amount = Ok sold ->
      (forall e, get_current_price ex ticker = Exn e ->
         execute_market_sell ex ticker amount = (Failure e, []))
      /\ (forall price, get_current_price ex ticker = Ok price ->
            (execute_market_sell ex ticker amount).2 = [SellMarket ticker sold]
            /\ (forall order,
                  sell_market_order ex ticker sold = Ok (Some order) ->
                  is_Some (order !! "uuid"%string) ->
                  (execute_market_sell ex ticker amount).1
                  = Success order price sold))
      /\ forall order price qty,
           (execute_market_sell ex ticker amount).1 = Success order price qty ->
           qty = sold
           /\ (execute_market_sell ex ticker amount).2 = [SellMarket ticker sold]
           /\ sell_market_order ex ticker sold = Ok (Some order)
           /\ is_Some (order !! "uuid"%string)).
Proof.
  split; [|split; [|split]].
  - intros Hprod. unfold sell_amount. by rewrite Hprod.
  - intros Htest current_balance Hbal. unfold sell_amount.
    rewrite Htest, Hbal. split.
    + intros Hpos. rewrite (proj2 (Qltb_lt _ _) Hpos).
      split; [reflexivity|].
      set (five := current_balance * 0.05).
      pose proof (Q.le_max_r (Qmin five amount) 0.0001).
      pose proof (Q.le_max_l (Qmin five amount) 0.0001).
      pose proof (Q.le_min_l five amount). pose proof (Q.le_min_r five amount).
      split; [done|]. split; [|split].
      * apply Q.max_le_compat_r. done.
      * apply Q.max_le_compat_r. done.
      * intros Hsmall.
        assert (Qmin five amount < 0.0001) as Hlt by lra.
        unfold Qmax, GenericMinMax.gmax.
        by rewrite (proj1 (Qlt_alt _ _) Hlt).
    + intros Hneg. by rewrite (proj2 (Qltb_ge _ _) Hneg).
  - intros Htest Hbad. unfold execute_market_sell, sell_amount.
    rewrite Htest. by destruct Hbad as [[e ->]| ->].
  - intros sold Hsold. unfold execute_market_sell. rewrite Hsold.
    split; [by intros e ->|]. split.
    + intros price ->.
      destruct (sell_market_order ex ticker sold) as [response|e] eqn:Hresp.
      2: { split; [done|]. by intros order [=]. }
      destruct (has_uuid response) as [order|] eqn:Huuid.
      * split; [done|]. intros order0 [= ->] Hid.
        unfold has_uuid in Huuid. destruct Hid as [u Hu].
        rewrite Hu in Huuid. by injection Huuid as <-.
      * split; [done|]. intros order0 [= ->] Hid.
        unfold has_uuid in Huuid. destruct Hid as [u Hu].
        by rewrite Hu in Huuid.
    + destruct (get_current_price ex ticker) as [price|e]; [|done].
      destruct (sell_market_order ex ticker sold) as [response|e] eqn:Hresp;
        [|done].
      destruct (has_uuid response) as [order|] eqn:Huuid; [|done].
      intros order0 price0 qty [= <- <- <-].
      split; [done|]. split; [done|].
      unfold has_uuid in Huuid. destruct response as [r|]; [|done].
      destruct (r !! "uuid"%string) eqn:E; [|done].
      injection Huuid as <-. split; [done|]. by rewrite E.
Qed.

(** A test-mode sale of 0.00001 coins with a balance of 1: the order is
    for 0.0001 coins, ten times the request. *)
Lemma execute_market_sell_amount_witness :
  sell_amount
    (mkExchange (Some "true"%string) (fun _ => Ok (Some 1))
       (fun _ => Ok (Some 100)) (fun _ _ => Ok None) (fun _ _ => Ok None)
       (fun _ => "None"%string)) "KRW-BTC" 0.00001
  = Ok (Qmax (Qmin (1 * 0.05) 0.00001) 0.0001)
  /\ Qmax (Qmin (1 * 0.05) 0.00001) 0.0001 = 0.0001.
Proof.
  destruct (execute_market_sell_amount
              (mkExchange (Some "true"%string) (fun _ => Ok (Some 1))
                 (fun _ => Ok (Some 100)) (fun _ _ => Ok None)
                 (fun _ _ => Ok None) (fun _ => "None"%string))
              "KRW-BTC" 0.00001) as (_ & Htest & _).
  destruct (Htest eq_refl 1 eq_refl) as [Hpos _].
  destruct Hpos as (Hsold & _ & _ & _ & Hraise); [reflexivity|].
  split; [exact Hsold|]. apply Hraise. reflexivity.
Defined.

(** A market buy places at most one order, for the requested amount of
    KRW or, in test mode, for the smaller of that and 5,500.  It reports
    success only after placing that order with a price lookup that
    returned a non-zero price, the exchange's response carrying an order
    id; the executed amount it reports is an estimate, 99.5% of the spend
    divided by the looked-up price. *)
Theorem execute_market_buy_amount ex ticker (krw_amount : Q) :
  let spend := if is_test_mode ex then Qmin krw_amount 5500 else krw_amount in
  spend <= krw_amount
  /\ (is_test_mode ex = true -> spend <= 5500)
  /\ ((execute_market_buy ex ticker krw_amount).2 = []
      \/ (execute_market_buy ex ticker krw_amount).2 = [BuyMarket ticker spend])
  /\ forall order price qty,
       (execute_market_buy ex ticker krw_amount).1 = Success order price qty ->
       (execute_market_buy ex ticker krw_amount).2 = [BuyMarket ticker spend]
       /\ buy_market_order ex ticker spend = Ok (Some order)
       /\ is_Some (order !! "uuid"%string)
       /\ exists p, price = Some p
                    /\ get_current_price ex ticker = Ok (Some p)
                    /\ ~ p == 0
                    /\ qty * p == spend * 0.995.
Proof.
  intros spend.
  assert (spend <= krw_amount) as Hle.
  { subst spend. destruct (is_test_mode ex); [apply Q.le_min_l|lra]. }
  split; [exact Hle|]. split.
  { intros Htest. subst spend. rewrite Htest. apply Q.le_min_r. }
  unfold execute_market_buy. fold spend.
  destruct (get_current_price ex ticker) as [[p|]|e].
  2, 3: by (split; [by left|]).
  destruct (Qeq_bool p 0) eqn:Ep; [by (split; [by left|])|].
  apply Qeq_bool_neq in Ep.
  destruct (buy_market_order ex ticker spend) as [response|e] eqn:Hresp.
  2: { split; [by right|done]. }
  destruct (has_uuid response) as [order|] eqn:Huuid.
  2: { split; [by right|done]. }
  split; [by right|]. intros order0 price0 qty [= <- <- <-].
  split; [done|].
  unfold has_uuid in Huuid. destruct response as [r|]; [|done].
  destruct (r !! "uuid"%string) eqn:E; [|done].
  injection Huuid as <-. split; [done|]. split; [by rewrite E|].
  exists p. split; [done|]. split; [done|]. split; [done|].
  field. exact Ep.
Qed.

(** A buy of 10,000 KRW in production at an exchange that accepts every
    order: one order, for 10,000 KRW. *)
Lemma execute_market_buy_amount_witness :
  exists order price qty,
    (execute_market_buy RiskOrders.accepting_exchange "KRW-BTC" 10000).1
    = Success order price qty
    /\ (execute_market_buy RiskOrders.accepting_exchange "KRW-BTC" 10000).2
       = [BuyMarket "KRW-BTC" 10000].
Proof.
  destruct (execute_market_buy RiskOrders.accepting_exchange "KRW-BTC" 10000).1
    as [order price qty|e] eqn:H; [|vm_compute in H; discriminate].
  exists order, price, qty. split; [reflexivity|].
  destruct (execute_market_buy_amount RiskOrders.accepting_exchange "KRW-BTC"
              10000) as (_ & _ & _ & Hs).
  exact (proj1 (Hs order price qty H)).
Defined.

End MarketOrderAmounts.

(** ** Allocation: what is and is not deployed *)

Section Deployment.
Import CapitalAllocator.
Implicit Types (m : gmap (option string) Q) (s : Signal) (self : Allocator).

Lemma py_sum_elem_le (l : list Q) (x : Q) :
  Forall (fun y => 0 <= y) l -> x ∈ l -> x <= py_sum l.
Proof.
  induction 1 as [|y l Hy Hl IH]; intros Hin; [by apply elem_of_nil in Hin|].
  rewrite py_sum_cons. pose proof (py_sum_nonneg l Hl).
  apply elem_of_cons in Hin as [->|Hin]; [lra|].
  specialize (IH Hin). lra.
Qed.

Lemma momentum_weight_le_1 momentum s :
  Forall (fun s => 0 <= score s) momentum ->
  s ∈ momentum -> momentum_weight momentum s <= 1.
Proof.
  intros Hscores Hin. unfold momentum_weight.
  destruct (Qltb 0 (total_score momentum)) eqn:Ht.
  - apply Qltb_lt in Ht. apply Qle_shift_div_r; [done|].
    unfold total_score in *. rewrite Qmult_1_l.
    apply py_sum_elem_le; [by apply Forall_fmap|].
    by apply list_elem_of_fmap_2.
  - assert (momentum <> []) as Hne.
    { intros E. rewrite E in Hin. by apply elem_of_nil in Hin. }
    pose proof (py_len_pos momentum Hne) as Hlen.
    apply Qle_shift_div_r; [done|]. rewrite Qmult_1_l.
    unfold py_len in *. destruct momentum; [done|].
    change 1 with (inject_Z 1). rewrite <- Zle_Qle. cbn [length]. lia.
Qed.

(** A loop whose amounts are all below the minimum stores nothing. *)
Lemma allocate_loop_below self amount (signals : list Signal) m :
  Forall (fun s => amount s < min_order_size self) signals ->
  allocate_loop self amount signals m = m.
Proof.
  induction 1 as [|s signals Hs Hrest IH]; [done|].
  rewrite allocate_loop_cons.
  apply Qltb_lt in Hs. unfold Qltb in Hs.
  by destruct (Qle_bool (min_order_size self) (amount s)).
Qed.

Lemma allocate_group_below self (capital : Q) amount (signals : list Signal) m :
  Forall (fun s => amount s < min_order_size self) signals ->
  allocate_group self capital amount signals m = m.
Proof.
  intros Hall. unfold allocate_group. destruct signals as [|s signals]; [done|].
  destruct (Qltb 0 capital); [|done]. by apply allocate_loop_below.
Qed.

(** The slices of a group never exceed the group's capital. *)
Lemma momentum_slices_le (momentum_capital : Q) momentum :
  0 <= momentum_capital ->
  Forall (fun s => 0 <= score s) momentum ->
  Forall (fun s => momentum_allocation momentum_capital momentum s
                   <= momentum_capital) momentum.
Proof.
  intros Hc Hscores. apply Forall_forall. intros s Hin.
  pose proof (momentum_weight_le_1 momentum s Hscores Hin) as Hw.
  unfold momentum_allocation.
  set (w := momentum_weight momentum s) in *. clearbody w. nra.
Qed.

Lemma equal_slices_le (regular_capital : Q) (regular : list Signal) :
  0 <= regular_capital ->
  regular <> [] ->
  equal_allocation regular_capital regular <= regular_capital.
Proof.
  intros Hc Hne. unfold equal_allocation.
  pose proof (py_len_pos regular Hne) as Hlen.
  apply Qle_shift_div_r; [done|].
  assert (1 <= py_len regular) as Hone.
  { unfold py_len. destruct regular; [done|].
    change 1 with (inject_Z 1). rewrite <- Zle_Qle. cbn [length]. lia. }
  nra.
Qed.

Lemma capital_split_cases self (tradeable : Q) (momentum regular : list Signal) :
  let split := capital_split self tradeable momentum regular in
  (split.1 = tradeable * momentum_capital_ratio self \/ split.1 = tradeable
   \/ split.1 = 0)
  /\ (split.2 = tradeable * (1 - momentum_capital_ratio self)
      \/ split.2 = tradeable \/ split.2 = 0).
Proof. unfold capital_split. destruct momentum, regular; cbn; auto. Qed.

(** The slices of a group whose capital is below the minimum, or not
    positive, are all below the minimum. *)
Lemma momentum_slices_below (momentum_capital : Q) momentum :
  momentum_capital < 5000 ->
  Forall (fun s => 0 <= score s) momentum ->
  Forall (fun s => momentum_allocation momentum_capital momentum s < 5000)
    momentum.
Proof.
  intros Hc Hscores. apply Forall_forall. intros s Hin.
  pose proof (momentum_weight_le_1 momentum s Hscores Hin) as Hw.
  assert (0 <= momentum_weight momentum s) as Hw0.
  { apply momentum_weight_nonneg.
    - intros E. rewrite E in Hin. by apply elem_of_nil in Hin.
    - by apply (proj1 (Forall_forall _ _) Hscores). }
  unfold momentum_allocation.
  set (w := momentum_weight momentum s) in *. clearbody w.
  destruct (Qlt_le_dec momentum_capital 0); nra.
Qed.

Lemma equal_slices_below (regular_capital : Q) (regular : list Signal) :
  regular_capital < 5000 ->
  Forall (fun _ : Signal => equal_allocation regular_capital regular < 5000)
    regular.
Proof.
  intros Hc. destruct regular as [|s0 rest] eqn:E; [constructor|].
  rewrite <- E. assert (regular <> []) as Hne by (by rewrite E).
  apply Forall_forall. intros _ _.
  destruct (Qlt_le_dec regular_capital 0) as [Hneg|Hpos].
  - unfold equal_allocation. pose proof (py_len_pos regular Hne) as Hlen.
    assert (regular_capital / py_len regular <= 0).
    { apply Qle_shift_div_r; [done|]. lra. }
    lra.
  - pose proof (equal_slices_le regular_capital regular Hpos Hne). lra.
Qed.

(** A budget whose tradeable part, 98% of it, is below 5,000 buys
    nothing, whatever the signals: no slice can reach the minimum order
    size. *)
Theorem allocation_needs_the_minimum (available_krw : Q)
    (buy_signals : list Signal) :
  Forall (fun s => 0 <= score s) buy_signals ->
  available_krw * 0.98 < 5000 ->
  allocate_capital_dynamically init available_krw buy_signals = ∅.
Proof.
  intros Hscores Hsmall. unfold allocate_capital_dynamically.
  destruct buy_signals as [|s0 rest] eqn:E; [done|]. rewrite <- E in *.
  clear E s0 rest.
  set (tradeable := tradeable_capital init available_krw).
  assert (tradeable < 5000) as Ht.
  { subst tradeable. unfold tradeable_capital. cbn [reserve_ratio init].
    assert (available_krw * (1 - 0.02) == available_krw * 0.98) as ->
        by ring.
    done. }
  destruct (capital_split_cases init tradeable (momentum_signals buy_signals)
              (regular_signals buy_signals)) as [H1 H2].
  destruct (capital_split init tradeable (momentum_signals buy_signals)
              (regular_signals buy_signals)) as [mc rc].
  cbn [fst snd momentum_capital_ratio init] in H1, H2.
  assert (mc < 5000) as Hmc.
  { destruct H1 as [-> |[-> | ->]]; [|done|reflexivity].
    clearbody tradeable. destruct (Qlt_le_dec tradeable 0); lra. }
  assert (rc < 5000) as Hrc.
  { destruct H2 as [-> |[-> | ->]]; [|done|reflexivity].
    clearbody tradeable. destruct (Qlt_le_dec tradeable 0); lra. }
  rewrite (allocate_group_below init mc).
  - apply allocate_group_below. by apply equal_slices_below.
  - apply momentum_slices_below; [done|]. by apply Forall_list_filter.
Qed.

(** The scenario of the specification with a budget of 5,000. *)
Lemma allocation_needs_the_minimum_witness :
  allocate_capital_dynamically init 5000 scenario = ∅.
Proof.
  apply allocation_needs_the_minimum.
  - repeat constructor; vm_compute; discriminate.
  - vm_compute. reflexivity.
Defined.

Lemma allocate_capital_dynamically_nonempty (available_krw : Q)
    (buy_signals : list Signal) :
  buy_signals <> [] ->
  let momentum := momentum_signals buy_signals in
  let regular := regular_signals buy_signals in
  let split := capital_split init (tradeable_capital init available_krw)
                 momentum regular in
  allocate_capital_dynamically init available_krw buy_signals
  = allocate_group init split.2 (fun _ => equal_allocation split.2 regular)
      regular
      (allocate_group init split.1 (momentum_allocation split.1 momentum)
         momentum ∅).
Proof.
  intros Hne momentum regular split. subst momentum regular split.
  destruct buy_signals as [|s0 rest]; [done|].
  unfold allocate_capital_dynamically.
  by destruct (capital_split _ _ _ _).
Qed.

(** Every entry of the returned mapping belongs to a signal of the list:
    it is stored under that signal's key and holds that signal's slice,
    the score-weighted share of the momentum capital for a momentum
    signal and the equal share of the regular capital for a regular
    one. *)
Theorem allocation_entries (available_krw : Q) (buy_signals : list Signal)
    (k : option string) (v : Q) :
  let momentum := momentum_signals buy_signals in
  let regular := regular_signals buy_signals in
  let split := capital_split init (tradeable_capital init available_krw)
                 momentum regular in
  allocate_capital_dynamically init available_krw buy_signals !! k = Some v ->
  exists s,
    s ∈ buy_signals
    /\ signal_key s = k
    /\ v = (if is_momentum s
            then momentum_allocation split.1 momentum s
            else equal_allocation split.2 regular).
Proof.
  intros momentum regular split.
  assert (forall (amount : Signal -> Q) (signals : list Signal)
            (P : option string -> Q -> Prop) m,
            (forall s, s ∈ signals -> P (signal_key s) (amount s)) ->
            map_Forall P m ->
            map_Forall P (allocate_loop init amount signals m)) as Hloop.
  { intros amount signals P. induction signals as [|s signals IH];
      intros m Hsig Hm; [done|].
    rewrite allocate_loop_cons. apply IH.
    - intros s' Hin. apply Hsig. by apply elem_of_cons; right.
    - destruct (Qle_bool _ _); [|done].
      apply map_Forall_insert_2; [|done]. apply Hsig. by apply elem_of_cons; left. }
  assert (forall (capital : Q) (amount : Signal -> Q) (signals : list Signal)
            (P : option string -> Q -> Prop) m,
            (forall s, s ∈ signals -> P (signal_key s) (amount s)) ->
            map_Forall P m ->
            map_Forall P (allocate_group init capital amount signals m))
    as Hgroup.
  { intros capital amount signals P m Hsig Hm. unfold allocate_group.
    destruct signals as [|s0 rest] eqn:E; [done|]. rewrite <- E in *.
    destruct (Qltb 0 capital); [|done]. by apply Hloop. }
  destruct (decide (buy_signals = [])) as [->|Hne]; [done|].
  rewrite (allocate_capital_dynamically_nonempty _ _ Hne).
  fold momentum regular split. destruct split as [mc rc]. cbn [fst snd].
  set (P := fun (k : option string) (v : Q) =>
              exists s, s ∈ buy_signals /\ signal_key s = k
                        /\ v = (if is_momentum s
                                then momentum_allocation mc momentum s
                                else equal_allocation rc regular)).
  intros Hk.
  assert (map_Forall P
            (allocate_group init rc (fun _ => equal_allocation rc regular)
               regular
               (allocate_group init mc (momentum_allocation mc momentum)
                  momentum ∅))) as Hall.
  { apply Hgroup.
    - intros s Hin. apply elem_of_list_filter in Hin as [Hin Hreg].
      exists s. split; [done|]. split; [done|].
      by destruct (is_momentum s).
    - apply Hgroup; [|apply map_Forall_empty].
      intros s Hin. apply elem_of_list_filter in Hin as [Hin Hmom].
      exists s. split; [done|]. split; [done|]. by rewrite Hmom. }
  exact (Hall k v Hk).
Qed.

(** The regular signal of the scenario holds 392,000. *)
Lemma allocation_entries_witness :
  exists s v,
    allocate_capital_dynamically init 1000000 scenario !! Some "C"%string
    = Some v
    /\ v == 392000
    /\ s ∈ scenario
    /\ signal_key s = Some "C"%string.
Proof.
  destruct (allocate_capital_dynamically init 1000000 scenario
              !! Some "C"%string) as [v|] eqn:Hk;
    [|vm_compute in Hk; discriminate].
  destruct (allocation_entries 1000000 scenario _ v Hk)
    as (s & Hin & Hkey & _).
  exists s, v. split; [reflexivity|]. split; [|split; [exact Hin|exact Hkey]].
  vm_compute in Hk. injection Hk as <-. reflexivity.
Defined.

End Deployment.

(** ** The dictionary a monitoring returns *)

Section MonitorResults.
Import ImprovedOrderManager.
Implicit Types (ex : Exchange) (order_id : PyVal) (w : World) (st : Locals).

Lemma on_exception_state order_id (check_interval : Q) (e : string) st w
    (d : gmap string PyVal) w' :
  on_exception order_id check_interval e st w = Exit (Ok d) w' ->
  d !! "state"%string = Some (PStr "error")
  /\ d !! "uuid"%string = Some order_id.
Proof.
  unfold on_exception.
  destruct (max_failures <=? S (consecutive_failures st))%nat.
  - intros [= <- _]. split; [apply lookup_insert_eq|].
    unfold error_result. rewrite lookup_insert_ne by done.
    apply lookup_insert_eq.
  - by destruct (time_sleep _ _).
Qed.

Lemma poll_once_state ex order_id (check_interval : Q) st w
    (d : gmap string PyVal) w' :
  poll_once ex order_id check_interval st w = Exit (Ok d) w' ->
  (d !! "state"%string = Some (PStr "error")
   /\ d !! "uuid"%string = Some order_id)
  \/ (get_order ex (polls w) order_id = Return (Some d)
      /\ (d !! "state"%string = Some (PStr "done")
          \/ d !! "state"%string = Some (PStr "cancel"))).
Proof.
  unfold poll_once, upbit_get_order.
  destruct (get_order ex (polls w) order_id) as [e|order] eqn:Hreply.
  { intros H. left. by eapply on_exception_state. }
  destruct (cache_state order_id order _ _) as [st2 w2].
  destruct (subscript_state order) as [[d0 s]|e] eqn:Hsub.
  2: { intros H. left. by eapply on_exception_state. }
  assert (order = Some d0 /\ d0 !! "state"%string = Some s) as [-> Hs].
  { unfold subscript_state in Hsub. destruct order as [d1|]; [|done].
    destruct (d1 !! "state"%string) eqn:E; [|done]. by injection Hsub as <- <-. }
  destruct (pyval_eqb s (PStr "done")) eqn:Hdone.
  { intros [= <- _]. right. split; [done|]. left.
    destruct s as [s|q]; [|done]. by apply String.eqb_eq in Hdone as ->. }
  destruct (pyval_eqb s (PStr "cancel")) eqn:Hcancel.
  { intros [= <- _]. right. split; [done|]. right.
    destruct s as [s|q]; [|done]. by apply String.eqb_eq in Hcancel as ->. }
  destruct (if pyval_eqb s (PStr "wait")
            then report_progress order_id d0 w2 else Ok w2) as [w3|e].
  2: { intros H. left. by eapply on_exception_state. }
  cbn [retry_delay]. destruct (time_sleep check_interval w3); [done|].
  intros H. left. by eapply on_exception_state.
Qed.

Lemma poll_loop_state ex order_id (timeout check_interval start_time : Q)
    (fuel : nat) :
  forall st w (d : gmap string PyVal) w',
    poll_loop fuel ex order_id timeout check_interval start_time st w
    = Some (Returned (Ok d) w') ->
    (d !! "state"%string = Some (PStr "error")
     /\ d !! "uuid"%string = Some order_id)
    \/ ((exists k, get_order ex k order_id = Return (Some d))
        /\ (d !! "state"%string = Some (PStr "done")
            \/ d !! "state"%string = Some (PStr "cancel"))).
Proof.
  induction fuel as [|fuel IH]; intros st w d w'; cbn [poll_loop].
  - by destruct (Qltb (now w - start_time) timeout).
  - destruct (Qltb (now w - start_time) timeout); [|done].
    destruct (poll_once ex order_id check_interval st w) as [st1 w1|r w1]
      eqn:Hstep; [apply IH|].
    intros [= -> ->]. apply poll_once_state in Hstep as [H|[H1 H2]];
      [by left|right]. split; [by eexists|done].
Qed.

(** Every dictionary [monitor_order] returns has a ['state']: it is an
    answer of the exchange with a state, which is ['done'] or ['cancel']
    when the loop returned it, or it is the error dictionary or the
    timeout dictionary, and these two carry the order id. *)
Theorem monitor_order_result_state (fuel : nat) ex order_id
    (timeout : option Q) (check_interval : Q) w (d : gmap string PyVal) w' :
  monitor_order fuel ex order_id timeout check_interval w = Some (Ok d, w') ->
  is_Some (d !! "state"%string)
  /\ ((exists k, get_order ex k order_id = Return (Some d))
      \/ (d !! "uuid"%string = Some order_id
          /\ (d !! "state"%string = Some (PStr "error")
              \/ d !! "state"%string = Some (PStr "timeout")))).
Proof.
  unfold monitor_order.
  set (w0 := logger (MonitoringOrder order_id (effective_timeout timeout)) w).
  destruct (poll_loop fuel ex order_id (effective_timeout timeout)
              check_interval (now w) (initial_locals check_interval) w0)
    as [[r w1|st w1]|] eqn:Hloop; [| |done].
  - intros [= -> ->].
    apply poll_loop_state in Hloop as [[H1 H2]|[H1 [H2|H2]]].
    + split; [by rewrite H1|]. right. split; [done|by left].
    + split; [by rewrite H2|by left].
    + split; [by rewrite H2|by left].
  - unfold final_status_check, upbit_get_order. cbn [polls logger].
    assert (forall elapsed,
              is_Some (timeout_result order_id elapsed !! "state"%string)
              /\ ((exists k, get_order ex k order_id
                             = Return (Some (timeout_result order_id elapsed)))
                  \/ (timeout_result order_id elapsed !! "uuid"%string
                      = Some order_id
                      /\ (timeout_result order_id elapsed !! "state"%string
                          = Some (PStr "error")
                          \/ timeout_result order_id elapsed !! "state"%string
                             = Some (PStr "timeout"))))) as Htimeout.
    { intros elapsed. unfold timeout_result.
      rewrite lookup_insert_eq. split; [done|]. right.
      split; [|by right]. rewrite lookup_insert_ne by done.
      apply lookup_insert_eq. }
    destruct (get_order ex (polls w1) order_id) as [e|[final|]] eqn:Hreply.
    + intros [= <- _]. apply Htimeout.
    + destruct (size final =? 0)%nat; [intros [= <- _]; apply Htimeout|].
      destruct (final !! "state"%string) as [s|] eqn:Hs;
        [|intros [= <- _]; apply Htimeout].
      destruct (pyval_eqb s (PStr "done")); intros [= <- _];
        (split; [by rewrite Hs|left; by eexists]).
    + intros [= <- _]. apply Htimeout.
Qed.

(** The order that stays open, with a deadline of one second: the final
    check returns the exchange's answer, whose state is ['wait']. *)
Lemma monitor_order_result_state_witness :
  exists d w',
    monitor_order 10 always_wait (PStr "o1") (Some 1) 0.5 boot
    = Some (Ok d, w')
    /\ is_Some (d !! "state"%string).
Proof.
  destruct (monitor_order 10 always_wait (PStr "o1") (Some 1) 0.5 boot)
    as [[[d|e] w']|] eqn:Hrun; [|vm_compute in Hrun; discriminate..].
  exists d, w'. split; [reflexivity|].
  exact (proj1 (monitor_order_result_state 10 always_wait (PStr "o1") (Some 1)
                  0.5 boot d w' Hrun)).
Defined.

End MonitorResults.

(** ** The ATR and the library's rolling mean *)

Section RollingMean.
Import ATRRiskManager.
Implicit Types (self : Manager) (df : list Bar) (b : Bar).

(** [calculate_atr] is [calculate_atr_with] at the exact window mean. *)
Lemma calculate_atr_exact self (period : option nat) (fetch : Fetch) :
  calculate_atr self period fetch
  = calculate_atr_with rolling_mean_last self period fetch.
Proof. reflexivity. Qed.

(** C2, as the code has it.  [calculate_atr] returns 0 when the fetch
    raises or returns nothing and whenever fewer than [period] bars are
    available.  With at least [period] bars it returns what the
    library's rolling mean gives for the last row of the [true_range]
    column, or 0 when that is NaN; the column holds high-low for the
    oldest bar, whose previous close is NaN, and the largest of high-low,
    |high-prevClose| and |low-prevClose| for every later bar.  Whatever
    the library computes, this is so; when the rolling mean is the exact
    mean of the window, the result for [period+1] bars or more is the
    mean of the most recent [period] True Range values and is
    non-negative, and for exactly [period] bars it is the mean of
    [period] values of which the oldest is high-low. *)
Theorem C2_calculate_atr (rolling : nat -> list (option Q) -> option Q)
    (self : Manager) (period : nat) (df : list Bar) :
  (forall e, calculate_atr_with rolling self (Some period) (FetchRaise e) = 0)
  /\ calculate_atr_with rolling self (Some period) FetchNone = 0
  /\ ((length df < period)%nat ->
      calculate_atr_with rolling self (Some period) (FetchFrame df) = 0)
  /\ ((period <= length df)%nat ->
      calculate_atr_with rolling self (Some period) (FetchFrame df)
      = default 0 (rolling period (true_range_column df)))
  /\ (forall b0 rest, df = b0 :: rest ->
      true_range_column df
      = Some <$> (high b0 - low b0) :: spec_true_ranges df)
  /\ ((forall window s, rolling window s = rolling_mean_last window s) ->
      ((1 <= period)%nat -> (period + 1 <= length df)%nat ->
       calculate_atr_with rolling self (Some period) (FetchFrame df)
       = spec_atr period df
       /\ 0 <= calculate_atr_with rolling self (Some period) (FetchFrame df))
      /\ ((1 <= period)%nat -> length df = period ->
          forall b0 rest, df = b0 :: rest ->
          calculate_atr_with rolling self (Some period) (FetchFrame df)
          = py_sum ((high b0 - low b0) :: spec_true_ranges df)
            / inject_Z (Z.of_nat period))).
Proof.
  split; [done|]. split; [done|]. split; [|split; [|split]].
  - intros Hlen. unfold calculate_atr_with.
    change (default (ATR_PERIOD self) (Some period)) with period.
    by destruct (Nat.ltb_spec (length df) period) as [_|]; [|lia].
  - intros Hlen. unfold calculate_atr_with.
    change (default (ATR_PERIOD self) (Some period)) with period.
    destruct (Nat.ltb_spec (length df) period) as [|_]; [lia|].
    by destruct (rolling period (true_range_column df)).
  - intros b0 rest ->. apply true_range_column_eq.
  - intros Hexact.
    assert (calculate_atr_with rolling self (Some period) (FetchFrame df)
            = calculate_atr self (Some period) (FetchFrame df)) as ->.
    { unfold calculate_atr_with, calculate_atr. by rewrite Hexact. }
    split.
    + intros Hp Hlen. destruct df as [|b0 rest]; [cbn in Hlen; lia|].
      cbn [length] in Hlen.
      assert (calculate_atr self (Some period) (FetchFrame (b0 :: rest))
              = spec_atr period (b0 :: rest)) as Heq.
      { rewrite calculate_atr_frame by (cbn [length]; lia).
        unfold spec_atr, tail. cbn [length].
        rewrite length_spec_true_ranges.
        replace (S (length rest) - period)%nat
          with (S (length rest - period)) by lia.
        reflexivity. }
      split; [exact Heq|]. rewrite Heq. unfold spec_atr.
      apply Qdiv_nonneg.
      * apply py_sum_nonneg, Forall_forall. intros x Hx.
        unfold tail in Hx.
        eapply elem_of_sublist in Hx; [|apply sublist_drop].
        by eapply elem_of_spec_true_ranges.
      * change 0 with (inject_Z 0). rewrite <- Zlt_Qlt. lia.
    + intros Hp Hlen b0 rest ->.
      rewrite calculate_atr_frame by lia.
      unfold tail. cbn [length]. rewrite length_spec_true_ranges.
      cbn [length] in Hlen.
      replace (S (length rest) - period)%nat with 0%nat by lia.
      reflexivity.
Qed.

(** C2 at a frame of four bars and a period of 2, with the exact mean. *)
Lemma C2_calculate_atr_witness :
  let df := [mkBar 10 8 9; mkBar 12 9 11; mkBar 13 10 12; mkBar 12 11 11] in
  calculate_atr_with rolling_mean_last (init false) (Some 2%nat) (FetchFrame df)
  = spec_atr 2 df
  /\ 0 <= calculate_atr_with rolling_mean_last (init false) (Some 2%nat)
            (FetchFrame df).
Proof.
  intros df.
  destruct (C2_calculate_atr rolling_mean_last (init false) 2 df)
    as (_ & _ & _ & _ & _ & Hexact).
  destruct (Hexact ltac:(done)) as [Hmean _].
  apply Hmean; subst df; cbn [length]; lia.
Defined.

End RollingMean.

(** ** Allocation bounds, in exact arithmetic and in binary64 *)

Section AllocationBounds.
Import CapitalAllocator.
#[local] Set Warnings "-inexact-float".

Lemma allocate_loop64_min (amount : CapitalAllocator64.Signal -> float)
    (signals : list CapitalAllocator64.Signal)
    (m : gmap (option string) float) :
  map_Forall (fun _ x => PrimFloat.leb 5000 x = true) m ->
  map_Forall (fun _ x => PrimFloat.leb 5000 x = true)
    (CapitalAllocator64.allocate_loop CapitalAllocator64.init amount signals m).
Proof.
  revert m. induction signals as [|s signals IH]; intros m Hm; [done|].
  unfold CapitalAllocator64.allocate_loop. cbn [fold_left].
  apply IH.
  destruct (PrimFloat.leb _ (amount s)) eqn:Hle; [|done].
  by apply map_Forall_insert_2.
Qed.

Lemma allocate_group64_min (capital : float)
    (amount : CapitalAllocator64.Signal -> float)
    (signals : list CapitalAllocator64.Signal)
    (m : gmap (option string) float) :
  map_Forall (fun _ x => PrimFloat.leb 5000 x = true) m ->
  map_Forall (fun _ x => PrimFloat.leb 5000 x = true)
    (CapitalAllocator64.allocate_group CapitalAllocator64.init capital amount
       signals m).
Proof.
  intros Hm. unfold CapitalAllocator64.allocate_group.
  destruct signals; [done|]. destruct (PrimFloat.ltb 0 capital); [|done].
  by apply allocate_loop64_min.
Qed.

(** The slices the code computes are the slices of the specification. *)
Lemma candidate_slices_spec (available_krw : Q) (buy_signals : list Signal) :
  Forall (fun s => 0 <= score s) buy_signals ->
  Forall2 Qeq (candidate_slices init available_krw buy_signals)
    (spec_candidate_slices available_krw buy_signals).
Proof.
  intros Hscores. unfold candidate_slices, spec_candidate_slices, spec_pools.
  fold (momentum_signals buy_signals) (regular_signals buy_signals).
  pose proof (Forall_list_filter _ is_momentum buy_signals Hscores) as Hmom.
  fold (momentum_signals buy_signals) in Hmom.
  set (momentum := momentum_signals buy_signals) in *.
  set (regular := regular_signals buy_signals) in *.
  assert (0 <= total_score momentum) as Htotal.
  { apply py_sum_nonneg. by apply Forall_fmap. }
  fold (total_score momentum).
  assert (tradeable_capital init available_krw == available_krw * 0.98) as Et.
  { unfold tradeable_capital. cbn [reserve_ratio init]. ring. }
  assert (forall mc rc mc' rc' : Q, mc == mc' -> rc == rc' ->
            Forall2 Qeq
              ((momentum_allocation mc momentum <$> momentum)
               ++ ((fun _ => equal_allocation rc regular) <$> regular))
              (((fun s => if Qeq_bool (total_score momentum) 0
                          then mc' / py_len momentum
                          else mc' * (score s / total_score momentum))
                  <$> momentum)
               ++ ((fun _ => rc' / py_len regular) <$> regular))) as Hslices.
  { intros mc rc mc' rc' Hmc Hrc. apply Forall2_app.
    - apply Forall2_fmap, Forall_Forall2_diag, Forall_forall. intros s _.
      unfold momentum_allocation, momentum_weight.
      destruct (Qeq_bool (total_score momentum) 0) eqn:E.
      + apply Qeq_bool_iff in E.
        assert (Qltb 0 (total_score momentum) = false) as ->
            by (apply Qltb_ge; lra).
        rewrite Hmc. unfold Qdiv. ring.
      + apply Qeq_bool_neq in E.
        assert (Qltb 0 (total_score momentum) = true) as ->
            by (apply Qltb_lt; lra).
        by rewrite Hmc.
    - apply Forall2_fmap, Forall_Forall2_diag, Forall_forall. intros s _.
      unfold equal_allocation. by rewrite Hrc. }
  unfold capital_split. cbn [momentum_capital_ratio init].
  destruct momentum as [|m0 ms], regular as [|r0 rs]; cbn [fst snd];
    apply Hslices; rewrite ?Et; try reflexivity; ring.
Qed.

Lemma Forall_below_Qeq (l1 l2 : list Q) (bound : Q) :
  Forall2 Qeq l1 l2 ->
  Forall (fun x => x < bound) l1 <-> Forall (fun x => x < bound) l2.
Proof.
  induction 1 as [|x y l1 l2 Hxy Hl IH]; [done|].
  rewrite !Forall_cons, IH, Hxy. done.
Qed.

(** Slices that are all below the minimum leave the mapping empty. *)
Lemma allocation_below_empty (available_krw : Q) (buy_signals : list Signal) :
  Forall (fun slice => slice < 5000)
    (candidate_slices init available_krw buy_signals) ->
  allocate_capital_dynamically init available_krw buy_signals = ∅.
Proof.
  unfold candidate_slices, allocate_capital_dynamically.
  destruct buy_signals as [|s0 rest]; [done|].
  destruct (capital_split _ _ _ _) as [mc rc].
  intros Hall. apply Forall_app in Hall as [Hmom Hreg].
  rewrite Forall_fmap in Hmom. rewrite Forall_fmap in Hreg.
  rewrite (allocate_group_below init mc) by exact Hmom.
  apply allocate_group_below. exact Hreg.
Qed.

(** C3, as the code has it.  In exact arithmetic, for a non-negative
    budget and non-negative momentum scores (the signal data model), the
    amounts returned by [allocate_capital_dynamically] add up to at most
    [budget * 0.98]; each returned amount is at least 5,000; the returned
    mapping is empty exactly when every candidate slice, as the
    specification defines the slices, is below 5,000; and an empty signal
    list gives the empty mapping.  On binary64 numbers, for every budget
    and every signal list, each returned amount is at least 5,000 and an
    empty signal list gives the empty mapping.  The bound on the sum is
    not among the facts that hold on binary64 numbers: a quotient can be
    rounded up. *)
Theorem C3_allocation_bounds (available_krw : Q) (buy_signals : list Signal) :
  0 <= available_krw ->
  Forall (fun s => 0 <= score s) buy_signals ->
  total_allocated (allocate_capital_dynamically init available_krw buy_signals)
    <= available_krw * 0.98
  /\ map_Forall (fun _ amount => 5000 <= amount)
       (allocate_capital_dynamically init available_krw buy_signals)
  /\ (allocate_capital_dynamically init available_krw buy_signals = ∅
      <-> Forall (fun slice => slice < 5000)
            (spec_candidate_slices available_krw buy_signals))
  /\ allocate_capital_dynamically init available_krw [] = ∅
  /\ (forall (budget : float) (signals : list CapitalAllocator64.Signal),
        map_Forall (fun _ amount => PrimFloat.leb 5000 amount = true)
          (CapitalAllocator64.allocate_capital_dynamically
             CapitalAllocator64.init budget signals))
  /\ (forall budget : float,
        CapitalAllocator64.allocate_capital_dynamically
          CapitalAllocator64.init budget [] = ∅).
Proof.
  intros Hbudget Hscores.
  destruct (allocation_bounds_exact available_krw buy_signals Hbudget Hscores)
    as (Hsum & Hmin & Hempty & Hnil).
  split; [exact Hsum|]. split; [exact Hmin|]. split; [|split; [exact Hnil|]].
  - rewrite <- (Forall_below_Qeq _ _ 5000
                  (candidate_slices_spec available_krw buy_signals Hscores)).
    split; [exact Hempty|apply allocation_below_empty].
  - split; [|done].
    intros budget signals.
    unfold CapitalAllocator64.allocate_capital_dynamically.
    destruct signals as [|s0 rest]; [apply map_Forall_empty|].
    destruct (CapitalAllocator64.capital_split _ _ _ _) as [mc rc].
    apply allocate_group64_min, allocate_group64_min, map_Forall_empty.
Qed.

(** C3 at the scenario of the specification (budget 1,000,000). *)
Lemma C3_allocation_bounds_witness :
  total_allocated (allocate_capital_dynamically init 1000000 scenario)
    <= 1000000 * 0.98
  /\ map_Forall (fun _ amount => 5000 <= amount)
       (allocate_capital_dynamically init 1000000 scenario)
  /\ allocate_capital_dynamically init 1000000 scenario <> ∅.
Proof.
  assert (0 <= 1000000) as Hbudget by (vm_compute; discriminate).
  assert (Forall (fun s => 0 <= score s) scenario) as Hscores.
  { repeat constructor; vm_compute; discriminate. }
  destruct (C3_allocation_bounds 1000000 scenario Hbudget Hscores)
    as (Hsum & Hmin & Hempty & _).
  split; [exact Hsum|]. split; [exact Hmin|].
  intros E. apply Hempty in E. apply Forall_cons in E as [E _].
  vm_compute in E. discriminate.
Defined.

(** The claim as worded fails on the numbers the code computes with: at
    a budget of 100,313 with three regular signals each slice is the
    binary64 quotient 32768.913333333338, rounded up from
    32768.91333..., and the three returned amounts add up to more than
    100,313 x 0.98 = 98,306.74, as real numbers and as the binary64 sum
    98306.74000000002 against the binary64 product
    98306.740000000005. *)
Lemma C3_counterexample :
  let allocations :=
    CapitalAllocator64.allocate_capital_dynamically CapitalAllocator64.init
      100313 CapitalAllocator64.three_regular in
  exists (slice : float) (q : Q),
    map_to_list allocations
    ≡ₚ [(Some "A"%string, slice); (Some "B"%string, slice);
        (Some "C"%string, slice)]
    /\ Q_of_float slice = Some q
    /\ 100313 * 0.98 < q + q + q
    /\ PrimFloat.ltb (100313 * 0.98)%float (slice + slice + slice)%float = true.
Proof.
  intros allocations. subst allocations.
  exists 32768.913333333338%float. eexists.
  split; [|split; [vm_compute; reflexivity|split; vm_compute; reflexivity]].
  vm_compute. apply perm_swap.
Qed.

End AllocationBounds.

(** ** Batches: allotted time and time taken *)

Section BatchTimeouts.
Import ImprovedOrderManager.
Implicit Types (ex : Exchange) (w : World)
  (orders : list (gmap string PyVal)).

(** A batch of one order that the first poll finds filled returns after
    that one call. *)
Lemma single_order_filled (fuel : nat) ex (order : gmap string PyVal)
    (order_id : PyVal) (d : gmap string PyVal) (timeout : Q) w :
  order !! "uuid"%string = Some order_id ->
  get_order ex (polls w) order_id = Return (Some d) ->
  d !! "state"%string = Some (PStr "done") ->
  exists w',
    wait_for_orders_completion (S fuel) ex [order] timeout w
    = Some (Ok [(order_id, d)], w')
    /\ polls w' = S (polls w)
    /\ now w' = now w + latency ex (polls w).
Proof.
  intros Huuid Hreply Hstate.
  unfold wait_for_orders_completion. cbn [wait_loop length]. rewrite Huuid.
  set (w0 := logger (WaitingForOrders 1 timeout) w).
  set (remaining := Qmax 1 (timeout - (now w0 - now w0))).
  set (w1 := logger (MonitoringBatchOrder 1 1 order_id remaining) w0).
  unfold monitor_order. unfold remaining at 1 2.
  rewrite effective_timeout_remaining. fold remaining.
  set (w2 := logger (MonitoringOrder order_id remaining) w1).
  cbn [poll_loop].
  assert (Qltb (now w2 - now w1) remaining = true) as ->.
  { apply Qltb_lt. pose proof (remaining_timeout_ge_1
                                 (timeout - (now w0 - now w0))) as H.
    fold remaining in H. cbn [now w2 w1 logger]. lra. }
  destruct (poll_once_done ex order_id 0.5 (initial_locals 0.5) w2 d Hreply
              Hstate) as (w3 & -> & Hpolls & Hnow & _).
  eexists. split; [reflexivity|].
  cbn [polls now logger]. by rewrite Hpolls, Hnow.
Qed.

(** C10, as the code has it.  [wait_for_orders_completion] returns a
    result for every batch, and in every run each order that has an id,
    in the order of the batch, is announced with the timeout
    [max(1, timeout - elapsed)] for the [elapsed] of that moment and
    monitored with exactly that timeout, which is at least one second
    however much of the shared deadline has gone: no order is skipped.
    The allotted time bounds the start of the last poll; it is not the
    time an order is polled for.  A batch of one order that the first
    poll finds filled returns after that one call, and a batch that ends
    takes at most [timeout] and, for each order that has an id, 6 seconds
    and two calls, a monitoring being able to overrun its own timeout by
    a pause of 5 seconds and two calls.  Three orders that stay open with
    [timeout = 2] take 4 seconds, the third being announced, with one
    second, at second 3. *)
Theorem C10_batch_timeouts ex orders (timeout : Q) w :
  (forall k, 0 <= latency ex k) ->
  (exists fuel0 : nat, forall fuel : nat, (fuel0 <= fuel)%nat ->
     exists results w',
       wait_for_orders_completion fuel ex orders timeout w
       = Some (Ok results, w'))
  /\ (forall (fuel : nat) results w',
        wait_for_orders_completion fuel ex orders timeout w
        = Some (Ok results, w') ->
        exists started : list (Q * PyVal * Q),
          batch_records (log w') = batch_records (log w) ++ started
          /\ monitor_records (log w')
             = monitor_records (log w) ++ ((fun r => (r.1.2, r.2)) <$> started)
          /\ (fun r => r.1.2) <$> started = uuids orders
          /\ Forall (fun r => r.2 = Qmax 1 (timeout - (r.1.1 - now w))
                              /\ 1 <= r.2) started)
  /\ (exists results w',
        wait_for_orders_completion 10 always_wait three_orders 2 boot
        = Some (Ok results, w')
        /\ (fun r => (Qred r.1.1, r.1.2, r.2)) <$> batch_records (log w')
           = [(0, PStr "o1", 2); (2, PStr "o2", 1); (3, PStr "o3", 1)]
        /\ now w' == 4)
  /\ (forall (L : Q) (fuel : nat) r w',
        0 <= timeout ->
        (forall k, latency ex k <= L) ->
        wait_for_orders_completion fuel ex orders timeout w = Some (r, w') ->
        now w' - now w
        <= timeout
           + inject_Z (Z.of_nat (length (uuids orders))) * (6 + 2 * L))
  /\ (forall (fuel : nat) (order : gmap string PyVal) (order_id : PyVal)
        (d : gmap string PyVal),
        orders = [order] ->
        order !! "uuid"%string = Some order_id ->
        get_order ex (polls w) order_id = Return (Some d) ->
        d !! "state"%string = Some (PStr "done") ->
        exists w',
          wait_for_orders_completion (S fuel) ex orders timeout w
          = Some (Ok [(order_id, d)], w')
          /\ polls w' = S (polls w)
          /\ now w' = now w + latency ex (polls w)).
Proof.
  intros Hlat.
  destruct (batch_timeouts ex orders timeout w Hlat) as (Htotal & Hspec & Hrun).
  split; [exact Htotal|]. split; [exact Hspec|]. split; [exact Hrun|]. split.
  - intros L fuel r w' Htimeout HL. unfold wait_for_orders_completion.
    set (w0 := logger (WaitingForOrders (length orders) timeout) w).
    destruct (wait_loop fuel ex timeout (now w0) (length orders) 1 orders []
                w0) as [[r1 w1]|] eqn:Hloop; [|done].
    apply wait_loop_duration with (L := L) (B := 0) in Hloop;
      [|by intros k; split|done|lra|lra].
    change (now w0) with (now w) in Hloop.
    destruct r1 as [results|e]; intros [= <- <-]; cbn [now logger]; lra.
  - intros fuel order order_id d -> Huuid Hreply Hstate.
    by apply single_order_filled.
Qed.

(** C10 at the three orders that stay open. *)
Lemma C10_batch_timeouts_witness :
  exists (fuel : nat) results w' (started : list (Q * PyVal * Q)),
    wait_for_orders_completion fuel always_wait three_orders 2 boot
    = Some (Ok results, w')
    /\ batch_records (log w') = started
    /\ (fun r => r.1.2) <$> started = [PStr "o1"; PStr "o2"; PStr "o3"]
    /\ Forall (fun r => 1 <= r.2) started
    /\ now w' - now boot <= 2 + 3 * (6 + 2 * 0).
Proof.
  assert (forall k, 0 <= latency always_wait k) as Hlat.
  { intros k. vm_compute. discriminate. }
  destruct (C10_batch_timeouts always_wait three_orders 2 boot Hlat)
    as ([fuel0 Htotal] & Hspec & _ & Hbound & _).
  destruct (Htotal fuel0 (Nat.le_refl _)) as (results & w' & Hrun).
  destruct (Hspec fuel0 results w' Hrun) as (started & Hb & _ & Hids & Hall).
  exists fuel0, results, w', started.
  split; [exact Hrun|]. split; [exact Hb|]. split; [exact Hids|].
  split; [eapply Forall_impl; [exact Hall|]; by intros r [_ H]|].
  apply (Hbound 0 fuel0 (Ok results) w').
  - vm_compute. discriminate.
  - intros k. vm_compute. discriminate.
  - exact Hrun.
Defined.

(** The claim as worded fails twice.  An order is not always polled for
    at least a second: one order that the first poll, a call of a tenth
    of a second, finds filled is returned after that call, with a
    minute allotted.  And the overrun is not about a second for each
    remaining order: one order alone, at a client whose calls all raise,
    with a timeout of 8 seconds takes 12, the fourth backoff pause of 5
    seconds starting at second 7. *)
Lemma C10_counterexample :
  (exists results w',
     wait_for_orders_completion 1 filled_at_once [open_order (PStr "o1")] 60
       boot = Some (Ok results, w')
     /\ results = [(PStr "o1", filled_order (PStr "o1"))]
     /\ polls w' = 1%nat
     /\ now w' - now boot == 0.1
     /\ now w' - now boot < 1)
  /\ (exists results w',
        wait_for_orders_completion 10 always_error [open_order (PStr "o1")] 8
          boot = Some (Ok results, w')
        /\ polls w' = 5%nat
        /\ now w' - now boot == 12).
Proof.
  split.
  - destruct (wait_for_orders_completion 1 filled_at_once
                [open_order (PStr "o1")] 60 boot)
      as [[[results|e] w']|] eqn:Hrun; [|vm_compute in Hrun; discriminate..].
    exists results, w'. split; [reflexivity|].
    vm_compute in Hrun. injection Hrun as <- <-.
    split; [reflexivity|]. split; [reflexivity|].
    split; vm_compute; reflexivity.
  - destruct (wait_for_orders_completion 10 always_error
                [open_order (PStr "o1")] 8 boot)
      as [[[results|e] w']|] eqn:Hrun; [|vm_compute in Hrun; discriminate..].
    exists results, w'. split; [reflexivity|].
    vm_compute in Hrun. injection Hrun as <- <-.
    split; [reflexivity|]. vm_compute. reflexivity.
Qed.

End BatchTimeouts.

(** ** Which runs of the monitor touch the dictionaries *)

Section MonitorBooks.
Import ImprovedOrderManager.
Implicit Types (ex : Exchange) (order_id : PyVal) (w : World) (st : Locals).

Lemma on_exception_not_done order_id (check_interval : Q) (e : string) st w
    (r : Res (gmap string PyVal)) w' :
  on_exception order_id check_interval e st w = Exit r w' ->
  forall d, r = Ok d -> d !! "state"%string <> Some (PStr "done").
Proof.
  intros Hexit d ->. apply on_exception_state in Hexit as [Hstate _].
  by rewrite Hstate.
Qed.

(** A pass of the loop body that leaves [monitor_order] either returns
    an order whose state is [done], which it has filed, or returns
    something else and has left the two dictionaries alone. *)
Lemma poll_once_exit_filing ex order_id (check_interval : Q) st w
    (r : Res (gmap string PyVal)) w' :
  poll_once ex order_id check_interval st w = Exit r w' ->
  (exists d, r = Ok d
     /\ d !! "state"%string = Some (PStr "done")
     /\ completed_orders w' = dict_set order_id d (completed_orders w)
     /\ pending_orders w'
        = if dict_mem order_id (pending_orders w)
          then dict_del order_id (pending_orders w)
          else pending_orders w)
  \/ ((forall d, r = Ok d -> d !! "state"%string <> Some (PStr "done"))
      /\ pending_orders w' = pending_orders w
      /\ completed_orders w' = completed_orders w).
Proof.
  unfold poll_once, upbit_get_order.
  set (w1 := {| now := now w + latency ex (polls w); polls := S (polls w);
                log := log w; pending_orders := pending_orders w;
                completed_orders := completed_orders w |}).
  assert (forall e st0 w0,
            pending_orders w0 = pending_orders w
            /\ completed_orders w0 = completed_orders w ->
            on_exception order_id check_interval e st0 w0 = Exit r w' ->
            (forall d, r = Ok d -> d !! "state"%string <> Some (PStr "done"))
            /\ pending_orders w' = pending_orders w
            /\ completed_orders w' = completed_orders w) as Hhandler.
  { intros e st0 w0 [H1 H2] H. split; [by eapply on_exception_not_done|].
    apply on_exception_exit_books in H as [H3 H4]. split; congruence. }
  destruct (get_order ex (polls w) order_id) as [e|order];
    [intros H; right; eapply Hhandler; [|exact H]; done|].
  pose proof (cache_state_books order_id order
                {| consecutive_failures := 0;
                   last_order_state := last_order_state st;
                   retry_delay := retry_delay st |} w1) as Hcache.
  destruct (cache_state order_id order _ w1) as [st2 w2]. cbn [snd] in Hcache.
  change (pending_orders w1) with (pending_orders w) in Hcache.
  change (completed_orders w1) with (completed_orders w) in Hcache.
  destruct Hcache as [Hp Hc].
  destruct (subscript_state order) as [[d s]|e] eqn:Hsub;
    [|intros H; right; eapply Hhandler; [|exact H]; done].
  assert (d !! "state"%string = Some s) as Hs.
  { unfold subscript_state in Hsub. destruct order as [d0|]; [|done].
    destruct (d0 !! "state"%string) eqn:E; [|done]. by injection Hsub as <- <-. }
  destruct (pyval_eqb s (PStr "done")) eqn:Hdone.
  { intros [= <- <-]. left. exists d. split; [done|].
    destruct s as [s|q]; [|done]. apply String.eqb_eq in Hdone as ->.
    split; [done|].
    cbn [completed_orders pending_orders record_completed logger].
    by rewrite Hp, Hc. }
  destruct (pyval_eqb s (PStr "cancel")).
  { intros [= <- <-]. right. split.
    - intros d0 [= <-]. rewrite Hs. intros [= ->].
      vm_compute in Hdone. discriminate.
    - by cbn [completed_orders pending_orders logger]. }
  assert (forall w3,
            pending_orders w3 = pending_orders w
            /\ completed_orders w3 = completed_orders w ->
            match time_sleep check_interval w3 with
            | Ok w4 =>
                Continue
                  {| consecutive_failures := consecutive_failures st2;
                     last_order_state := last_order_state st2;
                     retry_delay := check_interval |} w4
            | Exn e =>
                on_exception order_id check_interval e
                  {| consecutive_failures := consecutive_failures st2;
                     last_order_state := last_order_state st2;
                     retry_delay := check_interval |} w3
            end = Exit r w' ->
            (forall d, r = Ok d -> d !! "state"%string <> Some (PStr "done"))
            /\ pending_orders w' = pending_orders w
            /\ completed_orders w' = completed_orders w) as Hsleep.
  { intros w3 Hw3. unfold time_sleep.
    destruct (Qltb check_interval 0); [by apply Hhandler|done]. }
  destruct (pyval_eqb s (PStr "wait")).
  - destruct (report_progress order_id d w2) as [w3|e] eqn:Hprog;
      [|intros H; right; eapply Hhandler; [|exact H]; done].
    apply report_progress_books in Hprog as [H1 H2]. cbn [retry_delay].
    intros H. right. eapply Hsleep; [|exact H]. split; congruence.
  - cbn [retry_delay]. intros H. right. by eapply Hsleep.
Qed.

Lemma poll_loop_filing ex order_id (timeout check_interval start_time : Q)
    (fuel : nat) :
  forall st w,
    match poll_loop fuel ex order_id timeout check_interval start_time st w with
    | Some (Deadline _ w') =>
        pending_orders w' = pending_orders w
        /\ completed_orders w' = completed_orders w
    | Some (Returned r w') =>
        (exists d, r = Ok d
           /\ d !! "state"%string = Some (PStr "done")
           /\ completed_orders w' = dict_set order_id d (completed_orders w)
           /\ pending_orders w'
              = if dict_mem order_id (pending_orders w)
                then dict_del order_id (pending_orders w)
                else pending_orders w)
        \/ ((forall d, r = Ok d -> d !! "state"%string <> Some (PStr "done"))
            /\ pending_orders w' = pending_orders w
            /\ completed_orders w' = completed_orders w)
    | None => True
    end.
Proof.
  induction fuel as [|fuel IH]; intros st w; cbn [poll_loop].
  - by destruct (Qltb (now w - start_time) timeout).
  - destruct (Qltb (now w - start_time) timeout); [|done].
    destruct (poll_once ex order_id check_interval st w) as [st1 w1|r w1]
      eqn:Hstep.
    + apply poll_once_books in Hstep as [Hp Hc].
      specialize (IH st1 w1). rewrite Hp, Hc in IH. exact IH.
    + by apply poll_once_exit_filing in Hstep.
Qed.

(** [monitor_order] files an order exactly when its loop returns it with
    state [done]: it then stores the order under its id in
    [completed_orders] and drops the id from [pending_orders].  When the
    loop returns anything else (a cancelled order, the error dictionary,
    an exception), and when the loop runs into the deadline, whatever the
    final check then finds, also an order that is [done], both
    dictionaries are left as they were. *)
Theorem monitor_order_books (fuel : nat) ex order_id (timeout : option Q)
    (check_interval : Q) w :
  match poll_loop fuel ex order_id (effective_timeout timeout) check_interval
          (now w) (initial_locals check_interval)
          (logger (MonitoringOrder order_id (effective_timeout timeout)) w)
  with
  | None => monitor_order fuel ex order_id timeout check_interval w = None
  | Some (Returned result w') =>
      monitor_order fuel ex order_id timeout check_interval w
      = Some (result, w')
      /\ (forall d, result = Ok d ->
          d !! "state"%string = Some (PStr "done") ->
          completed_orders w' = dict_set order_id d (completed_orders w)
          /\ pending_orders w'
             = if dict_mem order_id (pending_orders w)
               then dict_del order_id (pending_orders w)
               else pending_orders w)
      /\ ((forall d, result = Ok d ->
             d !! "state"%string <> Some (PStr "done")) ->
          pending_orders w' = pending_orders w
          /\ completed_orders w' = completed_orders w)
  | Some (Deadline _ w1) =>
      monitor_order fuel ex order_id timeout check_interval w
      = Some (Ok (final_status_check ex order_id (now w) w1).1,
              (final_status_check ex order_id (now w) w1).2)
      /\ pending_orders (final_status_check ex order_id (now w) w1).2
         = pending_orders w
      /\ completed_orders (final_status_check ex order_id (now w) w1).2
         = completed_orders w
  end.
Proof.
  unfold monitor_order.
  set (w0 := logger (MonitoringOrder order_id (effective_timeout timeout)) w).
  pose proof (poll_loop_filing ex order_id (effective_timeout timeout)
                check_interval (now w) fuel (initial_locals check_interval) w0)
    as Hloop.
  destruct (poll_loop fuel ex order_id (effective_timeout timeout)
              check_interval (now w) (initial_locals check_interval) w0)
    as [[r w1|st w1]|]; [| |done].
  - change (pending_orders w0) with (pending_orders w) in Hloop.
    change (completed_orders w0) with (completed_orders w) in Hloop.
    split; [done|]. split.
    + intros d -> Hdone.
      destruct Hloop as [(d' & [= <-] & _ & Hc & Hp)|[Hnot _]]; [done|].
      by destruct (Hnot d eq_refl).
    + intros Hnot.
      destruct Hloop as [(d & -> & Hdone & _)|(_ & Hp & Hc)]; [|done].
      by destruct (Hnot d eq_refl).
  - pose proof (final_status_check_books ex order_id (now w) w1) as [Hp Hc].
    destruct Hloop as [Hp1 Hc1].
    change (pending_orders w0) with (pending_orders w) in Hp1.
    change (completed_orders w0) with (completed_orders w) in Hc1.
    split; [by destruct (final_status_check ex order_id (now w) w1)|].
    split; congruence.
Qed.

(** An order that is open at the two polls before a deadline of one
    second and filled when the final check asks: [monitor_order] returns
    it, filled, and nothing is on file. *)
Lemma monitor_order_books_witness :
  exists w',
    monitor_order 10 wait_twice_then_done (PStr "o1") (Some 1) 0.5 boot
    = Some (Ok (filled_order (PStr "o1")), w')
    /\ polls w' = 3%nat
    /\ completed_orders w' = [].
Proof.
  pose proof (monitor_order_books 10 wait_twice_then_done (PStr "o1") (Some 1)
                0.5 boot) as H.
  remember (poll_loop 10 wait_twice_then_done (PStr "o1")
              (effective_timeout (Some 1)) 0.5 (now boot) (initial_locals 0.5)
              (logger (MonitoringOrder (PStr "o1") (effective_timeout (Some 1)))
                 boot)) as loop eqn:Hloop.
  vm_compute in Hloop. subst loop. cbv iota beta in H.
  destruct H as (Hrun & _ & Hc).
  eexists. split; [|split; [|exact Hc]].
  - rewrite Hrun. f_equal.
  - vm_compute. reflexivity.
Defined.

End MonitorBooks.
